(** * A shallow embedding of the RDBMS core (schema, storage, index, parser,
    executor) and the verification of its specification.

    Conventions of the embedding.
    - Python [str] is [string]; the development covers ASCII text (code
      points below 128), on which [lower], [upper], [isspace] and the
      [re] classes are the ones written below.
    - Runtime values are [None], [bool], [int] and [str].  Float literals
      are outside the development: [_parse_value] reports them with the
      dedicated exception [Unmodelled], and no row of the model holds one.
    - A Python [dict] is an insertion-ordered association list under the
      key equality of the language ([==] on keys); a [set] of rowids is a
      duplicate-free list.
    - Exceptions are the [Raise] results of the [result] type; the executor
      threads the file system and the index cache explicitly, so that the
      state left behind by a raised exception is visible. *)

From Stdlib Require Import List String Ascii ZArith NArith Lia Bool Arith.
From Stdlib Require Import DecimalString Sorted Permutation.
From Stdlib Require Import DecimalPos.
Import ListNotations.
Set Warnings "-register-all".
Open Scope string_scope.
Open Scope list_scope.

(** ** Python strings *)

Module PyStr.

Definition code (c : ascii) : N := N_of_ascii c.

Definition in_range (lo hi : N) (c : ascii) : bool :=
  (N.leb lo (code c) && N.leb (code c) hi)%bool.

(** [str.isspace] on one ASCII character: TAB..CR, FS..US and the space. *)
Definition isspace (c : ascii) : bool :=
  in_range 9 13 c || in_range 28 32 c.

Definition isdigit (c : ascii) : bool := in_range 48 57 c.
Definition isupper (c : ascii) : bool := in_range 65 90 c.
Definition islower (c : ascii) : bool := in_range 97 122 c.

(** The class [\w] of [re] on ASCII: letters, digits and the underscore. *)
Definition isword (c : ascii) : bool :=
  isdigit c || isupper c || islower c || Ascii.eqb c "_".

Definition lower_char (c : ascii) : ascii :=
  if isupper c then ascii_of_N (code c + 32) else c.

Definition upper_char (c : ascii) : ascii :=
  if islower c then ascii_of_N (code c - 32) else c.

Fixpoint map_str (f : ascii -> ascii) (s : string) : string :=
  match s with
  | EmptyString => EmptyString
  | String c r => String (f c) (map_str f r)
  end.

Definition lower (s : string) : string := map_str lower_char s.
Definition upper (s : string) : string := map_str upper_char s.

Fixpoint lstrip (s : string) : string :=
  match s with
  | String c r => if isspace c then lstrip r else s
  | EmptyString => EmptyString
  end.

Fixpoint rstrip (s : string) : string :=
  match s with
  | EmptyString => EmptyString
  | String c r =>
      match rstrip r with
      | EmptyString => if isspace c then EmptyString else String c EmptyString
      | r' => String c r'
      end
  end.

Definition strip (s : string) : string := rstrip (lstrip s).

(** [s.split(sep)] for a one-character separator: never the empty list. *)
Fixpoint split (sep : ascii) (s : string) : list string :=
  match s with
  | EmptyString => [EmptyString]
  | String c r =>
      if Ascii.eqb c sep then EmptyString :: split sep r
      else match split sep r with
           | h :: t => String c h :: t
           | [] => [String c EmptyString]
           end
  end.

Fixpoint join (sep : string) (l : list string) : string :=
  match l with
  | [] => EmptyString
  | [x] => x
  | x :: r => x ++ sep ++ join sep r
  end.

Fixpoint startswith (s p : string) : bool :=
  match p, s with
  | EmptyString, _ => true
  | String a p', String b s' => Ascii.eqb a b && startswith s' p'
  | String _ _, EmptyString => false
  end.

Definition endswith (s p : string) : bool :=
  let n := String.length s in
  let m := String.length p in
  Nat.leb m n && String.eqb (substring (n - m) m s) p.

(** [p in s] for strings: [p] occurs as a substring of [s]. *)
Fixpoint contains (s p : string) : bool :=
  startswith s p ||
  match s with
  | EmptyString => false
  | String _ r => contains r p
  end.

(** [s.replace(old, new)] for a non-empty [old]: the occurrences are taken
    from the left and do not overlap; [skip] counts the characters of an
    occurrence still to be passed over. *)
Fixpoint replace_from (old new s : string) (skip : nat) : string :=
  match s with
  | EmptyString => EmptyString
  | String c r =>
      match skip with
      | S k => replace_from old new r k
      | O =>
          if startswith s old
          then new ++ replace_from old new r (String.length old - 1)
          else String c (replace_from old new r 0)
      end
  end.

Definition replace (s old new : string) : string := replace_from old new s 0.

(** [str(n)] for an [int]. *)
Definition str_of_Z (z : Z) : string := NilZero.string_of_int (Z.to_int z).

Definition digit_val (c : ascii) : Z := Z.of_N (code c) - 48.

(** The digits of a decimal literal after the sign, as [int] reads them:
    digits, with single underscores allowed between two digits.
    [prev] tells whether the previous character was a digit. *)
Fixpoint int_digits (acc : Z) (prev : bool) (s : string) : option Z :=
  match s with
  | EmptyString => if prev then Some acc else None
  | String c r =>
      if isdigit c then int_digits (10 * acc + digit_val c) true r
      else if Ascii.eqb c "_" then
             if prev then
               match r with
               | String d _ => if isdigit d then int_digits acc false r else None
               | EmptyString => None
               end
             else None
           else None
  end.

(** [int(s)]: surrounding whitespace is dropped, one sign is allowed;
    [None] stands for the [ValueError] of a malformed literal. *)
Definition int_of_str (s : string) : option Z :=
  match strip s with
  | String "-" r => option_map Z.opp (int_digits 0 false r)
  | String "+" r => int_digits 0 false r
  | r => int_digits 0 false r
  end.

(** [s.split()] without a separator: the maximal runs of characters that
    are not whitespace. *)
Fixpoint split_ws_from (cur : string) (s : string) : list string :=
  match s with
  | EmptyString => match cur with EmptyString => [] | _ => [cur] end
  | String c r =>
      if isspace c then
        match cur with
        | EmptyString => split_ws_from EmptyString r
        | _ => cur :: split_ws_from EmptyString r
        end
      else split_ws_from (cur ++ String c EmptyString) r
  end.

Definition split_ws (s : string) : list string := split_ws_from EmptyString s.

(** [s[1:-1]]. *)
Definition strip_ends (s : string) : string :=
  substring 1 (String.length s - 2) s.

(** [s.split(sep, 1)] for a one-character separator that occurs in [s]:
    the text before and after its first occurrence. *)
Fixpoint split_first (sep : ascii) (s : string) : string * string :=
  match s with
  | EmptyString => (EmptyString, EmptyString)
  | String c r =>
      if Ascii.eqb c sep then (EmptyString, r)
      else let (a, b) := split_first sep r in (String c a, b)
  end.

Definition has_char (c : ascii) (s : string) : bool :=
  existsb (Ascii.eqb c) (list_ascii_of_string s).

End PyStr.

(** ** Python values, exceptions and dictionaries *)

(** The values a cell of a row or a literal of a statement can hold. *)
Inductive value : Type :=
| VNone
| VBool (b : bool)
| VInt (z : Z)
| VStr (s : string).

Inductive exn : Type :=
| ValueError (msg : string)
| FileNotFoundError (msg : string)
| TypeError (msg : string)
| AttributeError (msg : string)
| IndexError (msg : string)
| DecodeError (path : string)
| Unmodelled (what : string).

Inductive result (A : Type) : Type :=
| Ok (a : A)
| Raise (e : exn).
Arguments Ok {A} a.
Arguments Raise {A} e.

Definition rbind {A B} (m : result A) (k : A -> result B) : result B :=
  match m with
  | Ok a => k a
  | Raise e => Raise e
  end.

Declare Scope py_scope.
Delimit Scope py_scope with py.
Notation "x <- m ;; k" := (rbind m (fun x => k))
  (at level 61, m at next level, right associativity) : py_scope.
Open Scope py_scope.

Module PyVal.

(** [bool] is a subtype of [int]: [True == 1] and [False == 0]. *)
Definition num_of (v : value) : option Z :=
  match v with
  | VBool true => Some 1%Z
  | VBool false => Some 0%Z
  | VInt z => Some z
  | _ => None
  end.

(** [a == b]; it is also the equality under which [dict] compares keys
    (equal values have equal hashes). *)
Definition py_eq (a b : value) : bool :=
  match a, b with
  | VNone, VNone => true
  | VStr s, VStr t => String.eqb s t
  | _, _ =>
      match num_of a, num_of b with
      | Some x, Some y => Z.eqb x y
      | _, _ => false
      end
  end.

(** [str(v)], also what an f-string prints for [v]. *)
Definition str (v : value) : string :=
  match v with
  | VNone => "None"
  | VBool true => "True"
  | VBool false => "False"
  | VInt z => PyStr.str_of_Z z
  | VStr s => s
  end.

Definition type_name (v : value) : string :=
  match v with
  | VNone => "NoneType"
  | VBool _ => "bool"
  | VInt _ => "int"
  | VStr _ => "str"
  end.

(** The ordering operators: numbers by value, strings by code points;
    any other pair of operands is a [TypeError]. *)
Definition py_order (op : string) (fz : Z -> Z -> bool)
    (fs : string -> string -> bool) (a b : value) : result bool :=
  match num_of a, num_of b with
  | Some x, Some y => Ok (fz x y)
  | _, _ =>
      match a, b with
      | VStr s, VStr t => Ok (fs s t)
      | _, _ => Raise (TypeError ("'" ++ op ++ "' not supported between instances of '"
                                    ++ type_name a ++ "' and '" ++ type_name b ++ "'"))
      end
  end.

Definition py_lt := py_order "<" Z.ltb String.ltb.
Definition py_le := py_order "<=" Z.leb String.leb.
Definition py_gt := py_order ">" Z.gtb (fun s t => String.ltb t s).
Definition py_ge := py_order ">=" Z.geb (fun s t => String.leb t s).

End PyVal.

(** An insertion-ordered dictionary under the key equality [keq].
    Assigning to a key that is present replaces the value where it stands
    and keeps the key object already stored. *)
Module PyDict.
Section Dict.
Context {K V : Type} (keq : K -> K -> bool).

Fixpoint get (d : list (K * V)) (k : K) : option V :=
  match d with
  | [] => None
  | (k', v) :: r => if keq k' k then Some v else get r k
  end.

Definition mem (d : list (K * V)) (k : K) : bool :=
  match get d k with Some _ => true | None => false end.

Fixpoint set (d : list (K * V)) (k : K) (v : V) : list (K * V) :=
  match d with
  | [] => [(k, v)]
  | (k', v') :: r => if keq k' k then (k', v) :: r else (k', v') :: set r k v
  end.

(** [del d[k]]: the entry of [k] is dropped. *)
Definition del (d : list (K * V)) (k : K) : list (K * V) :=
  filter (fun kv => negb (keq (fst kv) k)) d.

(** [dict(pairs)]: a later pair overrides an earlier one with the same key. *)
Definition of_pairs (l : list (K * V)) : list (K * V) :=
  fold_left (fun d kv => set d (fst kv) (snd kv)) l [].

Definition keys (d : list (K * V)) : list K := map fst d.
Definition vals (d : list (K * V)) : list V := map snd d.
End Dict.
End PyDict.

(** A dictionary with [str] keys. *)
Definition sdict (V : Type) : Type := list (string * V).
Definition sget {V} (d : sdict V) (k : string) : option V := PyDict.get String.eqb d k.
Definition smem {V} (d : sdict V) (k : string) : bool := PyDict.mem String.eqb d k.
Definition sset {V} (d : sdict V) (k : string) (v : V) : sdict V := PyDict.set String.eqb d k v.
Definition sdel {V} (d : sdict V) (k : string) : sdict V := PyDict.del String.eqb d k.

(** [d.get(k)] on a row: a missing key reads as [None]. *)
Definition row_get (d : sdict value) (k : string) : value :=
  match sget d k with Some v => v | None => VNone end.

(** ** core/schema.py *)

Inductive DataType : Type := INTEGER | VARCHAR | BOOLEAN | DATE.

Module Column.
Record t : Type := mk {
  name : string;
  dtype : DataType;
  length : option Z;
  primary_key : bool;
  unique : bool;
  nullable : bool
}.
End Column.

Module TableSchema.
Record t : Type := mk {
  name : string;
  columns : sdict Column.t;
  primary_key : list string
}.

(** [TableSchema.__init__]. *)
Definition init (name : string) (cols : list Column.t) : t :=
  {| name := name;
     columns := PyDict.of_pairs String.eqb (map (fun c => (Column.name c, c)) cols);
     primary_key := map Column.name (filter Column.primary_key cols) |}.

(** [validate_row]: every column that is not nullable is a key of the row. *)
Definition validate_row (sch : t) (row : sdict value) : bool :=
  forallb (fun kc => negb (negb (Column.nullable (snd kc)) && negb (smem row (fst kc))))
          (columns sch).
End TableSchema.

Module Row.
Record t : Type := mk {
  values : sdict value;
  rowid : nat
}.
End Row.

(** ** core/index.py *)

Module Index.
Record t : Type := mk {
  t_name : string;
  column_name : string;
  index : list (value * list nat)
}.

Definition init (tn cn : string) : t :=
  {| t_name := tn; column_name := cn; index := [] |}.

Definition bucket_add (b : list nat) (rowid : nat) : list nat :=
  if existsb (Nat.eqb rowid) b then b else b ++ [rowid].

Definition bucket_discard (b : list nat) (rowid : nat) : list nat :=
  filter (fun r => negb (Nat.eqb r rowid)) b.

Definition with_index (i : t) (m : list (value * list nat)) : t :=
  {| t_name := t_name i; column_name := column_name i; index := m |}.

Definition add (i : t) (v : value) (rowid : nat) : t :=
  let m := if PyDict.mem PyVal.py_eq (index i) v then index i
           else PyDict.set PyVal.py_eq (index i) v [] in
  let b := match PyDict.get PyVal.py_eq m v with Some b => b | None => [] end in
  with_index i (PyDict.set PyVal.py_eq m v (bucket_add b rowid)).

Definition remove (i : t) (v : value) (rowid : nat) : t :=
  match PyDict.get PyVal.py_eq (index i) v with
  | Some b =>
      let b' := bucket_discard b rowid in
      match b' with
      | [] => with_index i (PyDict.del PyVal.py_eq (index i) v)
      | _ => with_index i (PyDict.set PyVal.py_eq (index i) v b')
      end
  | None => i
  end.

Definition get (i : t) (v : value) : list nat :=
  match PyDict.get PyVal.py_eq (index i) v with
  | Some b => b
  | None => []
  end.
End Index.

(** ** core/storage.py *)

(** What a file of the database directory holds.  The schema file is the
    JSON object of [save_schema], kept decoded; the index file is the
    pickled dictionary of [Index.save]. *)
Inductive file : Type :=
| TextFile (content : string)
| SchemaFile (name : string) (cols : list Column.t)
| IndexFile (idx : list (value * list nat)).

(** The database directory: file name to content. *)
Definition filesystem : Type := sdict file.

Definition LF : ascii := "010"%char.
Definition CR : ascii := "013"%char.
Definition NL : string := String LF EmptyString.
Definition DQUOTE : ascii := "034"%char.

Module StorageEngine.

Definition table_path (t : string) : string := t ++ ".tbl".
Definition schema_path (t : string) : string := t ++ ".schema".
Definition index_path (t column : string) : string := t ++ "_" ++ column ++ ".idx".

Definition exists_ (fs : filesystem) (path : string) : bool := smem fs path.

(** Reading in text mode: [\r\n] and [\r] arrive as [\n]. *)
Fixpoint universal_newlines (after_cr : bool) (s : string) : string :=
  match s with
  | EmptyString => EmptyString
  | String c r =>
      if Ascii.eqb c CR then String LF (universal_newlines true r)
      else if Ascii.eqb c LF then
             if after_cr then universal_newlines false r
             else String LF (universal_newlines false r)
           else String c (universal_newlines false r)
  end.

(** The lines a file object yields, each with its terminator. *)
Fixpoint split_lines (s : string) : list string :=
  match s with
  | EmptyString => []
  | String c r =>
      if Ascii.eqb c LF then NL :: split_lines r
      else match split_lines r with
           | [] => [String c EmptyString]
           | l :: ls => String c l :: ls
           end
  end.

Definition readlines (content : string) : list string :=
  split_lines (universal_newlines false content).

Definition save_schema (fs : filesystem) (t : string) (sch : TableSchema.t) : filesystem :=
  sset fs (schema_path t)
       (SchemaFile (TableSchema.name sch) (PyDict.vals (TableSchema.columns sch))).

Definition load_schema (fs : filesystem) (t : string) : result TableSchema.t :=
  match sget fs (schema_path t) with
  | None => Raise (FileNotFoundError ("Table " ++ t ++ " does not exist"))
  | Some (SchemaFile name cols) => Ok (TableSchema.init name cols)
  | Some _ => Raise (DecodeError (schema_path t))
  end.

(** One encoded field: [NULL] for [None], else [str(value)] with every
    comma preceded by a backslash. *)
Definition encode_field (v : value) : string :=
  match v with
  | VNone => "NULL"
  | _ => PyStr.replace (PyVal.str v) "," "\,"
  end.

(** The fields of a row, one per column of the schema, in schema order. *)
Definition encode_fields (sch : TableSchema.t) (row : sdict value) : list string :=
  map (fun col_name => encode_field (row_get row col_name))
      (PyDict.keys (TableSchema.columns sch)).

Definition encode_line (sch : TableSchema.t) (row : sdict value) : string :=
  PyStr.join "," (encode_fields sch row) ++ NL.

Definition read_text (fs : filesystem) (path : string) : result string :=
  match sget fs path with
  | Some (TextFile c) => Ok c
  | Some _ => Raise (DecodeError path)
  | None => Raise (FileNotFoundError path)
  end.

(** [insert_row]: the file is opened for appending (which creates it)
    before the schema is loaded; the rowid is the number of lines of the
    file after the write. *)
Definition insert_row (fs : filesystem) (t : string) (row : sdict value)
  : result nat * filesystem :=
  let path := table_path t in
  let old := match sget fs path with Some (TextFile c) => c | _ => EmptyString end in
  let fs1 := if exists_ fs path then fs else sset fs path (TextFile EmptyString) in
  match load_schema fs1 t with
  | Raise e => (Raise e, fs1)
  | Ok schema =>
      let content := (old ++ encode_line schema row)%string in
      (Ok (List.length (readlines content)), sset fs1 path (TextFile content))
  end.

Definition decode_field (col : Column.t) (raw_value : string) : result value :=
  if String.eqb raw_value "NULL" then Ok VNone
  else match Column.dtype col with
       | INTEGER =>
           match PyStr.int_of_str raw_value with
           | Some z => Ok (VInt z)
           | None => Raise (ValueError ("invalid literal for int() with base 10: '"
                                          ++ raw_value ++ "'"))
           end
       | BOOLEAN => Ok (VBool (String.eqb (PyStr.lower raw_value) "true"))
       | _ => Ok (VStr (PyStr.replace raw_value "\," ","))
       end.

(** The row of one line: the columns are zipped with the fields. *)
Fixpoint decode_fields (cols : list (string * Column.t)) (raws : list string)
    (row : sdict value) : result (sdict value) :=
  match cols, raws with
  | (col_name, col) :: cs, raw_value :: rs =>
      v <- decode_field col raw_value ;;
      decode_fields cs rs (sset row col_name v)
  | _, _ => Ok row
  end.

Fixpoint read_lines (sch : TableSchema.t) (line_num : nat) (lines : list string)
  : result (list Row.t) :=
  match lines with
  | [] => Ok []
  | line :: rest =>
      match PyStr.strip line with
      | EmptyString => read_lines sch (S line_num) rest
      | stripped =>
          row <- decode_fields (TableSchema.columns sch) (PyStr.split "," stripped) [] ;;
          rows <- read_lines sch (S line_num) rest ;;
          Ok (Row.mk row line_num :: rows)
      end
  end.

Definition read_rows (fs : filesystem) (t : string) : result (list Row.t) :=
  let path := table_path t in
  if negb (exists_ fs path) then Ok []
  else
    schema <- load_schema fs t ;;
    content <- read_text fs path ;;
    read_lines schema 1 (readlines content).

(** [del rows[rowid - 1]]. *)
Fixpoint drop_nth {A} (n : nat) (l : list A) : list A :=
  match l, n with
  | [], _ => []
  | _ :: r, O => r
  | x :: r, S n' => x :: drop_nth n' r
  end.

(** [delete_row]: the file is written again without the row at position
    [rowid] of the rows read. *)
Definition delete_row (fs : filesystem) (t : string) (rowid : nat)
  : result bool * filesystem :=
  match read_rows fs t with
  | Raise e => (Raise e, fs)
  | Ok rows =>
      if Nat.leb 1 rowid && Nat.leb rowid (List.length rows) then
        let rows := drop_nth (rowid - 1) rows in
        match rows with
        | [] => (Ok true, sset fs (table_path t) (TextFile EmptyString))
        | _ =>
            match load_schema (sset fs (table_path t) (TextFile EmptyString)) t with
            | Raise e => (Raise e, sset fs (table_path t) (TextFile EmptyString))
            | Ok schema =>
                (Ok true,
                 sset fs (table_path t)
                      (TextFile (String.concat EmptyString
                                   (map (fun row => encode_line schema (Row.values row)) rows))))
            end
        end
      else (Ok false, fs)
  end.

End StorageEngine.

(** [save] and [load] of core/index.py, which need the paths of the storage
    engine. *)

(** [Index.save]: the dictionary of the index is written to its file. *)
Definition Index_save (f : filesystem) (i : Index.t) : filesystem :=
  sset f (StorageEngine.index_path (Index.t_name i) (Index.column_name i))
       (IndexFile (Index.index i)).

(** [Index.load]: the dictionary is read from the file of the index, and is
    empty when there is no such file. *)
Definition Index_load (f : filesystem) (i : Index.t) : result Index.t :=
  match sget f (StorageEngine.index_path (Index.t_name i) (Index.column_name i)) with
  | Some (IndexFile m) => Ok (Index.with_index i m)
  | Some _ => Raise (DecodeError (StorageEngine.index_path (Index.t_name i)
                                                           (Index.column_name i)))
  | None => Ok (Index.with_index i [])
  end.

(** ** The fragment of Python's [re] the program relies on

    A backtracking matcher with the priorities of [re]: alternatives from
    the left, greedy repetitions longest first, lazy ones shortest first.
    Repetition is over one-character classes, which is all the patterns
    of the program use. *)

Module Re.

Inductive cclass : Type :=
| CAny                       (* .   *)
| CSpace                     (* \s  *)
| CNotSpace                  (* \S  *)
| CWord                      (* \w  *)
| CDigit                     (* \d  *)
| COneOf (l : list ascii)    (* [...] *)
| CChar (c : ascii).         (* a literal character *)

Inductive regex : Type :=
| Eps
| Chr (cl : cclass)
| Rep (cl : cclass) (min : nat) (greedy : bool)   (* cl*  cl+  cl*?  cl+? *)
| Seq (r1 r2 : regex)
| Alt (r1 r2 : regex)
| Opt (r : regex)                                 (* (?:r)? *)
| Group (n : nat) (r : regex)
| Bol                                             (* ^ *)
| Eol.                                            (* $ *)

Record flags : Type := mkflags { ignorecase : bool; dotall : bool }.

Definition char_eq (f : flags) (a b : ascii) : bool :=
  if ignorecase f then Ascii.eqb (PyStr.lower_char a) (PyStr.lower_char b)
  else Ascii.eqb a b.

Definition class_matches (f : flags) (cl : cclass) (c : ascii) : bool :=
  match cl with
  | CAny => dotall f || negb (Ascii.eqb c LF)
  | CSpace => PyStr.isspace c
  | CNotSpace => negb (PyStr.isspace c)
  | CWord => PyStr.isword c
  | CDigit => PyStr.isdigit c
  | COneOf l => existsb (char_eq f c) l
  | CChar a => char_eq f a c
  end.

(** The groups matched so far: group number to matched text. *)
Definition captures : Type := list (nat * string).

Definition group (caps : captures) (n : nat) : option string :=
  PyDict.get Nat.eqb caps n.

Section Matcher.
Context {R : Type} (f : flags).

Definition cont : Type := nat -> string -> captures -> option R.

(** [cl] repeated at least [min] times at the head of [s]. *)
Fixpoint rep (cl : cclass) (min : nat) (greedy : bool)
    (pos : nat) (s : string) (caps : captures) (k : cont) : option R :=
  let stop := match min with O => k pos s caps | S _ => None end in
  match s with
  | String c s' =>
      if class_matches f cl c then
        if greedy then
          match rep cl (Nat.pred min) greedy (S pos) s' caps k with
          | Some x => Some x
          | None => stop
          end
        else
          match stop with
          | Some x => Some x
          | None => rep cl (Nat.pred min) greedy (S pos) s' caps k
          end
      else stop
  | EmptyString => stop
  end.

Fixpoint run (r : regex) (pos : nat) (s : string) (caps : captures) (k : cont)
  : option R :=
  match r with
  | Eps => k pos s caps
  | Chr cl =>
      match s with
      | String c s' => if class_matches f cl c then k (S pos) s' caps else None
      | EmptyString => None
      end
  | Rep cl min greedy => rep cl min greedy pos s caps k
  | Seq r1 r2 => run r1 pos s caps (fun pos' s' caps' => run r2 pos' s' caps' k)
  | Alt r1 r2 =>
      match run r1 pos s caps k with
      | Some x => Some x
      | None => run r2 pos s caps k
      end
  | Opt r1 =>
      match run r1 pos s caps k with
      | Some x => Some x
      | None => k pos s caps
      end
  | Group n r1 =>
      run r1 pos s caps
          (fun pos' s' caps' =>
             k pos' s' (PyDict.set Nat.eqb caps' n (substring 0 (pos' - pos) s)))
  | Bol => match pos with O => k pos s caps | S _ => None end
  | Eol =>
      match s with
      | EmptyString => k pos s caps
      | String c EmptyString => if Ascii.eqb c LF then k pos s caps else None
      | _ => None
      end
  end.
End Matcher.

(** [re.match(r, s, flags)]: the groups of the match at the start of [s]. *)
Definition match_ (f : flags) (r : regex) (s : string) : option captures :=
  run f r 0 s [] (fun _ _ caps => Some caps).

(** The length of the match of [r] at position [pos], where [s] is the text
    from that position on. *)
Definition match_len (f : flags) (r : regex) (pos : nat) (s : string) : option nat :=
  run f r pos s [] (fun pos' _ _ => Some (pos' - pos)).

(** [re.split(r, s, flags=f)] for a pattern without groups that matches no
    empty string: the text between the successive leftmost matches.
    [skip] counts the characters of the current match still to pass and
    [piece] is the text gathered since the last match. *)
Fixpoint split_from (f : flags) (r : regex) (pos : nat) (s : string)
    (skip : nat) (piece : string) : list string :=
  match s with
  | EmptyString => [piece]
  | String c s' =>
      match skip with
      | S k => split_from f r (S pos) s' k piece
      | O =>
          match match_len f r pos s with
          | Some (S n) => piece :: split_from f r (S pos) s' n EmptyString
          | _ => split_from f r (S pos) s' 0 (piece ++ String c EmptyString)
          end
      end
  end.

Definition split (f : flags) (r : regex) (s : string) : list string :=
  split_from f r 0 s 0 EmptyString.

(** [re.search(r, s, flags=f)]: the groups of the leftmost match. *)
Fixpoint search_from (f : flags) (r : regex) (pos : nat) (s : string) : option captures :=
  match run f r pos s [] (fun _ _ caps => Some caps) with
  | Some caps => Some caps
  | None =>
      match s with
      | String _ s' => search_from f r (S pos) s'
      | EmptyString => None
      end
  end.

Definition search (f : flags) (r : regex) (s : string) : option captures :=
  search_from f r 0 s.

(** Helpers to write patterns. *)
Fixpoint lit (s : string) : regex :=
  match s with
  | EmptyString => Eps
  | String c EmptyString => Chr (CChar c)
  | String c r => Seq (Chr (CChar c)) (lit r)
  end.

Fixpoint seq (l : list regex) : regex :=
  match l with
  | [] => Eps
  | [r] => r
  | r :: rest => Seq r (seq rest)
  end.

Definition plus (cl : cclass) : regex := Rep cl 1 true.
Definition star (cl : cclass) : regex := Rep cl 0 true.
Definition plus_lazy (cl : cclass) : regex := Rep cl 1 false.

Definition is_special (c : ascii) : bool :=
  existsb (Ascii.eqb c)
    ["."; "^"; "$"; "*"; "+"; "?"; "{"; "}"; "["; "]"; "\"; "|"; "("; ")"]%char.

Definition is_quantifier (c : ascii) : bool :=
  existsb (Ascii.eqb c) ["*"; "+"; "?"; "{"]%char.

Definition starts_with_quantifier (s : string) : bool :=
  match s with
  | String c _ => is_quantifier c
  | EmptyString => false
  end.

(** [re.compile] on the patterns made of ordinary characters, [.], the
    anchors [^] and [$], and [*] or [+] after one character.  [None] is
    returned for every other pattern (groups, sets, escapes, alternation,
    [?], braces, stacked quantifiers): those are not modelled. *)
Fixpoint compile (p : string) : option regex :=
  match p with
  | EmptyString => Some Eps
  | String c r =>
      if Ascii.eqb c "^" then
        if starts_with_quantifier r then None else option_map (Seq Bol) (compile r)
      else if Ascii.eqb c "$" then
        if starts_with_quantifier r then None else option_map (Seq Eol) (compile r)
      else if negb (Ascii.eqb c ".") && is_special c then None
      else
        let atom := if Ascii.eqb c "." then CAny else CChar c in
        match r with
        | String q r' =>
            if Ascii.eqb q "*" then
              if starts_with_quantifier r' then None
              else option_map (Seq (Rep atom 0 true)) (compile r')
            else if Ascii.eqb q "+" then
              if starts_with_quantifier r' then None
              else option_map (Seq (Rep atom 1 true)) (compile r')
            else if is_quantifier q then None
            else option_map (Seq (Chr atom)) (compile r)
        | EmptyString => Some (Seq (Chr atom) Eps)
        end
  end.

End Re.

(** ** core/parser.py *)

(** A condition of a WHERE clause of SELECT. *)
Inductive cond : Type :=
| CondAnd (conditions : list cond)
| CondOr (conditions : list cond)
| Condition (column operator : string) (value : value).

(** The WHERE record of UPDATE and DELETE: keys [column], [op], [value]. *)
Record simple_where : Type := mk_where {
  where_column : string;
  where_op : string;
  where_value : value
}.

Inductive from_record : Type :=
| FromSimple (table : string)
| FromJoin (join_type left_table right_table left_column right_column : string).

(** An element of the [order_by] list of a parsed SELECT: a string, or the
    bound method [s.lower] of a string (an object that is no string). *)
Inductive order_key : Type :=
| KeyStr (s : string)
| KeyBoundLower (s : string).

(** The command record of the parser, by its [type] tag. *)
Inductive command : Type :=
| CREATE_TABLE (t_name : string) (columns : list Column.t)
| INSERT (t_name : string) (columns : option (list string)) (values : list value)
| SELECT (columns : list string) (from_ : from_record) (where_ : option cond)
         (order_by : option (list order_key))
| UPDATE (t_name : string) (updates : sdict value) (where_ : option simple_where)
| DELETE (t_name : string) (where_ : option simple_where)
| DROP_TABLE (t_name : string).

Module SQLParser.
Import Re.

Definition I : flags := mkflags true false.
Definition I_DOTALL : flags := mkflags true true.

(** [match.group(n)] of a group that the match has set. *)
Definition grp (caps : captures) (n : nat) : string :=
  match group caps n with Some s => s | None => EmptyString end.

Definition quoted (q : ascii) (v : string) : bool :=
  PyStr.startswith v (String q EmptyString) && PyStr.endswith v (String q EmptyString).

(** [^-?\d+$] and [^-?\d+\.\d+$]. *)
Definition int_pattern : regex :=
  seq [Bol; Opt (Chr (CChar "-")); plus CDigit; Eol].
Definition float_pattern : regex :=
  seq [Bol; Opt (Chr (CChar "-")); plus CDigit; Chr (CChar "."); plus CDigit; Eol].

Definition no_flags : flags := mkflags false false.

Definition _parse_value (v : string) : result value :=
  let v := PyStr.strip v in
  if String.eqb (PyStr.upper v) "NULL" then Ok VNone
  else if quoted "'" v || quoted DQUOTE v then Ok (VStr (PyStr.strip_ends v))
  else if String.eqb (PyStr.upper v) "TRUE" then Ok (VBool true)
  else if String.eqb (PyStr.upper v) "FALSE" then Ok (VBool false)
  else match match_ no_flags int_pattern v with
       | Some _ =>
           match PyStr.int_of_str v with
           | Some z => Ok (VInt z)
           | None => Raise (ValueError ("invalid literal for int() with base 10: '" ++ v ++ "'"))
           end
       | None =>
           match match_ no_flags float_pattern v with
           | Some _ => Raise (Unmodelled "float literal")
           | None => Ok (VStr v)
           end
       end.

Fixpoint mapM {A B} (g : A -> result B) (l : list A) : result (list B) :=
  match l with
  | [] => Ok []
  | a :: r => b <- g a ;; bs <- mapM g r ;; Ok (b :: bs)
  end.

(** [(\w+)\s*([=<>!]+|LIKE|IN)\s*(.+)] and the same with [(\w+\.\w+)] first. *)
Definition operator_pattern : regex :=
  Alt (plus (COneOf ["="; "<"; ">"; "!"]%char)) (Alt (lit "LIKE") (lit "IN")).
Definition condition_pattern : regex :=
  seq [Group 1 (plus CWord); star CSpace; Group 2 operator_pattern; star CSpace;
       Group 3 (plus CAny)].
Definition qualified_condition_pattern : regex :=
  seq [Group 1 (seq [plus CWord; Chr (CChar "."); plus CWord]); star CSpace;
       Group 2 operator_pattern; star CSpace; Group 3 (plus CAny)].

Definition _parse_simple_condition (condition : string) : result cond :=
  let found :=
    match match_ I condition_pattern condition with
    | Some caps => Some caps
    | None => match_ I qualified_condition_pattern condition
    end in
  match found with
  | None => Raise (ValueError ("Invalid condition: " ++ condition))
  | Some caps =>
      let column := PyStr.lower (grp caps 1) in
      let operator := PyStr.upper (grp caps 2) in
      let raw_value := PyStr.strip (grp caps 3) in
      value <- _parse_value raw_value ;;
      Ok (Condition column operator value)
  end.

(** [\s+AND\S+] and [\s+OR\s+]. *)
Definition and_pattern : regex := seq [plus CSpace; lit "AND"; plus CNotSpace].
Definition or_pattern : regex := seq [plus CSpace; lit "OR"; plus CSpace].

Definition _parse_where_clause (where_clause : string) : result cond :=
  let where_clause := PyStr.strip where_clause in
  if PyStr.contains (PyStr.upper where_clause) " AND " then
    let parts := Re.split I and_pattern where_clause in
    conditions <- mapM (fun p => _parse_simple_condition (PyStr.strip p)) parts ;;
    Ok (CondAnd conditions)
  else if PyStr.contains (PyStr.upper where_clause) " OR " then
    let parts := Re.split I or_pattern where_clause in
    conditions <- mapM (fun p => _parse_simple_condition (PyStr.strip p)) parts ;;
    Ok (CondOr conditions)
  else _parse_simple_condition where_clause.

(** [(\w+)\s+<join_type>\s+JOIN\s+(\w+)\s+ON\s+(.+)] and
    [(\w+)\.(\w+)\s*=\s*(\w+)\.(\w+)]. *)
Definition join_pattern (join_type : string) : regex :=
  seq [Group 1 (plus CWord); plus CSpace; lit join_type; plus CSpace; lit "JOIN";
       plus CSpace; Group 2 (plus CWord); plus CSpace; lit "ON"; plus CSpace;
       Group 3 (plus CAny)].
Definition on_pattern : regex :=
  seq [Group 1 (plus CWord); Chr (CChar "."); Group 2 (plus CWord); star CSpace;
       Chr (CChar "="); star CSpace; Group 3 (plus CWord); Chr (CChar ".");
       Group 4 (plus CWord)].

Definition _parse_join (from_clause join_type : string) : result from_record :=
  match match_ I_DOTALL (join_pattern join_type) from_clause with
  | None => Raise (ValueError ("Invalid " ++ join_type ++ " JOIN syntax"))
  | Some caps =>
      let left_table := PyStr.lower (grp caps 1) in
      let right_table := PyStr.lower (grp caps 2) in
      let on_clause := PyStr.strip (grp caps 3) in
      match match_ I on_pattern on_clause with
      | None => Raise (ValueError ("Invalid ON clause: " ++ on_clause))
      | Some on_caps =>
          let left_table_ref := PyStr.lower (grp on_caps 1) in
          let left_column := PyStr.lower (grp on_caps 2) in
          let right_table_ref := PyStr.lower (grp on_caps 3) in
          let right_column := PyStr.lower (grp on_caps 4) in
          if negb (String.eqb left_table_ref left_table) then
            Raise (ValueError ("Left table reference mismatch: " ++ left_table_ref
                                 ++ " != " ++ left_table))
          else if negb (String.eqb right_table_ref right_table) then
            Raise (ValueError ("Right table reference mismatch: " ++ right_table_ref
                                 ++ " != " ++ right_table))
          else Ok (FromJoin (PyStr.upper join_type) left_table right_table
                            left_column right_column)
      end
  end.

Definition _parse_from_clause (from_clause : string) : result from_record :=
  let from_clause_upper := PyStr.upper from_clause in
  if PyStr.contains from_clause_upper "INNER JOIN" then _parse_join from_clause "INNER"
  else if PyStr.contains from_clause_upper "LEFT JOIN" then _parse_join from_clause "LEFT"
  else if PyStr.contains from_clause_upper "RIGHT JOIN" then _parse_join from_clause "RIGHT"
  else Ok (FromSimple (PyStr.lower (PyStr.strip from_clause))).

(** [SELECT\s+(.+?)\s+FROM\s+(.+?)(?:\s+WHERE\s+(.+?))?(?:\s+ORDER BY\s+(.+?))?$] *)
Definition select_pattern : regex :=
  seq [lit "SELECT"; plus CSpace; Group 1 (plus_lazy CAny); plus CSpace; lit "FROM";
       plus CSpace; Group 2 (plus_lazy CAny);
       Opt (seq [plus CSpace; lit "WHERE"; plus CSpace; Group 3 (plus_lazy CAny)]);
       Opt (seq [plus CSpace; lit "ORDER BY"; plus CSpace; Group 4 (plus_lazy CAny)]);
       Eol].

Definition nonempty (o : option string) : option string :=
  match o with
  | Some EmptyString => None
  | _ => o
  end.

Definition _parse_select (sql : string) : result command :=
  match match_ I_DOTALL select_pattern sql with
  | None => Raise (ValueError
      "Invalid SELECT syntax. Expected: SELECT col1, col2 FROM table WHERE condition")
  | Some caps =>
      let columns_str := PyStr.strip (grp caps 1) in
      let from_clause := PyStr.strip (grp caps 2) in
      let where_clause := group caps 3 in
      let order_by_clause := group caps 4 in
      let columns :=
        if String.eqb (PyStr.strip columns_str) "*" then ["*"]
        else map (fun col => PyStr.lower (PyStr.strip col)) (PyStr.split "," columns_str) in
      from_parsed <- _parse_from_clause from_clause ;;
      where_ <- match nonempty where_clause with
               | Some w => c <- _parse_where_clause w ;; Ok (Some c)
               | None => Ok None
               end ;;
      let order_by :=
        match nonempty order_by_clause with
        | Some o => Some (map (fun col => KeyBoundLower (PyStr.strip col)) (PyStr.split "," o))
        | None => None
        end in
      Ok (SELECT columns from_parsed where_ order_by)
  end.

(** [CREATE\s+TABLE\s+(\w+)\s*\(G\)] where the group [G] is any text
    (dot, star), [(\w+)\((\d+)\)] and [\((\d+)\)]. *)
Definition create_pattern : regex :=
  seq [lit "CREATE"; plus CSpace; lit "TABLE"; plus CSpace; Group 1 (plus CWord);
       star CSpace; Chr (CChar "("); Group 2 (star CAny); Chr (CChar ")")].
Definition dtype_pattern : regex :=
  seq [Group 1 (plus CWord); Chr (CChar "("); Group 2 (plus CDigit); Chr (CChar ")")].
Definition length_pattern : regex :=
  seq [Chr (CChar "("); Group 1 (plus CDigit); Chr (CChar ")")].

(** The column definitions: the text is cut at the commas met at
    parenthesis depth zero. *)
Fixpoint split_col_defs (columns_def : string) (current : string) (paren_depth : Z)
  : list string :=
  match columns_def with
  | EmptyString =>
      match PyStr.strip current with
      | EmptyString => []
      | c => [c]
      end
  | String char r =>
      if Ascii.eqb char "(" then
        split_col_defs r (current ++ String char EmptyString) (paren_depth + 1)
      else if Ascii.eqb char ")" then
        split_col_defs r (current ++ String char EmptyString) (paren_depth - 1)
      else if Ascii.eqb char "," && Z.eqb paren_depth 0 then
        PyStr.strip current :: split_col_defs r EmptyString paren_depth
      else split_col_defs r (current ++ String char EmptyString) paren_depth
  end.

Definition dtype_map : sdict DataType :=
  [("INT", INTEGER); ("INTEGER", INTEGER); ("VARCHAR", VARCHAR); ("TEXT", VARCHAR);
   ("STRING", VARCHAR); ("BOOL", BOOLEAN); ("BOOLEAN", BOOLEAN); ("DATE", DATE)].

Definition int_group (caps : captures) (n : nat) : option Z :=
  PyStr.int_of_str (grp caps n).

Definition parse_col_def (col_def : string) : result Column.t :=
  let col_def_upper := PyStr.upper col_def in
  let tokens := PyStr.split_ws (PyStr.strip col_def) in
  match tokens with
  | [] | [_] => Raise (IndexError "list index out of range")
  | tok0 :: tok1 :: rest =>
      let col_name := PyStr.lower tok0 in
      let dtype_str := PyStr.upper tok1 in
      let '(dtype_str, length) :=
        if PyStr.has_char "(" dtype_str && PyStr.has_char ")" dtype_str then
          match match_ no_flags dtype_pattern dtype_str with
          | Some caps => (grp caps 1, int_group caps 2)
          | None => (dtype_str, None)
          end
        else if PyStr.has_char "(" tok1 then
          match rest with
          | tok2 :: _ =>
              if PyStr.has_char "(" tok2 then
                match search no_flags length_pattern tok2 with
                | Some caps => (dtype_str, int_group caps 1)
                | None => (dtype_str, None)
                end
              else (dtype_str, None)
          | [] => (dtype_str, None)
          end
        else (dtype_str, None) in
      match sget dtype_map dtype_str with
      | None => Raise (ValueError ("Unsupported data type: " ++ dtype_str))
      | Some dtype =>
          let primary_key := PyStr.contains col_def_upper "PRIMARY KEY" in
          let unique := PyStr.contains col_def_upper "UNIQUE" || primary_key in
          let nullable := negb (PyStr.contains col_def_upper "NOT NULL") in
          Ok (Column.mk col_name dtype length primary_key unique nullable)
      end
  end.

Definition _parse_create_table (sql : string) : result command :=
  match match_ I_DOTALL create_pattern sql with
  | None => Raise (ValueError
      "Invalid CREATE TABLE syntax. Expected: CREATE TABLE name (col1 type, ...)")
  | Some caps =>
      let t_name := PyStr.lower (grp caps 1) in
      let columns_def := PyStr.strip (grp caps 2) in
      let col_defs := split_col_defs columns_def EmptyString 0 in
      let col_defs := filter (fun d => negb (String.eqb (PyStr.strip d) EmptyString)) col_defs in
      columns <- mapM parse_col_def col_defs ;;
      Ok (CREATE_TABLE t_name columns)
  end.

(** The loop of [_parse_values].  [skip] is set when the character at hand
    is the second quote of a doubled quote, which the loop steps over;
    [quote_char] is [None] outside quotes. *)
Fixpoint parse_values_loop (s : string) (skip : bool) (current : string)
    (quote_char : option ascii) : result (list value) :=
  match s with
  | EmptyString =>
      match PyStr.strip current with
      | EmptyString => Ok []
      | c => v <- _parse_value c ;; Ok [v]
      end
  | String char r =>
      if skip then parse_values_loop r false current quote_char
      else
        let is_quote := Ascii.eqb char "'" || Ascii.eqb char DQUOTE in
        let usable :=
          match quote_char with
          | None => true
          | Some q => Ascii.eqb char q
          end in
        if is_quote && usable then
          match r with
          | String next _ =>
              if Ascii.eqb next char then
                parse_values_loop r true
                  (current ++ String char (String char EmptyString)) quote_char
              else
                parse_values_loop r false (current ++ String char EmptyString)
                  (match quote_char with None => Some char | Some _ => None end)
          | EmptyString =>
              parse_values_loop r false (current ++ String char EmptyString)
                (match quote_char with None => Some char | Some _ => None end)
          end
        else if Ascii.eqb char "," && match quote_char with None => true | Some _ => false end
        then
          v <- _parse_value (PyStr.strip current) ;;
          vs <- parse_values_loop r false EmptyString quote_char ;;
          Ok (v :: vs)
        else parse_values_loop r false (current ++ String char EmptyString) quote_char
  end.

Definition _parse_values (values_str : string) : result (list value) :=
  parse_values_loop values_str false EmptyString None.

(** [INSERT\s+INTO\s+(\w+)\s*\(C\)\s*VALUES\s*\(G\)] and
    [INSERT\s+INTO\s+(\w+)\s*VALUES\s*\(G\)], where the group [C] is the
    shortest text (dot, star, question mark) and [G] the longest (dot, star). *)
Definition insert_columns_pattern : regex :=
  seq [lit "INSERT"; plus CSpace; lit "INTO"; plus CSpace; Group 1 (plus CWord);
       star CSpace; Chr (CChar "("); Group 2 (Rep CAny 0 false); Chr (CChar ")");
       star CSpace; lit "VALUES"; star CSpace; Chr (CChar "("); Group 3 (star CAny);
       Chr (CChar ")")].
Definition insert_values_pattern : regex :=
  seq [lit "INSERT"; plus CSpace; lit "INTO"; plus CSpace; Group 1 (plus CWord);
       star CSpace; lit "VALUES"; star CSpace; Chr (CChar "("); Group 2 (star CAny);
       Chr (CChar ")")].

Definition _parse_insert (sql : string) : result command :=
  match match_ I_DOTALL insert_columns_pattern sql with
  | None =>
      match match_ I_DOTALL insert_values_pattern sql with
      | Some caps =>
          let t_name := PyStr.lower (grp caps 1) in
          values <- _parse_values (grp caps 2) ;;
          Ok (INSERT t_name None values)
      | None => Raise (ValueError
          "Invalid INSERT syntax. Expected: INSERT INTO table VALUES (val1, val2) or INSERT INTO table (col1, col2) VALUES (val1, val2)")
      end
  | Some caps =>
      let t_name := PyStr.lower (grp caps 1) in
      let columns := map (fun col => PyStr.lower (PyStr.strip col))
                         (PyStr.split "," (grp caps 2)) in
      values <- _parse_values (grp caps 3) ;;
      if negb (Nat.eqb (List.length columns) (List.length values)) then
        Raise (ValueError ("Column count (" ++ PyStr.str_of_Z (Z.of_nat (List.length columns))
                             ++ ") doesn't match value count ("
                             ++ PyStr.str_of_Z (Z.of_nat (List.length values)) ++ ")"))
      else Ok (INSERT t_name (Some columns) values)
  end.

(** [(\w+)\s*([=<>!]+)\s*(.+)], the WHERE of UPDATE and DELETE. *)
Definition simple_where_pattern : regex :=
  seq [Group 1 (plus CWord); star CSpace;
       Group 2 (plus (COneOf ["="; "<"; ">"; "!"]%char)); star CSpace;
       Group 3 (plus CAny)].

Definition parse_simple_where (where_clause : string) : option (result simple_where) :=
  match match_ I simple_where_pattern where_clause with
  | None => None
  | Some caps =>
      let column := PyStr.lower (grp caps 1) in
      let operator := PyStr.strip (grp caps 2) in
      let raw_value := PyStr.strip (grp caps 3) in
      Some (value <- _parse_value raw_value ;; Ok (mk_where column operator value))
  end.

Fixpoint parse_assignments (assignments : list string) (updates : sdict value)
  : result (sdict value) :=
  match assignments with
  | [] => Ok updates
  | assignment :: rest =>
      if negb (PyStr.has_char "=" assignment) then
        Raise (ValueError ("Invalid assignment: " ++ assignment))
      else
        let (col, value) := PyStr.split_first "=" assignment in
        v <- _parse_value (PyStr.strip value) ;;
        parse_assignments rest (sset updates (PyStr.lower (PyStr.strip col)) v)
  end.

(** [UPDATE\s+(\w+)\s+SET\s+(.+?)\s+WHERE\s+(.+)] *)
Definition update_pattern : regex :=
  seq [lit "UPDATE"; plus CSpace; Group 1 (plus CWord); plus CSpace; lit "SET";
       plus CSpace; Group 2 (plus_lazy CAny); plus CSpace; lit "WHERE"; plus CSpace;
       Group 3 (plus CAny)].

Definition _parse_update (sql : string) : result command :=
  match match_ I_DOTALL update_pattern sql with
  | None => Raise (ValueError
      "Invalid UPDATE syntax. Expected: UPDATE table SET col1 = val1 WHERE condition")
  | Some caps =>
      let t_name := PyStr.lower (grp caps 1) in
      let set_clause := PyStr.strip (grp caps 2) in
      let where_clause := PyStr.strip (grp caps 3) in
      let assignments := map PyStr.strip (PyStr.split "," set_clause) in
      updates <- parse_assignments assignments [] ;;
      match parse_simple_where where_clause with
      | Some w => where_ <- w ;; Ok (UPDATE t_name updates (Some where_))
      | None => Raise (ValueError ("Invalid WHERE clause: " ++ where_clause))
      end
  end.

(** [DELETE\s+FROM\s+(\w+)(?:\s+WHERE\s+(.+))?] *)
Definition delete_pattern : regex :=
  seq [lit "DELETE"; plus CSpace; lit "FROM"; plus CSpace; Group 1 (plus CWord);
       Opt (seq [plus CSpace; lit "WHERE"; plus CSpace; Group 2 (plus CAny)])].

Definition _parse_delete (sql : string) : result command :=
  match match_ I_DOTALL delete_pattern sql with
  | None => Raise (ValueError
      "Invalid DELETE syntax. Expected: DELETE FROM table WHERE condition")
  | Some caps =>
      let t_name := PyStr.lower (grp caps 1) in
      match nonempty (group caps 2) with
      | Some where_clause =>
          match parse_simple_where (PyStr.strip where_clause) with
          | Some w => where_ <- w ;; Ok (DELETE t_name (Some where_))
          | None => Ok (DELETE t_name None)
          end
      | None => Ok (DELETE t_name None)
      end
  end.

(** [DROP\s+TABLE\s+(\w+)] *)
Definition drop_pattern : regex :=
  seq [lit "DROP"; plus CSpace; lit "TABLE"; plus CSpace; Group 1 (plus CWord)].

Definition _parse_drop_table (sql : string) : result command :=
  match match_ I drop_pattern sql with
  | None => Raise (ValueError "Invalid DROP TABLE syntax. Expected: DROP TABLE t_name")
  | Some caps => Ok (DROP_TABLE (PyStr.lower (grp caps 1)))
  end.

Definition parse (sql : string) : result command :=
  let sql := PyStr.strip sql in
  let sql_upper := PyStr.upper sql in
  if PyStr.startswith sql_upper "CREATE TABLE" then _parse_create_table sql
  else if PyStr.startswith sql_upper "INSERT INTO" then _parse_insert sql
  else if PyStr.startswith sql_upper "SELECT" then _parse_select sql
  else if PyStr.startswith sql_upper "UPDATE" then _parse_update sql
  else if PyStr.startswith sql_upper "DELETE FROM" then _parse_delete sql
  else if PyStr.startswith sql_upper "DROP TABLE" then _parse_drop_table sql
  else Raise (ValueError ("Unsupported SQL statement: " ++ sql)).

End SQLParser.

(** ** core/executor.py *)

(** [QueryResult]; [rows] is an [option] so that Python's [None] can be
    told from a list. *)
Module QueryResult.
Record t : Type := mk {
  rows : option (list (sdict value));
  rowcount : nat
}.

(** [__init__]: [self.rows = rows or []]. *)
Definition init (rows : option (list (sdict value))) (rowcount : nat) : t :=
  {| rows := Some (match rows with Some l => l | None => [] end);
     rowcount := rowcount |}.
End QueryResult.

(** A joined record, the dictionary with keys [left] and [right]. *)
Record joined : Type := mk_joined {
  left : option Row.t;
  right : option Row.t
}.

(** The state an executor works on: the files of the database directory
    and the in-memory cache [self.indexes]. *)
Record state : Type := mk_state {
  fs : filesystem;
  indexes : sdict (sdict Index.t)
}.

Module QueryExecutor.

Definition with_fs (st : state) (f : filesystem) : state :=
  {| fs := f; indexes := indexes st |}.
Definition with_indexes (st : state) (ix : sdict (sdict Index.t)) : state :=
  {| fs := fs st; indexes := ix |}.

(** The indexes cached for a table, the empty dictionary when none is. *)
Definition table_indexes (st : state) (t_name : string) : sdict Index.t :=
  match sget (indexes st) t_name with Some d => d | None => [] end.

(** [for index in self.indexes[t_name].values(): index.save(self.storage)],
    under [if t_name in self.indexes]. *)
Definition save_indexes (st : state) (t_name : string) : state :=
  with_fs st (fold_left (fun f ci => Index_save f (snd ci)) (table_indexes st t_name) (fs st)).

(** A loop over the cached indexes of a table that updates each index in
    place, under [if t_name in self.indexes]. *)
Definition update_indexes (g : string -> Index.t -> Index.t) (st : state)
    (t_name : string) : state :=
  match sget (indexes st) t_name with
  | Some d => with_indexes st (sset (indexes st) t_name
                                    (map (fun ci => (fst ci, g (fst ci) (snd ci))) d))
  | None => st
  end.

Definition _create_index (st : state) (t_name column_name : string)
  : result unit * state :=
  let ix := if smem (indexes st) t_name then indexes st
            else sset (indexes st) t_name [] in
  let index := Index.init t_name column_name in
  let st1 := with_indexes st (sset ix t_name (sset (table_indexes (with_indexes st ix) t_name)
                                                    column_name index)) in
  match StorageEngine.read_rows (fs st1) t_name with
  | Raise e => (Raise e, st1)
  | Ok rows =>
      let index :=
        fold_left (fun i row =>
                     match sget (Row.values row) column_name with
                     | Some v => Index.add i v (Row.rowid row)
                     | None => i
                     end) rows index in
      let st2 := with_indexes st1
                   (sset (indexes st1) t_name
                         (sset (table_indexes st1 t_name) column_name index)) in
      (Ok tt, with_fs st2 (Index_save (fs st2) index))
  end.

Fixpoint create_indexes (st : state) (t_name : string) (columns : list Column.t)
  : result unit * state :=
  match columns with
  | [] => (Ok tt, st)
  | column :: rest =>
      if Column.primary_key column || Column.unique column then
        match _create_index st t_name (Column.name column) with
        | (Ok _, st') => create_indexes st' t_name rest
        | (Raise e, st') => (Raise e, st')
        end
      else create_indexes st t_name rest
  end.

Definition _execute_create_table (st : state) (t_name : string)
    (columns : list Column.t) : result QueryResult.t * state :=
  let schema := TableSchema.init t_name columns in
  let st1 := with_fs st (StorageEngine.save_schema (fs st) t_name schema) in
  let st2 := with_fs st1 (sset (fs st1) (StorageEngine.table_path t_name) (TextFile EmptyString)) in
  let st3 := with_indexes st2 (sset (indexes st2) t_name []) in
  match create_indexes st3 t_name columns with
  | (Ok _, st4) => (Ok (QueryResult.init None 0), st4)
  | (Raise e, st4) => (Raise e, st4)
  end.

Definition nat_str (n : nat) : string := PyStr.str_of_Z (Z.of_nat n).

(** The row of an INSERT: positional values are zipped with the columns of
    the schema, listed columns with the values. *)
Definition build_row (schema : TableSchema.t) (columns : option (list string))
    (values : list value) : result (sdict value) :=
  match columns with
  | None =>
      let columns := PyDict.keys (TableSchema.columns schema) in
      if negb (Nat.eqb (List.length values) (List.length columns)) then
        Raise (ValueError ("Expected " ++ nat_str (List.length columns) ++ " values, got "
                             ++ nat_str (List.length values)))
      else Ok (PyDict.of_pairs String.eqb (combine columns values))
  | Some columns => Ok (PyDict.of_pairs String.eqb (combine columns values))
  end.

(** The primary-key check: the value of the first primary-key column of the
    row whose cached index already has that value as a key. *)
Fixpoint duplicate_key (st : state) (t_name : string) (row : sdict value)
    (pk_cols : list string) : option value :=
  match pk_cols with
  | [] => None
  | pk_col :: rest =>
      match sget row pk_col with
      | Some v =>
          match sget (indexes st) t_name with
          | Some d =>
              match sget d pk_col with
              | Some index =>
                  if PyDict.mem PyVal.py_eq (Index.index index) v then Some v
                  else duplicate_key st t_name row rest
              | None => duplicate_key st t_name row rest
              end
          | None => duplicate_key st t_name row rest
          end
      | None => duplicate_key st t_name row rest
      end
  end.

Definition _execute_insert (st : state) (t_name : string)
    (columns : option (list string)) (values : list value)
  : result QueryResult.t * state :=
  match StorageEngine.load_schema (fs st) t_name with
  | Raise e => (Raise e, st)
  | Ok schema =>
      match build_row schema columns values with
      | Raise e => (Raise e, st)
      | Ok row =>
          if negb (TableSchema.validate_row schema row) then
            (Raise (ValueError "Row violates schema constraints"), st)
          else
            match duplicate_key st t_name row (TableSchema.primary_key schema) with
            | Some v =>
                (Raise (ValueError ("Duplicate primary key value: " ++ PyVal.str v)), st)
            | None =>
                match StorageEngine.insert_row (fs st) t_name row with
                | (Raise e, f) => (Raise e, with_fs st f)
                | (Ok rowid, f) =>
                    let st1 := with_fs st f in
                    let st2 :=
                      update_indexes
                        (fun col_name index =>
                           match sget row col_name with
                           | Some v => Index.add index v rowid
                           | None => index
                           end) st1 t_name in
                    (Ok (QueryResult.init None 1), save_indexes st2 t_name)
                end
            end
      end
  end.

(** [all(...)] and [any(...)] over a generator: evaluation stops at the first
    element that decides the answer. *)
Fixpoint all_ {A} (g : A -> result bool) (l : list A) : result bool :=
  match l with
  | [] => Ok true
  | a :: r => b <- g a ;; if b then all_ g r else Ok false
  end.

Fixpoint any_ {A} (g : A -> result bool) (l : list A) : result bool :=
  match l with
  | [] => Ok false
  | a :: r => b <- g a ;; if b then Ok true else any_ g r
  end.

(** [actual is not None and actual <op> expected]. *)
Definition ordered (cmp : value -> value -> result bool) (actual expected : value)
  : result bool :=
  match actual with
  | VNone => Ok false
  | _ => cmp actual expected
  end.

(** The LIKE test: [%] becomes [.*] and the pattern is matched with
    [re.match] under IGNORECASE. *)
Definition like (actual expected : value) : result bool :=
  match actual, expected with
  | VNone, _ | _, VNone => Ok false
  | _, _ =>
      let pattern := PyStr.replace (PyVal.str expected) "%" ".*" in
      match Re.compile pattern with
      | None => Raise (Unmodelled ("regular expression " ++ pattern))
      | Some r =>
          Ok (match Re.match_ (Re.mkflags true false) r (PyVal.str actual) with
              | Some _ => true
              | None => false
              end)
      end
  end.

(** The column a condition reads: a qualified name that is no key of
    [values] is replaced by its second dotted component when that is one. *)
Definition resolve_column (values : sdict value) (col : string) : string :=
  if PyStr.has_char "." col && negb (smem values col) then
    let col_name := nth 1 (PyStr.split "." col) EmptyString in
    if smem values col_name then col_name else col
  else col.

Definition evaluate_leaf (values : sdict value) (col op : string) (expected : value)
  : result bool :=
  let col := resolve_column values col in
  let actual := row_get values col in
  if String.eqb op "=" then Ok (PyVal.py_eq actual expected)
  else if String.eqb op "!=" then Ok (negb (PyVal.py_eq actual expected))
  else if String.eqb op ">" then ordered PyVal.py_gt actual expected
  else if String.eqb op "<" then ordered PyVal.py_lt actual expected
  else if String.eqb op ">=" then ordered PyVal.py_ge actual expected
  else if String.eqb op "<=" then ordered PyVal.py_le actual expected
  else if String.eqb op "LIKE" then like actual expected
  else Raise (ValueError ("Unsupported operator: " ++ op)).

Fixpoint _evaluate_condition (values : sdict value) (condition : cond) : result bool :=
  match condition with
  | CondAnd conditions => all_ (_evaluate_condition values) conditions
  | CondOr conditions => any_ (_evaluate_condition values) conditions
  | Condition col op expected => evaluate_leaf values col op expected
  end.

Fixpoint filterM {A} (g : A -> result bool) (l : list A) : result (list A) :=
  match l with
  | [] => Ok []
  | a :: r =>
      b <- g a ;;
      rest <- filterM g r ;;
      Ok (if b then a :: rest else rest)
  end.

Definition _apply_where_clause (rows : list Row.t) (where_ : option cond)
  : result (list Row.t) :=
  match where_ with
  | None => Ok rows
  | Some w => filterM (fun row => _evaluate_condition (Row.values row) w) rows
  end.

(** The key [sorted] compares: one pair per ORDER BY column, [(1, '')] for a
    missing or [None] value and [(0, str(value).lower())] otherwise. *)
Definition key_get (row : sdict value) (col : order_key) : value :=
  match col with
  | KeyStr c => row_get row c
  | KeyBoundLower _ => VNone
  end.

Definition sort_key (order_by_columns : list order_key) (row : sdict value)
  : list (nat * string) :=
  map (fun col =>
         match key_get row col with
         | VNone => (1, EmptyString)
         | v => (0, PyStr.lower (PyVal.str v))
         end) order_by_columns.

Definition pair_lt (a b : nat * string) : bool :=
  Nat.ltb (fst a) (fst b) || (Nat.eqb (fst a) (fst b) && String.ltb (snd a) (snd b)).

Definition pair_eq (a b : nat * string) : bool :=
  Nat.eqb (fst a) (fst b) && String.eqb (snd a) (snd b).

(** [a < b] on lists of pairs. *)
Fixpoint key_lt (a b : list (nat * string)) : bool :=
  match a, b with
  | [], [] => false
  | [], _ :: _ => true
  | _ :: _, [] => false
  | x :: a', y :: b' => if pair_eq x y then key_lt a' b' else pair_lt x y
  end.

(** [sorted(rows, key=key)]: the stable sort, by insertion from the right. *)
Section Sorted.
Context {A : Type} (key : A -> list (nat * string)).

Fixpoint insert_sorted (x : A) (l : list A) : list A :=
  match l with
  | [] => [x]
  | y :: r => if key_lt (key y) (key x) then y :: insert_sorted x r else x :: y :: r
  end.

Definition sorted (l : list A) : list A := fold_right insert_sorted [] l.
End Sorted.

Definition _apply_order_by (rows : list (sdict value)) (order_by_columns : list order_key)
  : list (sdict value) :=
  match order_by_columns, rows with
  | [], _ | _, [] => rows
  | _, _ => sorted (sort_key order_by_columns) rows
  end.

(** [parsed.get('order_by')] is true for a list that is not empty. *)
Definition order_rows (result_rows : list (sdict value))
    (order_by : option (list order_key)) : list (sdict value) :=
  match order_by with
  | Some (c :: cs) => _apply_order_by result_rows (c :: cs)
  | _ => result_rows
  end.

Definition is_star (selected_columns : list string) : bool :=
  match selected_columns with
  | [c] => String.eqb c "*"
  | _ => false
  end.

Definition project (selected_columns : list string) (row : Row.t) : sdict value :=
  fold_left (fun result_row col => sset result_row col (row_get (Row.values row) col))
            selected_columns [].

Definition _execute_simple_select (st : state) (columns : list string) (table : string)
    (where_ : option cond) (order_by : option (list order_key))
  : result QueryResult.t :=
  schema <- StorageEngine.load_schema (fs st) table ;;
  rows <- StorageEngine.read_rows (fs st) table ;;
  filtered_rows <- _apply_where_clause rows where_ ;;
  let selected_columns :=
    if is_star columns then PyDict.keys (TableSchema.columns schema) else columns in
  let result_rows := map (project selected_columns) filtered_rows in
  let result_rows := order_rows result_rows order_by in
  Ok (QueryResult.init (Some result_rows) (List.length result_rows)).

(** *** Joins *)

(** The hash map of a join: key value to the rows holding it, in order. *)
Definition right_map_add (right_key : string) (right_map : list (value * list Row.t))
    (right_row : Row.t) : list (value * list Row.t) :=
  match row_get (Row.values right_row) right_key with
  | VNone => right_map
  | key_value =>
      let m := if PyDict.mem PyVal.py_eq right_map key_value then right_map
               else PyDict.set PyVal.py_eq right_map key_value [] in
      let l := match PyDict.get PyVal.py_eq m key_value with Some l => l | None => [] end in
      PyDict.set PyVal.py_eq m key_value (l ++ [right_row])
  end.

(** The right rows matching a left row: those under its key value, when
    that value is not [None] and is a key of the map. *)
Definition matches (right_map : list (value * list Row.t)) (left_key : string)
    (left_row : Row.t) : option (list Row.t) :=
  match row_get (Row.values left_row) left_key with
  | VNone => None
  | key_value => PyDict.get PyVal.py_eq right_map key_value
  end.

Definition _perform_inner_join (left_rows right_rows : list Row.t)
    (left_key right_key : string) : list joined :=
  let right_map := fold_left (right_map_add right_key) right_rows [] in
  flat_map (fun left_row =>
              match matches right_map left_key left_row with
              | Some rs => map (fun right_row => mk_joined (Some left_row) (Some right_row)) rs
              | None => []
              end) left_rows.

(** The joined records of the outer joins are objects: [_perform_left_join]
    creates them and [_perform_right_join] updates them where they are.
    A store holds the objects, and a list of joined rows is the list of
    their addresses. *)
Definition store : Type := list joined.

Definition alloc (h : store) (j : joined) : nat * store :=
  (List.length h, h ++ [j]).

Fixpoint assign (h : store) (a : nat) (j : joined) : store :=
  match h, a with
  | [], _ => []
  | _ :: r, O => j :: r
  | x :: r, S a' => x :: assign r a' j
  end.

Definition deref (h : store) (a : nat) : option joined := nth_error h a.

(** The records a list of addresses stands for. *)
Definition view (h : store) (addrs : list nat) : list joined :=
  flat_map (fun a => match deref h a with Some j => [j] | None => [] end) addrs.

Fixpoint build_right_map (right_key : string) (right_rows : list (option Row.t))
    (right_map : list (value * list Row.t)) : result (list (value * list Row.t)) :=
  match right_rows with
  | [] => Ok right_map
  | None :: _ => Raise (AttributeError "'NoneType' object has no attribute 'values'")
  | Some right_row :: rest =>
      build_right_map right_key rest (right_map_add right_key right_map right_row)
  end.

(** [joined_rows.append({...})] for each right row of a match. *)
Fixpoint append_matches (left_row : Row.t) (rs : list Row.t) (h : store)
    (joined_rows : list nat) : list nat * store :=
  match rs with
  | [] => (joined_rows, h)
  | right_row :: rest =>
      let (a, h') := alloc h (mk_joined (Some left_row) (Some right_row)) in
      append_matches left_row rest h' (joined_rows ++ [a])
  end.

Fixpoint left_join_loop (right_map : list (value * list Row.t)) (left_key : string)
    (left_rows : list (option Row.t)) (h : store) (joined_rows : list nat)
  : list nat * store :=
  match left_rows with
  | [] => (joined_rows, h)
  | None :: rest =>
      let (a, h') := alloc h (mk_joined None None) in
      left_join_loop right_map left_key rest h' (joined_rows ++ [a])
  | Some left_row :: rest =>
      match matches right_map left_key left_row with
      | Some rs =>
          let (joined_rows', h') := append_matches left_row rs h joined_rows in
          left_join_loop right_map left_key rest h' joined_rows'
      | None =>
          let (a, h') := alloc h (mk_joined (Some left_row) None) in
          left_join_loop right_map left_key rest h' (joined_rows ++ [a])
      end
  end.

Definition or_empty {A} (l : option (list A)) : list A :=
  match l with Some l => l | None => [] end.

Definition _perform_left_join (h : store) (left_rows right_rows : option (list (option Row.t)))
    (left_key right_key : string) : result (list nat * store) :=
  let left_rows := or_empty left_rows in
  let right_rows := or_empty right_rows in
  right_map <- build_right_map right_key right_rows [] ;;
  Ok (left_join_loop right_map left_key left_rows h []).

Definition swap_sides (j : joined) : joined :=
  {| left := right j; right := left j |}.

(** [for row in joined: row['left'], row['right'] = row['right'], row['left']] *)
Definition swap_in_place (h : store) (addrs : list nat) : store :=
  fold_left (fun h a =>
               match deref h a with
               | Some j => assign h a (swap_sides j)
               | None => h
               end) addrs h.

Definition _perform_right_join (h : store) (left_rows right_rows : option (list (option Row.t)))
    (left_key right_key : string) : result (list nat * store) :=
  let left_rows := or_empty left_rows in
  let right_rows := or_empty right_rows in
  r <- _perform_left_join h (Some right_rows) (Some left_rows) right_key left_key ;;
  let (joined, h') := r in
  Ok (joined, swap_in_place h' joined).

(** The values a WHERE over joined rows is evaluated on. *)
Definition add_side (table : string) (side : option Row.t) (values : sdict value)
  : sdict value :=
  match side with
  | Some row =>
      fold_left (fun values kv =>
                   sset (sset values (table ++ "." ++ fst kv) (snd kv)) (fst kv) (snd kv))
                (Row.values row) values
  | None => values
  end.

Definition joined_values (left_table right_table : string) (joined_row : joined)
  : sdict value :=
  add_side right_table (right joined_row) (add_side left_table (left joined_row) []).

Definition _apply_where_clause_to_joined (joined_rows : list joined)
    (where_ : option cond) (left_table right_table : string) : result (list joined) :=
  match where_ with
  | None => Ok joined_rows
  | Some w =>
      filterM (fun joined_row =>
                 _evaluate_condition (joined_values left_table right_table joined_row) w)
              joined_rows
  end.

(** [row[side].values.get(col)], [None] when the side is [None]. *)
Definition side_get (side : option Row.t) (col : string) : value :=
  match side with
  | Some row => row_get (Row.values row) col
  | None => VNone
  end.

Definition side_has (side : option Row.t) (col : string) : bool :=
  match side with
  | Some row => smem (Row.values row) col
  | None => false
  end.

Definition project_star (left_schema right_schema : TableSchema.t)
    (left_table right_table : string) (row : joined) : sdict value :=
  let result_row :=
    fold_left (fun result_row col =>
                 sset result_row (left_table ++ "." ++ col) (side_get (left row) col))
              (PyDict.keys (TableSchema.columns left_schema)) [] in
  fold_left (fun result_row col =>
               sset result_row (right_table ++ "." ++ col) (side_get (right row) col))
            (PyDict.keys (TableSchema.columns right_schema)) result_row.

Fixpoint project_joined (left_table right_table : string) (selected_columns : list string)
    (row : joined) (result_row : sdict value) : result (sdict value) :=
  match selected_columns with
  | [] => Ok result_row
  | col_spec :: rest =>
      v <- (if PyStr.has_char "." col_spec then
              match PyStr.split "." col_spec with
              | [t_name; col_name] =>
                  if String.eqb t_name left_table then Ok (side_get (left row) col_name)
                  else if String.eqb t_name right_table then Ok (side_get (right row) col_name)
                  else Ok VNone
              | _ => Raise (ValueError "too many values to unpack (expected 2)")
              end
            else if side_has (left row) col_spec then Ok (side_get (left row) col_spec)
            else if side_has (right row) col_spec then Ok (side_get (right row) col_spec)
            else Ok VNone) ;;
      project_joined left_table right_table rest row (sset result_row col_spec v)
  end.

Definition _execute_join_select (st : state) (columns : list string)
    (join_type left_table right_table left_column right_column : string)
    (where_ : option cond) (order_by : option (list order_key))
  : result QueryResult.t :=
  left_schema <- StorageEngine.load_schema (fs st) left_table ;;
  right_schema <- StorageEngine.load_schema (fs st) right_table ;;
  left_rows <- StorageEngine.read_rows (fs st) left_table ;;
  right_rows <- StorageEngine.read_rows (fs st) right_table ;;
  joined_rows <-
    (if String.eqb join_type "INNER" then
       Ok (_perform_inner_join left_rows right_rows left_column right_column)
     else if String.eqb join_type "LEFT" then
       r <- _perform_left_join [] (Some (map Some left_rows)) (Some (map Some right_rows))
                               left_column right_column ;;
       Ok (view (snd r) (fst r))
     else if String.eqb join_type "RIGHT" then
       r <- _perform_right_join [] (Some (map Some left_rows)) (Some (map Some right_rows))
                                left_column right_column ;;
       Ok (view (snd r) (fst r))
     else Raise (ValueError ("Unsupported JOIN type: " ++ join_type))) ;;
  filtered_rows <- _apply_where_clause_to_joined joined_rows where_ left_table right_table ;;
  result_rows <-
    (if is_star columns then
       Ok (map (project_star left_schema right_schema left_table right_table) filtered_rows)
     else
       SQLParser.mapM (fun row => project_joined left_table right_table columns row [])
                      filtered_rows) ;;
  let result_rows := order_rows result_rows order_by in
  Ok (QueryResult.init (Some result_rows) (List.length result_rows)).

Definition _execute_select (st : state) (columns : list string) (from_ : from_record)
    (where_ : option cond) (order_by : option (list order_key))
  : result QueryResult.t :=
  match from_ with
  | FromSimple table => _execute_simple_select st columns table where_ order_by
  | FromJoin join_type left_table right_table left_column right_column =>
      _execute_join_select st columns join_type left_table right_table
                           left_column right_column where_ order_by
  end.

(** *** UPDATE, DELETE and DROP TABLE *)

Definition _rewrite_table (f : filesystem) (t_name : string) (rows : list Row.t)
  : result filesystem :=
  schema <- StorageEngine.load_schema f t_name ;;
  Ok (sset f (StorageEngine.table_path t_name)
           (TextFile (String.concat EmptyString
                        (map (fun row => StorageEngine.encode_line schema (Row.values row)) rows)))).

(** The test UPDATE and DELETE make of their WHERE record: the column is a
    key of the row and its value equals the literal; the operator is not
    looked at.  Without a WHERE every row is taken. *)
Definition where_matches (where_ : option simple_where) (row : Row.t) : bool :=
  match where_ with
  | Some w =>
      match sget (Row.values row) (where_column w) with
      | Some v => PyVal.py_eq v (where_value w)
      | None => false
      end
  | None => true
  end.

(** [index.remove(row.values[col_name], row.rowid)] on every cached index of
    the table whose column is a key of the row; [index.add] likewise. *)
Definition remove_from_indexes (st : state) (t_name : string) (row : Row.t) : state :=
  update_indexes (fun col_name index =>
                    match sget (Row.values row) col_name with
                    | Some v => Index.remove index v (Row.rowid row)
                    | None => index
                    end) st t_name.

Definition add_to_indexes (st : state) (t_name : string) (row : Row.t) : state :=
  update_indexes (fun col_name index =>
                    match sget (Row.values row) col_name with
                    | Some v => Index.add index v (Row.rowid row)
                    | None => index
                    end) st t_name.

Definition apply_updates (updates : sdict value) (row : Row.t) : Row.t :=
  Row.mk (fold_left (fun values cv => sset values (fst cv) (snd cv)) updates (Row.values row))
         (Row.rowid row).

(** The loop of [_execute_update]: the rows as they stand after the loop,
    the number of rows updated and the state of the cache. *)
Fixpoint update_loop (t_name : string) (updates : sdict value)
    (where_ : option simple_where) (rows : list Row.t) (st : state)
  : list Row.t * nat * state :=
  match rows with
  | [] => ([], 0, st)
  | row :: rest =>
      if where_matches where_ row then
        let st1 := remove_from_indexes st t_name row in
        let row' := apply_updates updates row in
        let st2 := add_to_indexes st1 t_name row' in
        let '(rows', n, st3) := update_loop t_name updates where_ rest st2 in
        (row' :: rows', S n, st3)
      else
        let '(rows', n, st3) := update_loop t_name updates where_ rest st in
        (row :: rows', n, st3)
  end.

Definition _execute_update (st : state) (t_name : string) (updates : sdict value)
    (where_ : option simple_where) : result QueryResult.t * state :=
  match StorageEngine.read_rows (fs st) t_name with
  | Raise e => (Raise e, st)
  | Ok rows =>
      let '(rows', updated_count, st1) := update_loop t_name updates where_ rows st in
      match updated_count with
      | O => (Ok (QueryResult.init None updated_count), st1)
      | S _ =>
          match _rewrite_table (fs st1) t_name rows' with
          | Raise e => (Raise e, st1)
          | Ok f =>
              (Ok (QueryResult.init None updated_count),
               save_indexes (with_fs st1 f) t_name)
          end
      end
  end.

(** The loop of [_execute_delete]: the rows kept, the number of rows
    deleted and the state of the cache. *)
Fixpoint delete_loop (t_name : string) (where_ : option simple_where)
    (rows : list Row.t) (st : state) : list Row.t * nat * state :=
  match rows with
  | [] => ([], 0, st)
  | row :: rest =>
      if where_matches where_ row then
        let st1 := remove_from_indexes st t_name row in
        let '(new_rows, n, st2) := delete_loop t_name where_ rest st1 in
        (new_rows, S n, st2)
      else
        let '(new_rows, n, st2) := delete_loop t_name where_ rest st in
        (row :: new_rows, n, st2)
  end.

Definition _execute_delete (st : state) (t_name : string)
    (where_ : option simple_where) : result QueryResult.t * state :=
  match StorageEngine.read_rows (fs st) t_name with
  | Raise e => (Raise e, st)
  | Ok rows =>
      let '(new_rows, deleted_count, st1) := delete_loop t_name where_ rows st in
      match deleted_count with
      | O => (Ok (QueryResult.init None deleted_count), st1)
      | S _ =>
          match _rewrite_table (fs st1) t_name new_rows with
          | Raise e => (Raise e, st1)
          | Ok f =>
              (Ok (QueryResult.init None deleted_count),
               save_indexes (with_fs st1 f) t_name)
          end
      end
  end.

(** [os.remove(path)] under [if os.path.exists(path)]. *)
Definition remove_file (f : filesystem) (path : string) : filesystem :=
  if StorageEngine.exists_ f path then sdel f path else f.

Definition _execute_drop_table (st : state) (t_name : string)
  : result QueryResult.t * state :=
  let f := remove_file (remove_file (fs st) (StorageEngine.table_path t_name))
                       (StorageEngine.schema_path t_name) in
  let st1 := with_fs st f in
  let st2 :=
    match sget (indexes st1) t_name with
    | Some d =>
        let f' := fold_left (fun f col_name => remove_file f (StorageEngine.index_path t_name col_name))
                            (PyDict.keys d) (fs st1) in
        mk_state f' (sdel (indexes st1) t_name)
    | None => st1
    end in
  (Ok (QueryResult.init None 0), st2).

Definition execute (st : state) (parsed : command) : result QueryResult.t * state :=
  match parsed with
  | CREATE_TABLE t_name columns => _execute_create_table st t_name columns
  | INSERT t_name columns values => _execute_insert st t_name columns values
  | SELECT columns from_ where_ order_by =>
      (_execute_select st columns from_ where_ order_by, st)
  | UPDATE t_name updates where_ => _execute_update st t_name updates where_
  | DELETE t_name where_ => _execute_delete st t_name where_
  | DROP_TABLE t_name => _execute_drop_table st t_name
  end.

End QueryExecutor.

(** ** core/database.py *)

Module Database.

(** A database on an empty directory, with an empty cache. *)
Definition init : state := mk_state [] [].

Definition execute (st : state) (sql : string) : result QueryResult.t * state :=
  match SQLParser.parse sql with
  | Raise e => (Raise e, st)
  | Ok parsed => QueryExecutor.execute st parsed
  end.

(** A sequence of statements, each run on the state the previous one left;
    the results are listed in order. *)
Fixpoint run (st : state) (sqls : list string) : list (result QueryResult.t) * state :=
  match sqls with
  | [] => ([], st)
  | sql :: rest =>
      let (r, st1) := execute st sql in
      let (rs, st2) := run st1 rest in
      (r :: rs, st2)
  end.

End Database.

(** * Sample databases and the properties the specification names *)

(** A sample database: one table with a primary key and a NOT NULL column,
    holding one row. *)
Definition members_db : state :=
  snd (Database.run Database.init
         ["CREATE TABLE members (id INT PRIMARY KEY, name VARCHAR(50) NOT NULL)";
          "INSERT INTO members VALUES (1, 'Alice')"]).

(** The agreement of an index with the rows of its table, in the words of
    the specification: every row with a value for the column has its rowid
    in the bucket of that value, and the index holds no rowid of no row. *)
Definition index_agrees (rows : list Row.t) (column : string) (index : Index.t) : Prop :=
  (forall row v,
      In row rows -> sget (Row.values row) column = Some v -> v <> VNone ->
      In (Row.rowid row) (Index.get index v))
  /\ (forall v bucket rowid,
         In (v, bucket) (Index.index index) -> In rowid bucket ->
         exists row, In row rows /\ Row.rowid row = rowid).

(** Two rows are inserted and the first one is deleted. *)
Definition two_rows : list string :=
  ["CREATE TABLE t (id INT PRIMARY KEY)";
   "INSERT INTO t VALUES (10)";
   "INSERT INTO t VALUES (20)"].

Definition delete_first : list string :=
  two_rows ++ ["DELETE FROM t WHERE id = 10"].

(** The index cached for a column, an empty one when there is none. *)
Definition cached_index (st : state) (t_name column : string) : Index.t :=
  match sget (QueryExecutor.table_indexes st t_name) column with
  | Some index => index
  | None => Index.init t_name column
  end.

(** A table whose rows are stored in descending order of [id]. *)
Definition descending : list string :=
  ["CREATE TABLE t (id INT)";
   "INSERT INTO t VALUES (2)";
   "INSERT INTO t VALUES (1)"].

(** A key of ORDER BY that is a bound method. *)
Definition is_bound_method (k : order_key) : Prop :=
  match k with
  | KeyBoundLower _ => True
  | KeyStr _ => False
  end.

(** The records a list of joined rows denotes, as a result. *)
Definition joined_records (r : result (list nat * QueryExecutor.store)) : result (list joined) :=
  r' <- r ;; Ok (QueryExecutor.view (snd r') (fst r')).

(** The RIGHT join in the words of the specification: the LEFT join of the
    swapped inputs, with [left] and [right] exchanged in each record. *)
Definition right_join_spec (h : QueryExecutor.store) (left_rows right_rows : option (list (option Row.t)))
    (left_key right_key : string) : result (list joined) :=
  records <- joined_records
               (QueryExecutor._perform_left_join h right_rows left_rows right_key left_key) ;;
  Ok (map QueryExecutor.swap_sides records).

(** The records the loop of the LEFT join creates, in order. *)
Definition left_join_records (right_map : list (value * list Row.t)) (left_key : string)
    (left_rows : list (option Row.t)) : list joined :=
  flat_map (fun left_row =>
              match left_row with
              | None => [mk_joined None None]
              | Some l =>
                  match QueryExecutor.matches right_map left_key l with
                  | Some rs => map (fun r => mk_joined (Some l) (Some r)) rs
                  | None => [mk_joined (Some l) None]
                  end
              end) left_rows.

(** The commands that return no result set. *)
Definition returns_no_rows (parsed : command) : bool :=
  match parsed with
  | SELECT _ _ _ _ => false
  | _ => true
  end.

(** The number of rows a command affects on a state: none for CREATE TABLE
    and DROP TABLE, one for INSERT, and for UPDATE and DELETE the rows of
    the table that their WHERE record selects. *)
Definition affected_rows (st : state) (parsed : command) : nat :=
  match parsed with
  | CREATE_TABLE _ _ | DROP_TABLE _ | SELECT _ _ _ _ => 0
  | INSERT _ _ _ => 1
  | UPDATE t_name _ where_ | DELETE t_name where_ =>
      match StorageEngine.read_rows (fs st) t_name with
      | Ok rows => List.length (filter (QueryExecutor.where_matches where_) rows)
      | Raise _ => 0
      end
  end.

(** A LIKE pattern of plain text: no character that [re] reads as an
    operator ([%] is none of them). *)
Definition plain_pattern (p : string) : bool :=
  forallb (fun c => negb (Re.is_special c)) (list_ascii_of_string p).

(** [p] is a prefix of [s] up to the case of letters. *)
Definition ci_prefix (p s : string) : bool :=
  PyStr.startswith (PyStr.lower s) (PyStr.lower p).

(** The translation of a LIKE pattern, character by character. *)
Fixpoint translate_like (p : string) : string :=
  match p with
  | EmptyString => EmptyString
  | String c r =>
      if Ascii.eqb c "%" then String "." (String "*" (translate_like r))
      else String c (translate_like r)
  end.

(** The last character of a string. *)
Fixpoint last_char (s : string) : option ascii :=
  match s with
  | EmptyString => None
  | String c r =>
      match last_char r with
      | Some x => Some x
      | None => Some c
      end
  end.

(** The text of the row file of a table, empty when there is none. *)
Definition table_text (st : state) (t_name : string) : string :=
  match sget (fs st) (StorageEngine.table_path t_name) with
  | Some (TextFile c) => c
  | _ => EmptyString
  end.

(** Every column of the schema is nullable. *)
Definition all_nullable (schema : TableSchema.t) : bool :=
  forallb (fun kc => Column.nullable (snd kc)) (TableSchema.columns schema).

(** Equality of sort keys. *)
Fixpoint key_eqb (a b : list (nat * string)) : bool :=
  match a, b with
  | [], [] => true
  | x :: a', y :: b' => QueryExecutor.pair_eq x y && key_eqb a' b'
  | _, _ => false
  end.

(** A list is in ascending order of its keys when no element has a key
    below the key of an element before it. *)
Definition ascending {A} (key : A -> list (nat * string)) (l : list A) : Prop :=
  StronglySorted (fun x y => QueryExecutor.key_lt (key y) (key x) = false) l.

(** A stable rearrangement keeps the elements of equal key in their
    order. *)
Definition stable {A} (key : A -> list (nat * string)) (l l' : list A) : Prop :=
  forall k, filter (fun x => key_eqb (key x) k) l' = filter (fun x => key_eqb (key x) k) l.

(** The keys of a dictionary are pairwise different under [keq]. *)
Fixpoint distinct_keys {K V} (keq : K -> K -> bool) (d : list (K * V)) : Prop :=
  match d with
  | [] => True
  | (k, _) :: r => (forall kv, In kv r -> keq k (fst kv) = false) /\ distinct_keys keq r
  end.

(** A well-formed index: a dictionary with pairwise different keys whose
    buckets are sets (no rowid twice) and are never empty. *)
Definition index_ok (i : Index.t) : Prop :=
  distinct_keys PyVal.py_eq (Index.index i)
  /\ forall v bucket, In (v, bucket) (Index.index i) -> bucket <> [] /\ NoDup bucket.

(** The values a column reads back as they were written: [None] in any
    column, an [int] in an INT column, a [bool] in a BOOLEAN column and, in
    a VARCHAR or DATE column, any string but the text [NULL]. *)
Definition storable (col : Column.t) (v : value) : bool :=
  match v, Column.dtype col with
  | VNone, _ => true
  | VInt _, INTEGER => true
  | VBool _, BOOLEAN => true
  | VStr s, (VARCHAR | DATE) => negb (String.eqb s "NULL")
  | _, _ => false
  end.

(** The number a string of decimal digits denotes, continuing from [acc]. *)
Fixpoint uint_val (acc : Z) (u : Decimal.uint) : Z :=
  match u with
  | Decimal.Nil => acc
  | Decimal.D0 u => uint_val (10 * acc + 0) u
  | Decimal.D1 u => uint_val (10 * acc + 1) u
  | Decimal.D2 u => uint_val (10 * acc + 2) u
  | Decimal.D3 u => uint_val (10 * acc + 3) u
  | Decimal.D4 u => uint_val (10 * acc + 4) u
  | Decimal.D5 u => uint_val (10 * acc + 5) u
  | Decimal.D6 u => uint_val (10 * acc + 6) u
  | Decimal.D7 u => uint_val (10 * acc + 7) u
  | Decimal.D8 u => uint_val (10 * acc + 8) u
  | Decimal.D9 u => uint_val (10 * acc + 9) u
  end.

(** Every character of a string passes a test. *)
Fixpoint all_chars (p : ascii -> bool) (s : string) : bool :=
  match s with
  | EmptyString => true
  | String c r => p c && all_chars p r
  end.

(** A character that ends neither a field nor a line. *)
Definition plain_char (c : ascii) : bool :=
  negb (Ascii.eqb "," c) && negb (Ascii.eqb c CR) && negb (Ascii.eqb c LF).

Definition first_char (s : string) : option ascii :=
  match s with
  | String c _ => Some c
  | EmptyString => None
  end.

Definition not_blank (c : option ascii) : bool :=
  match c with
  | Some c => negb (PyStr.isspace c)
  | None => false
  end.

(** A text that survives a line of the row file: it holds no comma and no
    line break, is not empty, and neither starts nor ends with white
    space. *)
Definition clean_text (s : string) : bool :=
  all_chars plain_char s && not_blank (first_char s) && not_blank (last_char s).

(** The values a line of the row file gives back: those the column can
    store, the strings being clean texts. *)
Definition clean (col : Column.t) (v : value) : bool :=
  storable col v && match v with VStr s => clean_text s | _ => true end.

Definition clean_row (sch : TableSchema.t) (row : sdict value) : bool :=
  forallb (fun kc => clean (snd kc) (row_get row (fst kc))) (TableSchema.columns sch).

(** The row as the row file holds it: one value per column of the schema,
    in the order of the schema, [None] for a column the row has no key
    for. *)
Definition stored_row (sch : TableSchema.t) (row : sdict value) : sdict value :=
  map (fun kc => (fst kc, row_get row (fst kc))) (TableSchema.columns sch).

(** A text whose last line is complete: it is empty or ends with a line
    feed. *)
Definition terminated (c : string) : bool :=
  match last_char c with
  | None => true
  | Some x => Ascii.eqb x LF
  end.

(** The row file of a table is absent or a text whose last line is
    complete. *)
Definition table_terminated (f : filesystem) (t : string) : bool :=
  match sget f (StorageEngine.table_path t) with
  | None => true
  | Some (TextFile c) => terminated c
  | Some _ => false
  end.

(** The condition of a join on a pair of rows: both keys hold a value other
    than [None], and the two values are equal. *)
Definition join_match (left_key right_key : string) (l r : Row.t) : bool :=
  match row_get (Row.values l) left_key, row_get (Row.values r) right_key with
  | VNone, _ => false
  | _, VNone => false
  | a, b => PyVal.py_eq a b
  end.

(** The INNER join as a nested loop: every left row with every right row
    that matches it, in the order of the rows. *)
Definition nested_loop_inner (left_rows right_rows : list Row.t)
    (left_key right_key : string) : list joined :=
  flat_map (fun l => map (fun r => mk_joined (Some l) (Some r))
                         (filter (join_match left_key right_key l) right_rows))
           left_rows.

(** The LEFT join as a nested loop: a left row without a match is kept
    once, with no right row. *)
Definition nested_loop_left (left_rows right_rows : list Row.t)
    (left_key right_key : string) : list joined :=
  flat_map (fun l => match filter (join_match left_key right_key l) right_rows with
                     | [] => [mk_joined (Some l) None]
                     | ms => map (fun r => mk_joined (Some l) (Some r)) ms
                     end)
           left_rows.

(** The rows a hash map of a join holds under a value. *)
Definition rows_under (right_map : list (value * list Row.t)) (v : value) : list Row.t :=
  match PyDict.get PyVal.py_eq right_map v with
  | Some l => l
  | None => []
  end.

(** A right row is filed under a value: its key is not [None] and equals
    the value. *)
Definition filed_under (right_key : string) (v : value) (r : Row.t) : bool :=
  match row_get (Row.values r) right_key with
  | VNone => false
  | k => PyVal.py_eq k v
  end.

(** The index that [_create_index] builds from the rows of a table. *)
Definition built_index (t_name column_name : string) (rows : list Row.t) : Index.t :=
  fold_left (fun i row =>
               match sget (Row.values row) column_name with
               | Some v => Index.add i v (Row.rowid row)
               | None => i
               end) rows (Index.init t_name column_name).

(** A column that CREATE TABLE gives an index: a primary key or a unique
    column. *)
Definition indexed (column : Column.t) : bool :=
  Column.primary_key column || Column.unique column.

(** The error of a statement on a table that has no schema file. *)
Definition no_such_table (t_name : string) : exn :=
  FileNotFoundError ("Table " ++ t_name ++ " does not exist").

(** Rows numbered by their lines: the first one gets [k], the next one
    [k + 1], and so on. *)
Fixpoint renumber (k : nat) (rows : list (sdict value)) : list Row.t :=
  match rows with
  | [] => []
  | r :: rs => Row.mk r k :: renumber (S k) rs
  end.

(** The rows of a table as a rewrite of the row file stores them. *)
Definition stored_rows (sch : TableSchema.t) (rows : list Row.t) : list (sdict value) :=
  map (fun r => stored_row sch (Row.values r)) rows.

Definition clean_rows (sch : TableSchema.t) (rows : list Row.t) : bool :=
  forallb (fun r => clean_row sch (Row.values r)) rows.

(** [SELECT * FROM t]. *)
Definition select_all (t_name : string) : command :=
  SELECT ["*"] (FromSimple t_name) None None.

(** The keyword a command is parsed from. *)
Definition statement_keyword (parsed : command) : string :=
  match parsed with
  | CREATE_TABLE _ _ => "CREATE TABLE"
  | INSERT _ _ _ => "INSERT INTO"
  | SELECT _ _ _ _ => "SELECT"
  | UPDATE _ _ _ => "UPDATE"
  | DELETE _ _ => "DELETE FROM"
  | DROP_TABLE _ => "DROP TABLE"
  end.

(** A command that is no UPDATE without a WHERE record. *)
Definition update_has_where (parsed : command) : bool :=
  match parsed with
  | UPDATE _ _ None => false
  | _ => true
  end.

(** A single comparison, and a condition whose parts are single
    comparisons. *)
Definition is_comparison (c : cond) : bool :=
  match c with
  | Condition _ _ _ => true
  | _ => false
  end.

Definition flat (c : cond) : bool :=
  match c with
  | CondAnd conditions | CondOr conditions => forallb is_comparison conditions
  | Condition _ _ _ => true
  end.


(** * Properties *)

(** ** Dictionaries with string keys *)

Lemma sget_sset_same {V} (d : sdict V) k v : sget (sset d k v) k = Some v.
Proof.
  unfold sget, sset. induction d as [|[k' v'] d IH]; simpl.
  - now rewrite String.eqb_refl.
  - destruct (String.eqb k' k) eqn:E; simpl; rewrite ?E; auto.
Qed.

Lemma sget_sset_other {V} (d : sdict V) k k' v :
  k <> k' -> sget (sset d k v) k' = sget d k'.
Proof.
  intros Hne. unfold sget, sset. induction d as [|[k0 v0] d IH]; simpl.
  - destruct (String.eqb k k') eqn:E; auto. apply String.eqb_eq in E. contradiction.
  - destruct (String.eqb k0 k) eqn:E; simpl.
    + apply String.eqb_eq in E. subst k0.
      destruct (String.eqb k k') eqn:E'; auto.
      apply String.eqb_eq in E'. contradiction.
    + destruct (String.eqb k0 k'); auto.
Qed.

Lemma sget_sdel_same {V} (d : sdict V) k : sget (sdel d k) k = None.
Proof.
  unfold sget, sdel, PyDict.del. induction d as [|[k' v'] d IH]; simpl; auto.
  destruct (String.eqb k' k) eqn:E; simpl; rewrite ?E; auto.
Qed.

Lemma sget_sdel_other {V} (d : sdict V) k k' :
  k <> k' -> sget (sdel d k) k' = sget d k'.
Proof.
  intros Hne. unfold sget, sdel, PyDict.del. induction d as [|[k0 v0] d IH]; simpl; auto.
  destruct (String.eqb k0 k) eqn:E; simpl.
  - apply String.eqb_eq in E. subst k0.
    destruct (String.eqb k k') eqn:E'; auto. apply String.eqb_eq in E'. contradiction.
  - destruct (String.eqb k0 k'); auto.
Qed.

Lemma smem_sget {V} (d : sdict V) k : smem d k = true <-> exists v, sget d k = Some v.
Proof.
  unfold smem, PyDict.mem, sget.
  destruct (PyDict.get String.eqb d k) as [v|]; split; intro H; eauto.
  - discriminate.
  - destruct H as [v H]. discriminate.
Qed.

(** ** INSERT and the primary key (C1) *)

Lemma duplicate_key_found st t_name row pk_cols pk v d index :
  In pk pk_cols ->
  sget row pk = Some v ->
  sget (indexes st) t_name = Some d ->
  sget d pk = Some index ->
  PyDict.mem PyVal.py_eq (Index.index index) v = true ->
  exists v', QueryExecutor.duplicate_key st t_name row pk_cols = Some v'.
Proof.
  intros Hin Hrow Hd Hidx Hmem. induction pk_cols as [|c cs IH]; [contradiction|].
  simpl. destruct Hin as [->|Hin].
  - rewrite Hrow, Hd, Hidx, Hmem. eauto.
  - destruct (sget row c); [|auto]. destruct (sget (indexes st) t_name); [|auto].
    destruct (sget s c); [|auto].
    destruct (PyDict.mem PyVal.py_eq (Index.index t) v0); eauto.
Qed.

(** C1 (as amended).  For a table whose schema loads and whose primary-key
    index is in the executor's cache, an INSERT whose row has a
    primary-key value that is already a key of that index fails and
    leaves the files and the cache as they were; when the row passes
    [validate_row] the failure is the duplicate-primary-key error (a row
    that omits a NOT NULL column is rejected before the key is looked at). *)
Theorem C1_insert_duplicate_primary_key
    st t_name columns values schema row pk v d index :
  StorageEngine.load_schema (fs st) t_name = Ok schema ->
  QueryExecutor.build_row schema columns values = Ok row ->
  In pk (TableSchema.primary_key schema) ->
  sget row pk = Some v ->
  sget (indexes st) t_name = Some d ->
  sget d pk = Some index ->
  PyDict.mem PyVal.py_eq (Index.index index) v = true ->
  exists e,
    QueryExecutor._execute_insert st t_name columns values = (Raise e, st)
    /\ (TableSchema.validate_row schema row = true ->
        exists v', e = ValueError ("Duplicate primary key value: " ++ PyVal.str v')%string)
    /\ (TableSchema.validate_row schema row = false ->
        e = ValueError "Row violates schema constraints").
Proof.
  intros Hschema Hrow Hin Hv Hd Hidx Hmem.
  destruct (duplicate_key_found st t_name row _ pk v d index Hin Hv Hd Hidx Hmem)
    as [v' Hdup].
  unfold QueryExecutor._execute_insert. rewrite Hschema, Hrow.
  destruct (TableSchema.validate_row schema row) eqn:Hvalid; simpl.
  - rewrite Hdup. eexists; split; [reflexivity|]. split; [eauto|discriminate].
  - eexists; split; [reflexivity|]. split; [discriminate|reflexivity].
Qed.

Lemma C1_insert_duplicate_primary_key_witness :
  StorageEngine.load_schema (fs members_db) "members"
    = Ok (TableSchema.init "members"
            [Column.mk "id" INTEGER None true true true;
             Column.mk "name" VARCHAR (Some 50%Z) false false false])
  /\ QueryExecutor.build_row
       (TableSchema.init "members"
          [Column.mk "id" INTEGER None true true true;
           Column.mk "name" VARCHAR (Some 50%Z) false false false])
       None [VInt 1; VStr "Bob"]
     = Ok [("id", VInt 1); ("name", VStr "Bob")]
  /\ sget (indexes members_db) "members"
     = Some [("id", Index.mk "members" "id" [(VInt 1, [1])])]
  /\ PyDict.mem PyVal.py_eq (Index.index (Index.mk "members" "id" [(VInt 1, [1])])) (VInt 1)
     = true
  /\ exists e,
      QueryExecutor._execute_insert members_db "members" None [VInt 1; VStr "Bob"]
        = (Raise e, members_db)
      /\ (TableSchema.validate_row
            (TableSchema.init "members"
               [Column.mk "id" INTEGER None true true true;
                Column.mk "name" VARCHAR (Some 50%Z) false false false])
            [("id", VInt 1); ("name", VStr "Bob")] = true ->
          exists v', e = ValueError ("Duplicate primary key value: " ++ PyVal.str v')%string)
      /\ (TableSchema.validate_row
            (TableSchema.init "members"
               [Column.mk "id" INTEGER None true true true;
                Column.mk "name" VARCHAR (Some 50%Z) false false false])
            [("id", VInt 1); ("name", VStr "Bob")] = false ->
          e = ValueError "Row violates schema constraints").
Proof.
  assert (H1 : StorageEngine.load_schema (fs members_db) "members"
               = Ok (TableSchema.init "members"
                       [Column.mk "id" INTEGER None true true true;
                        Column.mk "name" VARCHAR (Some 50%Z) false false false]))
    by (vm_compute; reflexivity).
  assert (H2 : QueryExecutor.build_row
                 (TableSchema.init "members"
                    [Column.mk "id" INTEGER None true true true;
                     Column.mk "name" VARCHAR (Some 50%Z) false false false])
                 None [VInt 1; VStr "Bob"]
               = Ok [("id", VInt 1); ("name", VStr "Bob")])
    by (vm_compute; reflexivity).
  assert (H3 : sget (indexes members_db) "members"
               = Some [("id", Index.mk "members" "id" [(VInt 1, [1])])])
    by (vm_compute; reflexivity).
  assert (H4 : PyDict.mem PyVal.py_eq
                 (Index.index (Index.mk "members" "id" [(VInt 1, [1])])) (VInt 1) = true)
    by (vm_compute; reflexivity).
  split; [exact H1|]. split; [exact H2|]. split; [exact H3|]. split; [exact H4|].
  apply (C1_insert_duplicate_primary_key members_db "members" None [VInt 1; VStr "Bob"]
           _ _ "id" (VInt 1) [("id", Index.mk "members" "id" [(VInt 1, [1])])]
           (Index.mk "members" "id" [(VInt 1, [1])]) H1 H2).
  - simpl. left. reflexivity.
  - reflexivity.
  - exact H3.
  - reflexivity.
  - exact H4.
Defined.

(** C1 as stated fails: the primary-key index of [members] is cached and
    holds the key 1, yet an INSERT of a row with [id = 1] that omits the
    NOT NULL column [name] fails with the schema-constraint error, not with
    the duplicate-primary-key error. *)
Lemma C1_counterexample :
  (exists d index,
      sget (indexes members_db) "members" = Some d
      /\ sget d "id" = Some index
      /\ PyDict.mem PyVal.py_eq (Index.index index) (VInt 1) = true)
  /\ Database.execute members_db "INSERT INTO members (id) VALUES (1)"
     = (Raise (ValueError "Row violates schema constraints"), members_db)
  /\ ~ (exists v,
          fst (Database.execute members_db "INSERT INTO members (id) VALUES (1)")
          = Raise (ValueError ("Duplicate primary key value: " ++ PyVal.str v)%string)).
Proof.
  split; [|split].
  - exists [("id", Index.mk "members" "id" [(VInt 1, [1])])],
           (Index.mk "members" "id" [(VInt 1, [1])]).
    repeat split; vm_compute; reflexivity.
  - vm_compute. reflexivity.
  - intros [v H]. vm_compute in H. discriminate H.
Qed.

(** ** The indexes after a DELETE (C2) *)

Example index_agrees_before_delete :
  exists rows,
    StorageEngine.read_rows (fs (snd (Database.run Database.init two_rows))) "t" = Ok rows
    /\ index_agrees rows "id" (cached_index (snd (Database.run Database.init two_rows)) "t" "id").
Proof.
  eexists. split; [vm_compute; reflexivity|]. split.
  - intros row v [<-|[<-|[]]] Hv _; vm_compute in Hv; inversion Hv; subst v;
      vm_compute; auto.
  - intros v bucket rowid Hin Hrow. vm_compute in Hin.
    destruct Hin as [Hin|[Hin|[]]]; inversion Hin; subst; destruct Hrow as [<-|[]].
    + exists (Row.mk [("id", VInt 10)] 1). split; [left; reflexivity|reflexivity].
    + exists (Row.mk [("id", VInt 20)] 2). split; [right; left; reflexivity|reflexivity].
Qed.

(** C2 fails on the code.  After two INSERTs and a DELETE of the first
    row, the surviving row is read back with rowid 1 (the rewrite
    renumbers it) while the cached and the saved index still file it under
    rowid 2: the row's rowid is not in its bucket, and the index holds a
    rowid that no row has. *)
Theorem C2_delete_leaves_stale_rowids :
  let st := snd (Database.run Database.init delete_first) in
  fst (Database.run Database.init delete_first)
    = [Ok (QueryResult.mk (Some []) 0); Ok (QueryResult.mk (Some []) 1);
       Ok (QueryResult.mk (Some []) 1); Ok (QueryResult.mk (Some []) 1)]
  /\ StorageEngine.read_rows (fs st) "t" = Ok [Row.mk [("id", VInt 20)] 1]
  /\ Index.index (cached_index st "t" "id") = [(VInt 20, [2])]
  /\ sget (fs st) (StorageEngine.index_path "t" "id") = Some (IndexFile [(VInt 20, [2])])
  /\ ~ In 1 (Index.get (cached_index st "t" "id") (VInt 20))
  /\ ~ index_agrees [Row.mk [("id", VInt 20)] 1] "id" (cached_index st "t" "id").
Proof.
  cbv zeta. repeat split; try (vm_compute; reflexivity).
  - vm_compute. intros [H|[]]. discriminate H.
  - intros [Hrows _].
    specialize (Hrows (Row.mk [("id", VInt 20)] 1) (VInt 20)).
    vm_compute in Hrows.
    destruct Hrows as [H|[]]; auto; discriminate.
Qed.

(** ** Row encoding and decoding (C3) *)

(** C3 fails on the code.  A string with a comma is written with the
    escape, but [read_rows] splits the line at every comma before it
    undoes the escape: the value 'a,b' of a one-column table is stored as
    the line [a\,b] and read back as [a\]. *)
Theorem C3_comma_string_does_not_round_trip :
  let run := Database.run Database.init
               ["CREATE TABLE notes (body VARCHAR(50))";
                "INSERT INTO notes VALUES ('a,b')";
                "SELECT * FROM notes"] in
  SQLParser.parse "INSERT INTO notes VALUES ('a,b')"
    = Ok (INSERT "notes" None [VStr "a,b"])
  /\ sget (fs (snd run)) (StorageEngine.table_path "notes") = Some (TextFile ("a\,b" ++ NL)%string)
  /\ nth 2 (fst run) (Raise (Unmodelled ""))
     = Ok (QueryResult.mk (Some [[("body", VStr "a\")]]) 1)
  /\ VStr "a\" <> VStr "a,b".
Proof.
  cbv zeta. repeat split; try (vm_compute; reflexivity). discriminate.
Qed.

(** ** The WHERE parser (C4) *)

(** C4 fails on the code.  The pattern the parser splits on asks for
    characters that are not spaces right after AND, so [a = 1 AND b = 2] is
    not split: the result is a conjunction of one condition whose value is
    the string [1 AND b = 2]. *)
Theorem C4_and_is_not_split :
  Re.split SQLParser.I SQLParser.and_pattern "a = 1 AND b = 2" = ["a = 1 AND b = 2"]
  /\ SQLParser._parse_where_clause "a = 1 AND b = 2"
     = Ok (CondAnd [Condition "a" "=" (VStr "1 AND b = 2")])
  /\ SQLParser._parse_where_clause "a = 1 AND b = 2"
     <> Ok (CondAnd [Condition "a" "=" (VInt 1); Condition "b" "=" (VInt 2)])
  /\ SQLParser.parse "SELECT * FROM t WHERE a = 1 AND b = 2"
     = Ok (SELECT ["*"] (FromSimple "t")
                  (Some (CondAnd [Condition "a" "=" (VStr "1 AND b = 2")])) None).
Proof.
  repeat split; try (vm_compute; reflexivity). vm_compute. discriminate.
Qed.

(** The sibling branch for OR does split. *)
Example or_is_split :
  SQLParser._parse_where_clause "a = 1 OR b = 2"
  = Ok (CondOr [Condition "a" "=" (VInt 1); Condition "b" "=" (VInt 2)]).
Proof. vm_compute. reflexivity. Qed.

(** ** ORDER BY (C5) *)

Lemma pair_eq_refl x : QueryExecutor.pair_eq x x = true.
Proof.
  unfold QueryExecutor.pair_eq. now rewrite Nat.eqb_refl, String.eqb_refl.
Qed.

Lemma key_lt_irrefl k : QueryExecutor.key_lt k k = false.
Proof.
  induction k as [|x k IH]; simpl; auto. now rewrite pair_eq_refl.
Qed.

Lemma sort_key_bound_methods cols row1 row2 :
  Forall is_bound_method cols ->
  QueryExecutor.sort_key cols row1 = QueryExecutor.sort_key cols row2.
Proof.
  induction 1 as [|k cols Hk _ IH]; simpl; auto.
  destruct k; [contradiction|]. simpl. now rewrite IH.
Qed.

Lemma sorted_constant_key {A} (key : A -> list (nat * string)) (l : list A) :
  (forall x y, key x = key y) -> QueryExecutor.sorted key l = l.
Proof.
  intros Hconst. unfold QueryExecutor.sorted.
  induction l as [|x l IH]; simpl; auto.
  rewrite IH. destruct l as [|y r]; simpl; auto.
  now rewrite (Hconst y x), key_lt_irrefl.
Qed.

(** The keys the parser builds are bound methods, no key of any row: with
    them [_apply_order_by] returns the rows as they are. *)
Lemma apply_order_by_bound_methods rows cols :
  Forall is_bound_method cols -> QueryExecutor._apply_order_by rows cols = rows.
Proof.
  intros Hcols. unfold QueryExecutor._apply_order_by.
  destruct cols as [|c cs]; [reflexivity|]. destruct rows as [|r rs]; [reflexivity|].
  apply sorted_constant_key. intros x y. now apply sort_key_bound_methods.
Qed.

Lemma bound_methods_of_split (l : list string) :
  Forall is_bound_method (map (fun col => KeyBoundLower (PyStr.strip col)) l).
Proof. induction l; simpl; constructor; simpl; auto. Qed.

(** Every ORDER BY list the SELECT parser returns is made of bound
    methods. *)
Lemma parse_select_order_by sql columns from_ where_ keys :
  SQLParser._parse_select sql = Ok (SELECT columns from_ where_ (Some keys)) ->
  Forall is_bound_method keys.
Proof.
  unfold SQLParser._parse_select.
  destruct (Re.match_ SQLParser.I_DOTALL SQLParser.select_pattern sql) as [caps|];
    [|discriminate].
  destruct (SQLParser._parse_from_clause _) as [f|e]; [|discriminate].
  cbn [rbind].
  destruct (match SQLParser.nonempty (Re.group caps 3) with
            | Some w => c <- SQLParser._parse_where_clause w;; Ok (Some c)
            | None => Ok None
            end) as [w|e]; [|discriminate].
  cbn [rbind]. intros H. inversion H as [[Hc Hf Hw Hk]].
  destruct (SQLParser.nonempty (Re.group caps 4)); [|discriminate].
  inversion Hk. apply bound_methods_of_split.
Qed.

Lemma order_rows_bound_methods rows keys :
  Forall is_bound_method keys -> QueryExecutor.order_rows rows (Some keys) = rows.
Proof.
  intros H. unfold QueryExecutor.order_rows. destruct keys as [|k ks]; [reflexivity|].
  now apply apply_order_by_bound_methods.
Qed.

(** Hence the ORDER BY clause of a parsed SELECT has no effect at all: the
    statement returns what it returns without the clause. *)
Lemma parsed_order_by_has_no_effect st sql columns from_ where_ keys :
  SQLParser._parse_select sql = Ok (SELECT columns from_ where_ (Some keys)) ->
  QueryExecutor.execute st (SELECT columns from_ where_ (Some keys))
  = QueryExecutor.execute st (SELECT columns from_ where_ None).
Proof.
  intros H. apply parse_select_order_by in H.
  cbn [QueryExecutor.execute]. f_equal.
  destruct from_ as [table|jt lt rt lc rc]; cbn [QueryExecutor._execute_select].
  - unfold QueryExecutor._execute_simple_select.
    destruct (StorageEngine.load_schema (fs st) table); [|reflexivity]. cbn [rbind].
    destruct (StorageEngine.read_rows (fs st) table); [|reflexivity]. cbn [rbind].
    destruct (QueryExecutor._apply_where_clause _ where_); [|reflexivity]. cbn [rbind].
    now rewrite order_rows_bound_methods.
  - unfold QueryExecutor._execute_join_select.
    destruct (StorageEngine.load_schema (fs st) lt); [|reflexivity]. cbn [rbind].
    destruct (StorageEngine.load_schema (fs st) rt); [|reflexivity]. cbn [rbind].
    destruct (StorageEngine.read_rows (fs st) lt); [|reflexivity]. cbn [rbind].
    destruct (StorageEngine.read_rows (fs st) rt); [|reflexivity]. cbn [rbind].
    match goal with |- rbind ?m _ = _ => destruct m; [|reflexivity] end. cbn [rbind].
    match goal with |- rbind ?m _ = _ => destruct m; [|reflexivity] end. cbn [rbind].
    match goal with |- rbind ?m _ = _ => destruct m; [|reflexivity] end. cbn [rbind].
    now rewrite order_rows_bound_methods.
Qed.

(** *** [sorted] is the stable ascending sort *)

Lemma str_compare_refl a : String.compare a a = Eq.
Proof.
  pose proof (String.compare_antisym a a) as H.
  destruct (String.compare a a); simpl in H; congruence.
Qed.

Lemma ascii_compare_refl a : Ascii.compare a a = Eq.
Proof. unfold Ascii.compare. apply N.compare_refl. Qed.

Lemma ascii_compare_trans a b c :
  Ascii.compare a b = Lt -> Ascii.compare b c = Lt -> Ascii.compare a c = Lt.
Proof.
  unfold Ascii.compare. rewrite !N.compare_lt_iff. apply N.lt_trans.
Qed.

Lemma str_compare_trans a : forall b c,
  String.compare a b = Lt -> String.compare b c = Lt -> String.compare a c = Lt.
Proof.
  induction a as [|x a IH]; intros [|y b] [|z c]; simpl; try discriminate; auto.
  destruct (Ascii.compare x y) eqn:Exy; try discriminate;
    destruct (Ascii.compare y z) eqn:Eyz; try discriminate; intros H1 H2.
  - apply Ascii.compare_eq_iff in Exy, Eyz. subst. rewrite ascii_compare_refl. eauto.
  - apply Ascii.compare_eq_iff in Exy. subst. now rewrite Eyz.
  - apply Ascii.compare_eq_iff in Eyz. subst. now rewrite Exy.
  - now rewrite (ascii_compare_trans x y z).
Qed.

Lemma str_ltb_irrefl a : String.ltb a a = false.
Proof. unfold String.ltb. now rewrite str_compare_refl. Qed.

Lemma str_ltb_trans a b c :
  String.ltb a b = true -> String.ltb b c = true -> String.ltb a c = true.
Proof.
  unfold String.ltb. intros H1 H2.
  destruct (String.compare a b) eqn:E1; try discriminate.
  destruct (String.compare b c) eqn:E2; try discriminate.
  now rewrite (str_compare_trans a b c).
Qed.

Lemma str_trichotomy a b : a = b \/ String.ltb a b = true \/ String.ltb b a = true.
Proof.
  unfold String.ltb. destruct (String.compare a b) eqn:E.
  - left. now apply String.compare_eq_iff.
  - auto.
  - right. right. rewrite String.compare_antisym, E. reflexivity.
Qed.

Lemma pair_eq_iff x y : QueryExecutor.pair_eq x y = true <-> x = y.
Proof.
  destruct x as [i s], y as [j t]. unfold QueryExecutor.pair_eq. simpl.
  rewrite andb_true_iff, Nat.eqb_eq, String.eqb_eq. split.
  - intros [-> ->]. reflexivity.
  - intros H. inversion H. auto.
Qed.

Lemma pair_lt_irrefl x : QueryExecutor.pair_lt x x = false.
Proof.
  destruct x as [i s]. unfold QueryExecutor.pair_lt. simpl.
  now rewrite Nat.ltb_irrefl, Nat.eqb_refl, str_ltb_irrefl.
Qed.

Lemma pair_lt_trans x y z :
  QueryExecutor.pair_lt x y = true -> QueryExecutor.pair_lt y z = true ->
  QueryExecutor.pair_lt x z = true.
Proof.
  destruct x as [i s], y as [j t], z as [k u]. unfold QueryExecutor.pair_lt. simpl.
  rewrite !orb_true_iff, !andb_true_iff, !Nat.ltb_lt, !Nat.eqb_eq.
  intros [H1|[H1 S1]] [H2|[H2 S2]]; subst; auto.
  - left. lia.
  - right. split; auto. now apply (str_ltb_trans s t u).
Qed.

Lemma pair_trichotomy x y :
  x = y \/ QueryExecutor.pair_lt x y = true \/ QueryExecutor.pair_lt y x = true.
Proof.
  destruct x as [i s], y as [j t]. unfold QueryExecutor.pair_lt. simpl.
  rewrite !orb_true_iff, !andb_true_iff, !Nat.ltb_lt, !Nat.eqb_eq.
  destruct (Nat.lt_trichotomy i j) as [H|[H|H]]; auto.
  subst j. destruct (str_trichotomy s t) as [->|[H|H]]; auto.
Qed.

Lemma pair_lt_not_eq x y :
  QueryExecutor.pair_lt x y = true -> QueryExecutor.pair_eq x y = false.
Proof.
  intros H. destruct (QueryExecutor.pair_eq x y) eqn:E; auto.
  apply pair_eq_iff in E. subst. now rewrite pair_lt_irrefl in H.
Qed.

Lemma pair_lt_not_eq_sym x y :
  QueryExecutor.pair_lt x y = true -> QueryExecutor.pair_eq y x = false.
Proof.
  intros H. destruct (QueryExecutor.pair_eq y x) eqn:E; auto.
  apply pair_eq_iff in E. subst. now rewrite pair_lt_irrefl in H.
Qed.

Lemma pair_lt_asym x y :
  QueryExecutor.pair_lt x y = true -> QueryExecutor.pair_lt y x = false.
Proof.
  intros H. destruct (QueryExecutor.pair_lt y x) eqn:E; auto.
  pose proof (pair_lt_trans x y x H E) as F. now rewrite pair_lt_irrefl in F.
Qed.

Lemma key_lt_asym a : forall b,
  QueryExecutor.key_lt a b = true -> QueryExecutor.key_lt b a = false.
Proof.
  induction a as [|x a IH]; intros [|y b]; simpl; auto; try discriminate.
  destruct (QueryExecutor.pair_eq x y) eqn:E.
  - apply pair_eq_iff in E. subst y. rewrite pair_eq_refl. apply IH.
  - intros H. rewrite (pair_lt_not_eq_sym x y H). now apply pair_lt_asym.
Qed.

(** If [a] is below [c], every key is above [a] or below [c]. *)
Lemma key_lt_between a : forall b c,
  QueryExecutor.key_lt a c = true ->
  QueryExecutor.key_lt a b = true \/ QueryExecutor.key_lt b c = true.
Proof.
  induction a as [|x a IH]; intros [|y b] [|z c]; simpl; auto; try discriminate.
  destruct (pair_trichotomy x y) as [<-|[Hxy|Hyx]].
  - rewrite pair_eq_refl. destruct (QueryExecutor.pair_eq x z); auto.
  - rewrite (pair_lt_not_eq x y Hxy). auto.
  - destruct (QueryExecutor.pair_eq x z) eqn:Exz.
    + apply pair_eq_iff in Exz. subst z. intros _. right.
      now rewrite (pair_lt_not_eq y x Hyx).
    + intros Hxz. right.
      pose proof (pair_lt_trans y x z Hyx Hxz) as Hyz.
      now rewrite (pair_lt_not_eq y z Hyz).
Qed.

Lemma key_eqb_eq a : forall b, key_eqb a b = true <-> a = b.
Proof.
  induction a as [|x a IH]; intros [|y b]; simpl; split; intros H;
    try discriminate; auto.
  - apply andb_prop in H. destruct H as [H1 H2].
    apply pair_eq_iff in H1. apply IH in H2. now subst.
  - inversion H. subst. rewrite pair_eq_refl. now apply IH.
Qed.

Section SortedSpec.
Context {A : Type} (key : A -> list (nat * string)).

Lemma insert_sorted_perm x l :
  Permutation (x :: l) (QueryExecutor.insert_sorted key x l).
Proof.
  induction l as [|y l IH]; simpl; auto.
  destruct (QueryExecutor.key_lt (key y) (key x)); auto.
  apply perm_trans with (y :: x :: l); [apply perm_swap|]. now apply perm_skip.
Qed.

Lemma insert_sorted_ascending x l :
  ascending key l -> ascending key (QueryExecutor.insert_sorted key x l).
Proof.
  unfold ascending. induction 1 as [|y l Hl IH Hy]; simpl.
  - repeat constructor.
  - destruct (QueryExecutor.key_lt (key y) (key x)) eqn:E.
    + constructor; auto.
      apply Forall_forall. intros z Hz.
      apply (Permutation_in z (Permutation_sym (insert_sorted_perm x l))) in Hz.
      destruct Hz as [<-|Hz].
      * now apply key_lt_asym.
      * rewrite Forall_forall in Hy. now apply Hy.
    + constructor; [now constructor|].
      constructor; auto.
      apply Forall_forall. intros z Hz. rewrite Forall_forall in Hy.
      specialize (Hy z Hz).
      destruct (QueryExecutor.key_lt (key z) (key x)) eqn:F; auto.
      destruct (key_lt_between (key z) (key y) (key x) F); congruence.
Qed.

Lemma insert_sorted_stable x l k :
  filter (fun z => key_eqb (key z) k) (QueryExecutor.insert_sorted key x l)
  = filter (fun z => key_eqb (key z) k) (x :: l).
Proof.
  induction l as [|y l IH]; simpl; auto.
  destruct (QueryExecutor.key_lt (key y) (key x)) eqn:E; simpl; auto.
  rewrite IH. simpl.
  destruct (key_eqb (key x) k) eqn:Ex; auto.
  destruct (key_eqb (key y) k) eqn:Ey; auto.
  apply key_eqb_eq in Ex, Ey. rewrite Ex, Ey, key_lt_irrefl in E. discriminate.
Qed.

(** [sorted] returns the stable ascending rearrangement of its input. *)
Lemma sorted_spec l :
  Permutation l (QueryExecutor.sorted key l)
  /\ ascending key (QueryExecutor.sorted key l)
  /\ stable key l (QueryExecutor.sorted key l).
Proof.
  unfold QueryExecutor.sorted, stable. induction l as [|x l [IHp [IHa IHs]]]; simpl.
  - repeat split; auto. constructor.
  - split; [|split].
    + apply perm_trans with (x :: fold_right (QueryExecutor.insert_sorted key) [] l).
      * now apply perm_skip.
      * apply insert_sorted_perm.
    + now apply insert_sorted_ascending.
    + intros k. rewrite insert_sorted_stable. simpl. now rewrite IHs.
Qed.
End SortedSpec.

(** Given the names of the columns, [_apply_order_by] is the sort the
    specification describes: a stable rearrangement of the rows, ascending
    in the keys that put a missing value last and compare the others as
    lower-cased strings. *)
Lemma apply_order_by_spec rows cols :
  cols <> [] ->
  Permutation rows (QueryExecutor._apply_order_by rows cols)
  /\ ascending (QueryExecutor.sort_key cols) (QueryExecutor._apply_order_by rows cols)
  /\ stable (QueryExecutor.sort_key cols) rows (QueryExecutor._apply_order_by rows cols).
Proof.
  intros Hcols. unfold QueryExecutor._apply_order_by.
  destruct cols as [|c cs]; [contradiction|].
  destruct rows as [|r rs].
  - repeat split; auto. constructor.
  - apply sorted_spec.
Qed.

(** With the column names themselves the same function does sort. *)
Example apply_order_by_strings :
  QueryExecutor._apply_order_by [[("id", VInt 2)]; [("id", VNone)]; [("id", VInt 1)]]
                                [KeyStr "id"]
  = [[("id", VInt 1)]; [("id", VInt 2)]; [("id", VNone)]].
Proof. vm_compute. reflexivity. Qed.

(** C5 fails on the code.  The parser stores the bound method [lower] of
    each ORDER BY column instead of the lower-cased name, no row has such a
    key, every sort key is the one of a missing value, and the stable sort
    leaves the rows where they were: [SELECT id FROM t ORDER BY id] on the
    rows 2, 1 returns 2, 1. *)
Theorem C5_order_by_returns_rows_unsorted :
  SQLParser.parse "SELECT id FROM t ORDER BY id"
    = Ok (SELECT ["id"] (FromSimple "t") None (Some [KeyBoundLower "id"]))
  /\ fst (Database.execute (snd (Database.run Database.init descending))
                           "SELECT id FROM t ORDER BY id")
     = Ok (QueryResult.mk (Some [[("id", VInt 2)]; [("id", VInt 1)]]) 2)
  /\ fst (Database.execute (snd (Database.run Database.init descending))
                           "SELECT id FROM t ORDER BY id")
     = fst (Database.execute (snd (Database.run Database.init descending))
                             "SELECT id FROM t")
  /\ QueryExecutor._apply_order_by [[("id", VInt 2)]; [("id", VInt 1)]] [KeyStr "id"]
     = [[("id", VInt 1)]; [("id", VInt 2)]].
Proof.
  repeat split; vm_compute; reflexivity.
Qed.

(** ** DROP TABLE (C6) *)

Lemma sget_remove_file f path q :
  sget (QueryExecutor.remove_file f path) q
  = if String.eqb path q then None else sget f q.
Proof.
  unfold QueryExecutor.remove_file, StorageEngine.exists_.
  destruct (String.eqb path q) eqn:E.
  - apply String.eqb_eq in E. subst q.
    destruct (smem f path) eqn:M; [apply sget_sdel_same|].
    unfold smem, PyDict.mem in M. unfold sget.
    destruct (PyDict.get String.eqb f path); [discriminate|reflexivity].
  - apply String.eqb_neq in E.
    destruct (smem f path); [now apply sget_sdel_other|reflexivity].
Qed.

Lemma remove_file_absent f path :
  sget f path = None -> QueryExecutor.remove_file f path = f.
Proof.
  intros H. unfold QueryExecutor.remove_file, StorageEngine.exists_, smem, PyDict.mem.
  unfold sget in H. now rewrite H.
Qed.

Lemma sget_remove_files f (paths : list string) q :
  sget (fold_left QueryExecutor.remove_file paths f) q
  = if existsb (fun path => String.eqb path q) paths then None else sget f q.
Proof.
  revert f. induction paths as [|path paths IH]; intros f; simpl; auto.
  rewrite IH, sget_remove_file.
  destruct (String.eqb path q); simpl; auto.
  now destruct (existsb (fun path0 => String.eqb path0 q) paths).
Qed.

Lemma sget_remove_files_absent f (paths : list string) q :
  sget f q = None -> sget (fold_left QueryExecutor.remove_file paths f) q = None.
Proof.
  intros H. rewrite sget_remove_files, H.
  now destruct (existsb (fun path => String.eqb path q) paths).
Qed.

Lemma fold_left_remove_map {A} (g : A -> string) (l : list A) f :
  fold_left (fun f a => QueryExecutor.remove_file f (g a)) l f
  = fold_left QueryExecutor.remove_file (map g l) f.
Proof.
  revert f. induction l as [|a l IH]; intros f; simpl; auto.
Qed.

Lemma smem_in_keys {V} (d : sdict V) k : smem d k = true -> In k (PyDict.keys d).
Proof.
  unfold smem, PyDict.mem, PyDict.keys.
  induction d as [|[k' v] d IH]; simpl; [discriminate|].
  destruct (String.eqb k' k) eqn:E.
  - apply String.eqb_eq in E. auto.
  - auto.
Qed.

Lemma with_fs_same st : QueryExecutor.with_fs st (fs st) = st.
Proof. now destruct st. Qed.

Lemma drop_table_fs st t_name :
  fs (snd (QueryExecutor._execute_drop_table st t_name))
  = fold_left QueryExecutor.remove_file
      (map (StorageEngine.index_path t_name) (PyDict.keys (QueryExecutor.table_indexes st t_name)))
      (QueryExecutor.remove_file
         (QueryExecutor.remove_file (fs st) (StorageEngine.table_path t_name))
         (StorageEngine.schema_path t_name)).
Proof.
  unfold QueryExecutor._execute_drop_table, QueryExecutor.table_indexes.
  cbn [snd QueryExecutor.with_fs indexes fs].
  destruct (sget (indexes st) t_name) as [d|]; cbn [fs map PyDict.keys fold_left].
  - apply fold_left_remove_map.
  - reflexivity.
Qed.

Lemma drop_table_cache st t_name :
  sget (indexes (snd (QueryExecutor._execute_drop_table st t_name))) t_name = None.
Proof.
  unfold QueryExecutor._execute_drop_table.
  cbn [snd QueryExecutor.with_fs indexes fs].
  destruct (sget (indexes st) t_name) as [d|] eqn:E; cbn [indexes].
  - apply sget_sdel_same.
  - exact E.
Qed.

Lemma drop_table_result st t_name :
  fst (QueryExecutor._execute_drop_table st t_name) = Ok (QueryResult.mk (Some []) 0).
Proof. reflexivity. Qed.

(** C6 (as amended).  The first DROP TABLE removes the row file, the schema
    file, the index file of every column cached for the table and the cache
    entry; the second DROP TABLE succeeds with rowcount 0 and changes
    nothing. *)
Theorem C6_drop_table_twice st t_name :
  let first := QueryExecutor.execute st (DROP_TABLE t_name) in
  let second := QueryExecutor.execute (snd first) (DROP_TABLE t_name) in
  fst first = Ok (QueryResult.mk (Some []) 0)
  /\ sget (fs (snd first)) (StorageEngine.table_path t_name) = None
  /\ sget (fs (snd first)) (StorageEngine.schema_path t_name) = None
  /\ (forall column,
         smem (QueryExecutor.table_indexes st t_name) column = true ->
         sget (fs (snd first)) (StorageEngine.index_path t_name column) = None)
  /\ sget (indexes (snd first)) t_name = None
  /\ fst second = Ok (QueryResult.mk (Some []) 0)
  /\ snd second = snd first.
Proof.
  cbv zeta. cbn [QueryExecutor.execute].
  assert (Htbl : sget (fs (snd (QueryExecutor._execute_drop_table st t_name)))
                      (StorageEngine.table_path t_name) = None).
  { rewrite drop_table_fs. apply sget_remove_files_absent.
    rewrite !sget_remove_file, String.eqb_refl.
    now destruct (String.eqb (StorageEngine.schema_path t_name) (StorageEngine.table_path t_name)). }
  assert (Hsch : sget (fs (snd (QueryExecutor._execute_drop_table st t_name)))
                      (StorageEngine.schema_path t_name) = None).
  { rewrite drop_table_fs. apply sget_remove_files_absent.
    now rewrite sget_remove_file, String.eqb_refl. }
  assert (Hcache := drop_table_cache st t_name).
  repeat split; auto.
  - intros column Hmem. rewrite drop_table_fs, sget_remove_files.
    assert (E : existsb (fun path => String.eqb path (StorageEngine.index_path t_name column))
                        (map (StorageEngine.index_path t_name)
                             (PyDict.keys (QueryExecutor.table_indexes st t_name))) = true).
    { apply existsb_exists. exists (StorageEngine.index_path t_name column). split.
      - apply in_map. now apply smem_in_keys.
      - apply String.eqb_refl. }
    now rewrite E.
  - set (st1 := snd (QueryExecutor._execute_drop_table st t_name)) in *.
    unfold QueryExecutor._execute_drop_table.
    cbn [snd QueryExecutor.with_fs indexes fs]. rewrite Hcache.
    rewrite (remove_file_absent (fs st1) _ Htbl), (remove_file_absent (fs st1) _ Hsch).
    apply with_fs_same.
Qed.

(** C6 as stated fails: the second DROP TABLE of a table that was created
    and dropped is no error; it succeeds with rowcount 0. *)
Lemma C6_counterexample :
  nth 2 (fst (Database.run Database.init
                ["CREATE TABLE t (id INT PRIMARY KEY)"; "DROP TABLE t"; "DROP TABLE t"]))
        (Raise (Unmodelled ""))
  = Ok (QueryResult.mk (Some []) 0)
  /\ ~ (exists e,
          nth 2 (fst (Database.run Database.init
                        ["CREATE TABLE t (id INT PRIMARY KEY)"; "DROP TABLE t";
                         "DROP TABLE t"]))
              (Raise (Unmodelled ""))
          = Raise e).
Proof.
  split; [vm_compute; reflexivity|]. intros [e H]. vm_compute in H. discriminate H.
Qed.

(** ** The RIGHT join (C7) *)

Lemma append_matches_spec left_row rs h joined_rows :
  QueryExecutor.append_matches left_row rs h joined_rows
  = (joined_rows ++ seq (List.length h) (List.length rs),
     h ++ map (fun r => mk_joined (Some left_row) (Some r)) rs).
Proof.
  revert h joined_rows. induction rs as [|r rs IH]; intros h joined_rows; simpl.
  - now rewrite !app_nil_r.
  - rewrite IH, length_app. simpl. rewrite Nat.add_1_r, <- !app_assoc. reflexivity.
Qed.

Lemma left_join_loop_spec right_map left_key left_rows h joined_rows :
  QueryExecutor.left_join_loop right_map left_key left_rows h joined_rows
  = (joined_rows ++ seq (List.length h)
                        (List.length (left_join_records right_map left_key left_rows)),
     h ++ left_join_records right_map left_key left_rows).
Proof.
  revert h joined_rows.
  induction left_rows as [|[l|] left_rows IH]; intros h joined_rows; simpl.
  - now rewrite !app_nil_r.
  - destruct (QueryExecutor.matches right_map left_key l) as [rs|].
    + rewrite append_matches_spec, IH.
      rewrite !length_app, length_map, seq_app, <- !app_assoc. reflexivity.
    + rewrite IH, length_app. simpl. rewrite Nat.add_1_r, <- !app_assoc. reflexivity.
  - rewrite IH, length_app. simpl. rewrite Nat.add_1_r, <- !app_assoc. reflexivity.
Qed.

Lemma deref_fresh (h : QueryExecutor.store) j rest :
  QueryExecutor.deref (h ++ j :: rest) (List.length h) = Some j.
Proof.
  unfold QueryExecutor.deref. induction h as [|x h IH]; simpl; auto.
Qed.

Lemma assign_fresh (h : QueryExecutor.store) j j' rest :
  QueryExecutor.assign (h ++ j :: rest) (List.length h) j' = h ++ j' :: rest.
Proof.
  induction h as [|x h IH]; simpl; auto. now rewrite IH.
Qed.

(** The records built by the join are distinct objects, so the loop that
    swaps in place swaps each of them once. *)
Lemma swap_in_place_fresh (h : QueryExecutor.store) records :
  QueryExecutor.swap_in_place (h ++ records) (seq (List.length h) (List.length records))
  = h ++ map QueryExecutor.swap_sides records.
Proof.
  unfold QueryExecutor.swap_in_place. revert h.
  induction records as [|j records IH]; intros h; simpl; auto.
  rewrite deref_fresh, assign_fresh.
  replace (h ++ QueryExecutor.swap_sides j :: records)
    with ((h ++ [QueryExecutor.swap_sides j]) ++ records) by now rewrite <- app_assoc.
  replace (S (List.length h)) with (List.length (h ++ [QueryExecutor.swap_sides j]))
    by (rewrite length_app; simpl; lia).
  rewrite IH, <- app_assoc. reflexivity.
Qed.

Lemma view_fresh (h : QueryExecutor.store) records :
  QueryExecutor.view (h ++ records) (seq (List.length h) (List.length records)) = records.
Proof.
  unfold QueryExecutor.view. revert h.
  induction records as [|j records IH]; intros h; simpl; auto.
  rewrite deref_fresh. simpl. f_equal.
  replace (h ++ j :: records) with ((h ++ [j]) ++ records) by now rewrite <- app_assoc.
  replace (S (List.length h)) with (List.length (h ++ [j]))
    by (rewrite length_app; simpl; lia).
  apply IH.
Qed.

(** C7.  For all lists of left and right rows (a missing list and a
    missing row included), all key columns and any store of older records,
    the records of [_perform_right_join(L, R, lk, rk)] are those of
    [_perform_left_join(R, L, rk, lk)] with [left] and [right] exchanged, in
    the same order; when the one raises, so does the other, with the same
    exception. *)
Theorem C7_right_join_is_swapped_left_join h left_rows right_rows left_key right_key :
  joined_records (QueryExecutor._perform_right_join h left_rows right_rows left_key right_key)
  = right_join_spec h left_rows right_rows left_key right_key.
Proof.
  unfold right_join_spec, joined_records, QueryExecutor._perform_right_join,
    QueryExecutor._perform_left_join.
  cbn [QueryExecutor.or_empty].
  destruct (QueryExecutor.build_right_map left_key (QueryExecutor.or_empty left_rows) [])
    as [right_map|e]; cbn [rbind]; [|reflexivity].
  rewrite left_join_loop_spec. cbn [fst snd app].
  rewrite swap_in_place_fresh. cbn [rbind fst snd]. f_equal.
  rewrite view_fresh.
  rewrite <- (length_map QueryExecutor.swap_sides
                (left_join_records right_map right_key (QueryExecutor.or_empty right_rows))).
  apply view_fresh.
Qed.

(** ** The result of the commands without a result set (C8) *)

Lemma update_loop_count t_name updates where_ rows st :
  snd (fst (QueryExecutor.update_loop t_name updates where_ rows st))
  = List.length (filter (QueryExecutor.where_matches where_) rows).
Proof.
  revert st. induction rows as [|row rows IH]; intros st; simpl; auto.
  destruct (QueryExecutor.where_matches where_ row).
  - specialize (IH (QueryExecutor.add_to_indexes
                      (QueryExecutor.remove_from_indexes st t_name row) t_name
                      (QueryExecutor.apply_updates updates row))).
    destruct (QueryExecutor.update_loop t_name updates where_ rows _) as [[rows' n] st3].
    simpl in *. now rewrite IH.
  - specialize (IH st).
    destruct (QueryExecutor.update_loop t_name updates where_ rows st) as [[rows' n] st3].
    simpl in *. exact IH.
Qed.

Lemma delete_loop_count t_name where_ rows st :
  snd (fst (QueryExecutor.delete_loop t_name where_ rows st))
  = List.length (filter (QueryExecutor.where_matches where_) rows).
Proof.
  revert st. induction rows as [|row rows IH]; intros st; simpl; auto.
  destruct (QueryExecutor.where_matches where_ row).
  - specialize (IH (QueryExecutor.remove_from_indexes st t_name row)).
    destruct (QueryExecutor.delete_loop t_name where_ rows _) as [[rows' n] st3].
    simpl in *. now rewrite IH.
  - specialize (IH st).
    destruct (QueryExecutor.delete_loop t_name where_ rows st) as [[rows' n] st3].
    simpl in *. exact IH.
Qed.

(** C8 (as amended).  For every command that returns no result set (CREATE
    TABLE, INSERT, UPDATE, DELETE, DROP TABLE), the result of a successful
    [execute] has the empty list as [rows] (never [None]) and the number of
    affected rows as [rowcount]. *)
Theorem C8_result_of_commands_without_rows st parsed r st' :
  returns_no_rows parsed = true ->
  QueryExecutor.execute st parsed = (Ok r, st') ->
  QueryResult.rows r = Some [] /\ QueryResult.rowcount r = affected_rows st parsed.
Proof.
  intros Hkind Hexec. destruct parsed as [t cols|t cols vals|cols from_ w o|t ups w|t w|t];
    try discriminate Hkind; cbn [QueryExecutor.execute affected_rows] in *.
  - unfold QueryExecutor._execute_create_table in Hexec.
    destruct (QueryExecutor.create_indexes _ t cols) as [[u|e] st4];
      inversion Hexec; subst; auto.
  - unfold QueryExecutor._execute_insert in Hexec.
    destruct (StorageEngine.load_schema (fs st) t) as [schema|e]; [|discriminate].
    destruct (QueryExecutor.build_row schema cols vals) as [row|e]; [|discriminate].
    destruct (negb (TableSchema.validate_row schema row)); [discriminate|].
    destruct (QueryExecutor.duplicate_key st t row _); [discriminate|].
    destruct (StorageEngine.insert_row (fs st) t row) as [[rowid|e] f]; [|discriminate].
    inversion Hexec; subst; auto.
  - unfold QueryExecutor._execute_update in Hexec.
    destruct (StorageEngine.read_rows (fs st) t) as [rows|e]; [|discriminate].
    pose proof (update_loop_count t ups w rows st) as Hcount.
    destruct (QueryExecutor.update_loop t ups w rows st) as [[rows' n] st1].
    simpl in Hcount. subst n.
    destruct (List.length (filter (QueryExecutor.where_matches w) rows)) as [|n] eqn:En.
    + inversion Hexec; subst; auto.
    + destruct (QueryExecutor._rewrite_table (fs st1) t rows'); [|discriminate].
      inversion Hexec; subst; auto.
  - unfold QueryExecutor._execute_delete in Hexec.
    destruct (StorageEngine.read_rows (fs st) t) as [rows|e]; [|discriminate].
    pose proof (delete_loop_count t w rows st) as Hcount.
    destruct (QueryExecutor.delete_loop t w rows st) as [[rows' n] st1].
    simpl in Hcount. subst n.
    destruct (List.length (filter (QueryExecutor.where_matches w) rows)) as [|n] eqn:En.
    + inversion Hexec; subst; auto.
    + destruct (QueryExecutor._rewrite_table (fs st1) t rows'); [|discriminate].
      inversion Hexec; subst; auto.
  - inversion Hexec; subst; auto.
Qed.

Lemma C8_result_of_commands_without_rows_witness :
  returns_no_rows (DELETE "t" (Some (mk_where "id" "=" (VInt 10)))) = true
  /\ QueryExecutor.execute (snd (Database.run Database.init two_rows))
                           (DELETE "t" (Some (mk_where "id" "=" (VInt 10))))
     = (Ok (QueryResult.mk (Some []) 1), snd (Database.run Database.init delete_first))
  /\ QueryResult.rows (QueryResult.mk (Some []) 1) = Some []
  /\ QueryResult.rowcount (QueryResult.mk (Some []) 1)
     = affected_rows (snd (Database.run Database.init two_rows))
                     (DELETE "t" (Some (mk_where "id" "=" (VInt 10)))).
Proof.
  split; [reflexivity|]. split; [vm_compute; reflexivity|].
  apply (C8_result_of_commands_without_rows
           (snd (Database.run Database.init two_rows))
           (DELETE "t" (Some (mk_where "id" "=" (VInt 10))))
           (QueryResult.mk (Some []) 1)
           (snd (Database.run Database.init delete_first))).
  - reflexivity.
  - vm_compute. reflexivity.
Defined.

(** C8 as stated fails: the result of an INSERT has the empty list as
    [rows], not [None]. *)
Lemma C8_counterexample :
  fst (Database.execute members_db "INSERT INTO members VALUES (2, 'Bob')")
  = Ok (QueryResult.mk (Some []) 1)
  /\ ~ (exists r,
          fst (Database.execute members_db "INSERT INTO members VALUES (2, 'Bob')") = Ok r
          /\ QueryResult.rows r = None).
Proof.
  split; [vm_compute; reflexivity|].
  intros [r [H Hrows]]. vm_compute in H. inversion H. subst r. discriminate Hrows.
Qed.

(** ** LIKE (C9) *)

Lemma startswith_empty s : PyStr.startswith s "" = true.
Proof. now destruct s. Qed.

Lemma replace_percent p : PyStr.replace p "%" ".*" = translate_like p.
Proof.
  unfold PyStr.replace. induction p as [|c p IH]; [reflexivity|].
  cbn [PyStr.replace_from PyStr.startswith String.length Nat.sub String.append
       translate_like].
  rewrite startswith_empty, andb_true_r, IH, Ascii.eqb_sym.
  destruct (Ascii.eqb c "%"); reflexivity.
Qed.

Lemma not_special c :
  Re.is_special c = false ->
  Ascii.eqb c "." = false /\ Ascii.eqb c "^" = false /\ Ascii.eqb c "$" = false
  /\ Re.is_quantifier c = false.
Proof.
  unfold Re.is_special, Re.is_quantifier. simpl. intros H.
  repeat (apply orb_false_elim in H; destruct H as [? H]).
  repeat split; auto. now repeat (apply orb_false_intro; auto).
Qed.

Lemma not_quantifier c :
  Re.is_quantifier c = false -> Ascii.eqb c "*" = false /\ Ascii.eqb c "+" = false.
Proof.
  unfold Re.is_quantifier. simpl. intros H.
  repeat (apply orb_false_elim in H; destruct H as [? H]). auto.
Qed.

Lemma translate_like_head p :
  plain_pattern p = true -> Re.starts_with_quantifier (translate_like p) = false.
Proof.
  destruct p as [|c p]; simpl; auto. unfold plain_pattern. simpl.
  intros H. apply andb_prop in H. destruct H as [H _].
  apply negb_true_iff in H. destruct (Ascii.eqb c "%"); simpl; [reflexivity|].
  now apply not_special in H.
Qed.

Lemma rep_zero_succeeds {R} f cl pos s caps (k : @Re.cont R) :
  k pos s caps <> None -> Re.rep f cl 0 true pos s caps k <> None.
Proof.
  intros Hk. destruct s as [|c s]; simpl; auto.
  destruct (Re.class_matches f cl c); auto.
  destruct (Re.rep f cl 0 true (S pos) s caps k); [discriminate|auto].
Qed.

Lemma percent_is_no_newline c :
  Ascii.eqb (PyStr.lower_char "%") (PyStr.lower_char c) = true -> Ascii.eqb c LF = false.
Proof.
  intros H. destruct (Ascii.eqb c LF) eqn:E; auto.
  apply Ascii.eqb_eq in E. subst c. vm_compute in H. discriminate H.
Qed.

(** A plain pattern compiles, and it matches every text that it is a
    prefix of up to case, whatever follows the match. *)
Lemma plain_pattern_matches_prefix {R} p :
  plain_pattern p = true ->
  exists r,
    Re.compile (translate_like p) = Some r
    /\ forall s pos caps (k : @Re.cont R),
        ci_prefix p s = true ->
        (forall pos' s' caps', k pos' s' caps' <> None) ->
        Re.run (Re.mkflags true false) r pos s caps k <> None.
Proof.
  induction p as [|c p IH]; intros Hplain.
  - exists Re.Eps. split; [reflexivity|]. intros s pos caps k _ Hk. apply Hk.
  - assert (Hp : plain_pattern p = true).
    { unfold plain_pattern in *. simpl in Hplain. now apply andb_prop in Hplain. }
    assert (Hc : Re.is_special c = false).
    { unfold plain_pattern in Hplain. simpl in Hplain. apply andb_prop in Hplain.
      now apply negb_true_iff. }
    destruct (IH Hp) as [r [Hr Hrun]].
    pose proof (translate_like_head p Hp) as Hhead.
    simpl translate_like. destruct (Ascii.eqb c "%") eqn:Epct.
    + apply Ascii.eqb_eq in Epct. subst c.
      exists (Re.Seq (Re.Rep Re.CAny 0 true) r). split.
      * cbn -[translate_like]. rewrite Hhead, Hr. reflexivity.
      * intros s pos caps k Hpre Hk. unfold ci_prefix in Hpre.
        destruct s as [|c' s]; [discriminate Hpre|].
        simpl in Hpre. apply andb_prop in Hpre. destruct Hpre as [Hhd Htl].
        cbn [Re.run Re.rep]. unfold Re.class_matches. cbn [Re.dotall orb].
        rewrite (percent_is_no_newline c' Hhd). cbn [negb Nat.pred].
        assert (Hnext : Re.rep (Re.mkflags true false) Re.CAny 0 true (S pos) s caps
                          (fun pos' s' caps' =>
                             Re.run (Re.mkflags true false) r pos' s' caps' k) <> None).
        { apply rep_zero_succeeds. now apply Hrun. }
        destruct (Re.rep (Re.mkflags true false) Re.CAny 0 true (S pos) s caps _);
          [discriminate|contradiction].
    + destruct (not_special c Hc) as [Hdot [Hhat [Hdollar Hq]]].
      exists (Re.Seq (Re.Chr (Re.CChar c)) r). split.
      * cbn [Re.compile]. rewrite Hhat, Hdollar, Hdot, Hc. cbn [negb andb].
        destruct (translate_like p) as [|q rest] eqn:Et.
        { simpl in Hr. inversion Hr. reflexivity. }
        simpl in Hhead. destruct (not_quantifier q Hhead) as [Hstar Hplus].
        rewrite Hstar, Hplus, Hhead, Hr. reflexivity.
      * intros s pos caps k Hpre Hk. unfold ci_prefix in Hpre.
        destruct s as [|c' s]; [discriminate Hpre|].
        simpl in Hpre. apply andb_prop in Hpre. destruct Hpre as [Hhd Htl].
        cbn [Re.run]. unfold Re.class_matches, Re.char_eq. cbn [Re.ignorecase].
        rewrite Hhd. now apply Hrun.
Qed.

Lemma evaluate_like values col expected :
  QueryExecutor._evaluate_condition values (Condition col "LIKE" expected)
  = QueryExecutor.like (row_get values (QueryExecutor.resolve_column values col)) expected.
Proof. reflexivity. Qed.

Lemma resolve_column_present values col :
  smem values col = true -> QueryExecutor.resolve_column values col = col.
Proof.
  intros H. unfold QueryExecutor.resolve_column. rewrite H.
  now rewrite andb_false_r.
Qed.

(** C9 (as amended).  LIKE is a prefix match: for every pattern [p] of
    plain text (no character that is an operator of regular expressions;
    [%] is allowed) that does not end in [%], and every string [s] of which
    [p] is a proper prefix up to case, the condition [s LIKE p] is true. *)
Theorem C9_like_is_a_prefix_match values col p s :
  plain_pattern p = true ->
  PyStr.endswith p "%" = false ->
  String.length p < String.length s ->
  ci_prefix p s = true ->
  sget values col = Some (VStr s) ->
  QueryExecutor._evaluate_condition values (Condition col "LIKE" (VStr p)) = Ok true.
Proof.
  intros Hplain _ _ Hpre Hval.
  rewrite evaluate_like, resolve_column_present by (apply smem_sget; eauto).
  unfold row_get. rewrite Hval. unfold QueryExecutor.like. cbn [PyVal.str].
  rewrite replace_percent.
  destruct (@plain_pattern_matches_prefix Re.captures p Hplain) as [r [Hr Hrun]].
  rewrite Hr. unfold Re.match_.
  specialize (Hrun s 0 [] (fun _ _ caps => Some caps) Hpre).
  destruct (Re.run _ r 0 s [] _); [reflexivity|].
  exfalso. apply Hrun; [discriminate|reflexivity].
Qed.

Lemma C9_like_is_a_prefix_match_witness :
  plain_pattern "al" = true
  /\ PyStr.endswith "al" "%" = false
  /\ String.length "al" < String.length "Alice"
  /\ ci_prefix "al" "Alice" = true
  /\ sget [("id", VInt 1); ("name", VStr "Alice")] "name" = Some (VStr "Alice")
  /\ QueryExecutor._evaluate_condition [("id", VInt 1); ("name", VStr "Alice")]
       (Condition "name" "LIKE" (VStr "al")) = Ok true.
Proof.
  assert (H1 : plain_pattern "al" = true) by reflexivity.
  assert (H2 : PyStr.endswith "al" "%" = false) by reflexivity.
  assert (H3 : String.length "al" < String.length "Alice") by (simpl; lia).
  assert (H4 : ci_prefix "al" "Alice" = true) by reflexivity.
  assert (H5 : sget [("id", VInt 1); ("name", VStr "Alice")] "name" = Some (VStr "Alice"))
    by reflexivity.
  split; [exact H1|]. split; [exact H2|]. split; [exact H3|].
  split; [exact H4|]. split; [exact H5|].
  exact (C9_like_is_a_prefix_match _ "name" "al" "Alice" H1 H2 H3 H4 H5).
Defined.

(** C9 as stated fails: the pattern [1+1] does not end in [%] and is a
    proper prefix of [1+1=2], yet [1+1=2 LIKE 1+1] is false, because the
    pattern is handed to [re] unescaped and [+] is read as a repetition. *)
Lemma C9_counterexample :
  PyStr.endswith "1+1" "%" = false
  /\ String.length "1+1" < String.length "1+1=2"
  /\ ci_prefix "1+1" "1+1=2" = true
  /\ QueryExecutor._evaluate_condition [("expr", VStr "1+1=2")]
       (Condition "expr" "LIKE" (VStr "1+1")) = Ok false
  /\ nth 2 (fst (Database.run Database.init
                   ["CREATE TABLE sums (expr VARCHAR(20))";
                    "INSERT INTO sums VALUES ('1+1=2')";
                    "SELECT expr FROM sums WHERE expr LIKE '1+1'"]))
          (Raise (Unmodelled ""))
     = Ok (QueryResult.mk (Some []) 0).
Proof.
  repeat split; try (vm_compute; reflexivity). simpl. lia.
Qed.

(** ** INSERT with a column list (C10) *)

Lemma last_char_app a b : b <> EmptyString -> last_char (a ++ b) = last_char b.
Proof.
  intros Hb. induction a as [|c a IH]; simpl; auto.
  rewrite IH. destruct b as [|d b]; [contradiction|].
  simpl. now destruct (last_char b).
Qed.

Lemma last_char_table_path t : last_char (StorageEngine.table_path t) = Some "l"%char.
Proof. unfold StorageEngine.table_path. now rewrite last_char_app. Qed.

Lemma last_char_index_path t c : last_char (StorageEngine.index_path t c) = Some "x"%char.
Proof.
  unfold StorageEngine.index_path. rewrite last_char_app by discriminate.
  change ("_" ++ c ++ ".idx")%string with (String "_" (c ++ ".idx")).
  change (last_char (String "_" (c ++ ".idx")))
    with (match last_char (c ++ ".idx") with Some x => Some x | None => Some "_"%char end).
  now rewrite last_char_app.
Qed.

Lemma table_path_not_schema_path t : StorageEngine.table_path t <> StorageEngine.schema_path t.
Proof.
  unfold StorageEngine.table_path, StorageEngine.schema_path.
  induction t as [|c t IH]; simpl; [discriminate|].
  intros H. injection H as H. now apply IH.
Qed.

Lemma sget_save_indexes (l : sdict Index.t) f q :
  last_char q <> Some "x"%char ->
  sget (fold_left (fun f ci => Index_save f (snd ci)) l f) q = sget f q.
Proof.
  intros Hq. revert f. induction l as [|[k i] l IH]; intros f; simpl; auto.
  rewrite IH. unfold Index_save. apply sget_sset_other.
  intros E. apply Hq. rewrite <- E. apply last_char_index_path.
Qed.

Lemma fs_update_indexes g st t : fs (QueryExecutor.update_indexes g st t) = fs st.
Proof.
  unfold QueryExecutor.update_indexes. now destruct (sget (indexes st) t).
Qed.

Lemma validate_all_nullable schema row :
  all_nullable schema = true -> TableSchema.validate_row schema row = true.
Proof.
  unfold all_nullable, TableSchema.validate_row.
  induction (TableSchema.columns schema) as [|[k c] l IH]; simpl; auto.
  intros H. apply andb_prop in H. destruct H as [Hc Hl].
  simpl in Hc. rewrite Hc. simpl. now apply IH.
Qed.

Lemma in_keys_smem {V} (d : sdict V) k : In k (PyDict.keys d) -> smem d k = true.
Proof.
  unfold smem, PyDict.mem, PyDict.keys.
  induction d as [|[k' v] d IH]; simpl; [contradiction|].
  intros [->|H].
  - now rewrite String.eqb_refl.
  - destruct (String.eqb k' k); auto.
Qed.

Lemma row_get_sdel_other (row : sdict value) ghost c :
  ghost <> c -> row_get (sdel row ghost) c = row_get row c.
Proof.
  intros H. unfold row_get. now rewrite sget_sdel_other.
Qed.

(** The encoded fields depend on the columns of the schema only. *)
Lemma encode_fields_drop schema (row : sdict value) ghost :
  smem (TableSchema.columns schema) ghost = false ->
  StorageEngine.encode_fields schema row = StorageEngine.encode_fields schema (sdel row ghost).
Proof.
  intros Hghost. unfold StorageEngine.encode_fields. apply map_ext_in.
  intros c Hc. rewrite row_get_sdel_other; [reflexivity|].
  intros ->. apply in_keys_smem in Hc. congruence.
Qed.

Lemma encode_fields_null schema (row : sdict value) :
  Forall2 (fun col_name field => smem row col_name = false -> field = "NULL")
          (PyDict.keys (TableSchema.columns schema)) (StorageEngine.encode_fields schema row).
Proof.
  unfold StorageEngine.encode_fields.
  induction (PyDict.keys (TableSchema.columns schema)) as [|c l IH]; simpl; constructor; auto.
  intros H. unfold row_get, smem, PyDict.mem, sget in *.
  destruct (PyDict.get String.eqb row c); [discriminate|reflexivity].
Qed.

Lemma insert_row_ok f t schema row :
  StorageEngine.load_schema f t = Ok schema ->
  exists rowid f',
    StorageEngine.insert_row f t row = (Ok rowid, f')
    /\ sget f' (StorageEngine.table_path t)
       = Some (TextFile ((match sget f (StorageEngine.table_path t) with
                          | Some (TextFile c) => c
                          | _ => EmptyString
                          end) ++ StorageEngine.encode_line schema row)%string).
Proof.
  intros Hschema. unfold StorageEngine.insert_row.
  assert (H1 : StorageEngine.load_schema
                 (if StorageEngine.exists_ f (StorageEngine.table_path t) then f
                  else sset f (StorageEngine.table_path t) (TextFile EmptyString)) t = Ok schema).
  { destruct (StorageEngine.exists_ f (StorageEngine.table_path t)); auto.
    unfold StorageEngine.load_schema in *.
    rewrite sget_sset_other by apply table_path_not_schema_path. exact Hschema. }
  rewrite H1. do 2 eexists. split; [reflexivity|]. apply sget_sset_same.
Qed.

(** C10 (as amended).  INSERT with a column list does not check the listed
    names against the schema.  On a table all of whose columns are
    nullable, an INSERT that names a column absent from the schema, and
    that repeats no primary-key value held by the cached index, succeeds
    with rowcount 1; the line appended to the row file has one field per
    column of the schema, [NULL] for every column of the schema that was
    not supplied, and does not depend on the value given for the unknown
    column. *)
Theorem C10_insert_ignores_unknown_columns st t_name columns values schema ghost :
  StorageEngine.load_schema (fs st) t_name = Ok schema ->
  all_nullable schema = true ->
  In ghost columns ->
  smem (TableSchema.columns schema) ghost = false ->
  QueryExecutor.duplicate_key st t_name (PyDict.of_pairs String.eqb (combine columns values))
                              (TableSchema.primary_key schema) = None ->
  exists st',
    QueryExecutor.execute st (INSERT t_name (Some columns) values)
      = (Ok (QueryResult.mk (Some []) 1), st')
    /\ table_text st' t_name
       = (table_text st t_name
            ++ PyStr.join "," (StorageEngine.encode_fields schema
                                 (PyDict.of_pairs String.eqb (combine columns values)))
            ++ NL)%string
    /\ List.length (StorageEngine.encode_fields schema
                      (PyDict.of_pairs String.eqb (combine columns values)))
       = List.length (TableSchema.columns schema)
    /\ Forall2 (fun col_name field =>
                  smem (PyDict.of_pairs String.eqb (combine columns values)) col_name = false ->
                  field = "NULL")
               (PyDict.keys (TableSchema.columns schema))
               (StorageEngine.encode_fields schema
                  (PyDict.of_pairs String.eqb (combine columns values)))
    /\ StorageEngine.encode_fields schema (PyDict.of_pairs String.eqb (combine columns values))
       = StorageEngine.encode_fields schema
           (sdel (PyDict.of_pairs String.eqb (combine columns values)) ghost).
Proof.
  intros Hschema Hnull _ Hghost Hdup.
  set (row := PyDict.of_pairs String.eqb (combine columns values)) in *.
  destruct (insert_row_ok (fs st) t_name schema row Hschema) as [rowid [f' [Hins Hfile]]].
  cbn [QueryExecutor.execute]. unfold QueryExecutor._execute_insert.
  rewrite Hschema. cbn [QueryExecutor.build_row]. fold row.
  rewrite (validate_all_nullable schema row Hnull). cbn [negb].
  rewrite Hdup, Hins.
  eexists. split; [reflexivity|]. split; [|split; [|split]].
  - unfold table_text at 1. unfold QueryExecutor.save_indexes.
    cbn [fs QueryExecutor.with_fs].
    rewrite sget_save_indexes
      by (rewrite last_char_table_path; intros E; discriminate E).
    rewrite fs_update_indexes. cbn [fs QueryExecutor.with_fs].
    rewrite Hfile. unfold table_text, StorageEngine.encode_line. reflexivity.
  - unfold StorageEngine.encode_fields, PyDict.keys. now rewrite !length_map.
  - apply encode_fields_null.
  - now apply encode_fields_drop.
Qed.

Lemma C10_insert_ignores_unknown_columns_witness :
  StorageEngine.load_schema (fs (snd (Database.run Database.init two_rows))) "t"
    = Ok (TableSchema.init "t" [Column.mk "id" INTEGER None true true true])
  /\ all_nullable (TableSchema.init "t" [Column.mk "id" INTEGER None true true true]) = true
  /\ In "ghost" ["id"; "ghost"]
  /\ smem (TableSchema.columns
             (TableSchema.init "t" [Column.mk "id" INTEGER None true true true])) "ghost"
     = false
  /\ exists st',
      QueryExecutor.execute (snd (Database.run Database.init two_rows))
                            (INSERT "t" (Some ["id"; "ghost"]) [VInt 30; VInt 7])
        = (Ok (QueryResult.mk (Some []) 1), st')
      /\ table_text st' "t"
         = (table_text (snd (Database.run Database.init two_rows)) "t"
              ++ PyStr.join ","
                   (StorageEngine.encode_fields
                      (TableSchema.init "t" [Column.mk "id" INTEGER None true true true])
                      (PyDict.of_pairs String.eqb
                         (combine ["id"; "ghost"] [VInt 30; VInt 7])))
              ++ NL)%string
      /\ List.length
           (StorageEngine.encode_fields
              (TableSchema.init "t" [Column.mk "id" INTEGER None true true true])
              (PyDict.of_pairs String.eqb (combine ["id"; "ghost"] [VInt 30; VInt 7])))
         = List.length
             (TableSchema.columns
                (TableSchema.init "t" [Column.mk "id" INTEGER None true true true]))
      /\ Forall2 (fun col_name field =>
                    smem (PyDict.of_pairs String.eqb
                            (combine ["id"; "ghost"] [VInt 30; VInt 7])) col_name = false ->
                    field = "NULL")
                 (PyDict.keys
                    (TableSchema.columns
                       (TableSchema.init "t" [Column.mk "id" INTEGER None true true true])))
                 (StorageEngine.encode_fields
                    (TableSchema.init "t" [Column.mk "id" INTEGER None true true true])
                    (PyDict.of_pairs String.eqb
                       (combine ["id"; "ghost"] [VInt 30; VInt 7])))
      /\ StorageEngine.encode_fields
           (TableSchema.init "t" [Column.mk "id" INTEGER None true true true])
           (PyDict.of_pairs String.eqb (combine ["id"; "ghost"] [VInt 30; VInt 7]))
         = StorageEngine.encode_fields
             (TableSchema.init "t" [Column.mk "id" INTEGER None true true true])
             (sdel (PyDict.of_pairs String.eqb
                      (combine ["id"; "ghost"] [VInt 30; VInt 7])) "ghost").
Proof.
  assert (H1 : StorageEngine.load_schema (fs (snd (Database.run Database.init two_rows))) "t"
               = Ok (TableSchema.init "t" [Column.mk "id" INTEGER None true true true]))
    by (vm_compute; reflexivity).
  assert (H2 : all_nullable
                 (TableSchema.init "t" [Column.mk "id" INTEGER None true true true]) = true)
    by reflexivity.
  assert (H3 : In "ghost" ["id"; "ghost"]) by (simpl; auto).
  assert (H4 : smem (TableSchema.columns
                       (TableSchema.init "t" [Column.mk "id" INTEGER None true true true]))
                    "ghost" = false) by reflexivity.
  split; [exact H1|]. split; [exact H2|]. split; [exact H3|]. split; [exact H4|].
  apply (C10_insert_ignores_unknown_columns
           (snd (Database.run Database.init two_rows)) "t" ["id"; "ghost"]
           [VInt 30; VInt 7]
           (TableSchema.init "t" [Column.mk "id" INTEGER None true true true])
           "ghost" H1 H2 H3 H4).
  vm_compute. reflexivity.
Defined.

(** C10 as stated fails: every column of [t] is nullable and [ghost] is no
    column of [t], yet the INSERT does not succeed when its primary-key
    value is already a key of the cached index. *)
Lemma C10_counterexample :
  StorageEngine.load_schema (fs (snd (Database.run Database.init two_rows))) "t"
    = Ok (TableSchema.init "t" [Column.mk "id" INTEGER None true true true])
  /\ all_nullable (TableSchema.init "t" [Column.mk "id" INTEGER None true true true]) = true
  /\ SQLParser.parse "INSERT INTO t (id, ghost) VALUES (10, 7)"
     = Ok (INSERT "t" (Some ["id"; "ghost"]) [VInt 10; VInt 7])
  /\ smem (TableSchema.columns
             (TableSchema.init "t" [Column.mk "id" INTEGER None true true true])) "ghost"
     = false
  /\ Database.execute (snd (Database.run Database.init two_rows))
                      "INSERT INTO t (id, ghost) VALUES (10, 7)"
     = (Raise (ValueError "Duplicate primary key value: 10"),
        snd (Database.run Database.init two_rows)).
Proof.
  repeat split; vm_compute; reflexivity.
Qed.

(** Without the clash of keys the same statement goes through, and the
    unknown column leaves no trace in the row file. *)
Example insert_unknown_column :
  fst (Database.execute (snd (Database.run Database.init two_rows))
                        "INSERT INTO t (id, ghost) VALUES (30, 7)")
  = Ok (QueryResult.mk (Some []) 1)
  /\ table_text (snd (Database.execute (snd (Database.run Database.init two_rows))
                                       "INSERT INTO t (id, ghost) VALUES (30, 7)")) "t"
     = ("10" ++ NL ++ "20" ++ NL ++ "30" ++ NL)%string.
Proof. split; vm_compute; reflexivity. Qed.

(** * Further properties of the code *)

(** ** Equality of values and dictionaries keyed by values *)

Lemma py_eq_refl v : PyVal.py_eq v v = true.
Proof.
  destruct v as [|[|]|z|s]; simpl; auto using Z.eqb_refl, String.eqb_refl.
Qed.

Lemma py_eq_sym a b : PyVal.py_eq a b = PyVal.py_eq b a.
Proof.
  destruct a as [|[|]|x|s], b as [|[|]|y|t]; simpl; auto using Z.eqb_sym, String.eqb_sym.
Qed.

Lemma py_eq_trans a b c :
  PyVal.py_eq a b = true -> PyVal.py_eq b c = true -> PyVal.py_eq a c = true.
Proof.
  destruct a as [|[|]|x|s], b as [|[|]|y|t], c as [|[|]|z|u];
    cbn [PyVal.py_eq PyVal.num_of]; try discriminate; auto;
    rewrite ?Z.eqb_eq, ?String.eqb_eq; intros; subst; auto; try discriminate.
Qed.

Section DictLaws.
Context {K V : Type} (keq : K -> K -> bool).
Hypothesis keq_refl : forall k, keq k k = true.
Hypothesis keq_sym : forall a b, keq a b = keq b a.
Hypothesis keq_trans : forall a b c, keq a b = true -> keq b c = true -> keq a c = true.

Lemma keq_false_l a b c : keq a b = true -> keq a c = false -> keq b c = false.
Proof.
  intros Hab Hac. destruct (keq b c) eqn:E; auto.
  rewrite (keq_trans a b c Hab E) in Hac. discriminate.
Qed.

Lemma dict_get_set_same (d : list (K * V)) k k' v :
  keq k k' = true -> PyDict.get keq (PyDict.set keq d k v) k' = Some v.
Proof.
  intros Hk. induction d as [|[k0 v0] d IH]; simpl.
  - now rewrite Hk.
  - destruct (keq k0 k) eqn:E; simpl.
    + now rewrite (keq_trans k0 k k' E Hk).
    + assert (F : keq k0 k' = false).
      { rewrite keq_sym in Hk. rewrite keq_sym in E. rewrite keq_sym.
        apply (keq_false_l k k' k0); auto. now rewrite keq_sym. }
      now rewrite F.
Qed.

Lemma dict_get_set_other (d : list (K * V)) k k' v :
  keq k k' = false -> PyDict.get keq (PyDict.set keq d k v) k' = PyDict.get keq d k'.
Proof.
  intros Hk. induction d as [|[k0 v0] d IH]; simpl.
  - now rewrite Hk.
  - destruct (keq k0 k) eqn:E; simpl.
    + assert (F : keq k0 k' = false).
      { rewrite keq_sym in E. apply (keq_false_l k k0 k'); auto. }
      now rewrite F.
    + destruct (keq k0 k'); auto.
Qed.

Lemma dict_get_del_same (d : list (K * V)) k k' :
  keq k k' = true -> PyDict.get keq (PyDict.del keq d k) k' = None.
Proof.
  intros Hk. unfold PyDict.del. induction d as [|[k0 v0] d IH]; simpl; auto.
  destruct (keq k0 k) eqn:E; simpl; auto.
  assert (F : keq k0 k' = false).
  { rewrite keq_sym in Hk. rewrite keq_sym in E. rewrite keq_sym.
    apply (keq_false_l k k' k0); auto. now rewrite keq_sym. }
  now rewrite F.
Qed.

Lemma dict_get_del_other (d : list (K * V)) k k' :
  keq k k' = false -> PyDict.get keq (PyDict.del keq d k) k' = PyDict.get keq d k'.
Proof.
  intros Hk. unfold PyDict.del. induction d as [|[k0 v0] d IH]; simpl; auto.
  destruct (keq k0 k) eqn:E; simpl.
  - assert (F : keq k0 k' = false).
    { rewrite keq_sym in E. apply (keq_false_l k k0 k'); auto. }
    now rewrite F.
  - destruct (keq k0 k'); auto.
Qed.

Lemma dict_set_in (d : list (K * V)) k v k1 v1 :
  In (k1, v1) (PyDict.set keq d k v) -> In (k1, v1) d \/ v1 = v.
Proof.
  induction d as [|[k0 v0] d IH]; simpl.
  - intros [H|[]]. inversion H. auto.
  - destruct (keq k0 k); simpl.
    + intros [H|H]; [inversion H; auto|auto].
    + intros [H|H]; auto. destruct (IH H); auto.
Qed.

Lemma dict_del_in (d : list (K * V)) k k1 v1 :
  In (k1, v1) (PyDict.del keq d k) -> In (k1, v1) d.
Proof.
  unfold PyDict.del. intros H. apply filter_In in H. tauto.
Qed.
End DictLaws.

Section DictInvariants.
Context {K V : Type} (keq : K -> K -> bool).
Hypothesis keq_refl : forall k, keq k k = true.
Hypothesis keq_sym : forall a b, keq a b = keq b a.
Hypothesis keq_trans : forall a b c, keq a b = true -> keq b c = true -> keq a c = true.

Lemma dict_get_keq (d : list (K * V)) k k' :
  keq k k' = true -> PyDict.get keq d k = PyDict.get keq d k'.
Proof.
  intros Hk. induction d as [|[k0 v0] d IH]; simpl; auto.
  destruct (keq k0 k) eqn:E.
  - now rewrite (keq_trans k0 k k' E Hk).
  - assert (F : keq k0 k' = false).
    { destruct (keq k0 k') eqn:G; auto.
      rewrite keq_sym in Hk. rewrite (keq_trans k0 k' k G Hk) in E. discriminate. }
    now rewrite F.
Qed.

Lemma dict_get_in (d : list (K * V)) k v :
  PyDict.get keq d k = Some v -> exists k0, In (k0, v) d /\ keq k0 k = true.
Proof.
  induction d as [|[k0 v0] d IH]; simpl; [discriminate|].
  destruct (keq k0 k) eqn:E.
  - intros H. inversion H. subst. eauto.
  - intros H. destruct (IH H) as [k1 [H1 H2]]. eauto.
Qed.

Lemma dict_set_keys_in (d : list (K * V)) k v kv :
  In kv (PyDict.set keq d k v) ->
  (exists kv', In kv' d /\ fst kv' = fst kv) \/ fst kv = k.
Proof.
  induction d as [|[k0 v0] d IH]; simpl.
  - intros [<-|[]]. auto.
  - destruct (keq k0 k) eqn:E; simpl.
    + intros [<-|H]; left; eauto.
    + intros [<-|H].
      * left. eauto.
      * destruct (IH H) as [[kv' [H1 H2]]|H1]; [left; eauto|right; auto].
Qed.

Lemma distinct_keys_set (d : list (K * V)) k v :
  distinct_keys keq d -> distinct_keys keq (PyDict.set keq d k v).
Proof.
  induction d as [|[k0 v0] d IH]; simpl.
  - intros _. split; auto. intros kv [].
  - intros [H0 Hd]. destruct (keq k0 k) eqn:E; simpl.
    + split; auto.
    + split; [|auto]. intros kv Hkv.
      destruct (dict_set_keys_in d k v kv Hkv) as [[kv' [H1 H2]]|H1].
      * rewrite <- H2. now apply H0.
      * now rewrite H1.
Qed.

Lemma distinct_keys_del (d : list (K * V)) k :
  distinct_keys keq d -> distinct_keys keq (PyDict.del keq d k).
Proof.
  unfold PyDict.del. induction d as [|[k0 v0] d IH]; simpl; auto.
  intros [H0 Hd]. destruct (keq k0 k); simpl; auto.
  split; auto. intros kv Hkv. apply filter_In in Hkv. apply H0. tauto.
Qed.
Lemma dict_set_set (d : list (K * V)) k a b :
  PyDict.set keq (PyDict.set keq d k a) k b = PyDict.set keq d k b.
Proof.
  induction d as [|[k0 v0] d IH]; simpl.
  - now rewrite keq_refl.
  - destruct (keq k0 k) eqn:E; simpl; rewrite E; auto. now rewrite IH.
Qed.
End DictInvariants.

(** The laws at the equality of values. *)
Lemma vget_set_same {V} (d : list (value * V)) k k' v :
  PyVal.py_eq k k' = true ->
  PyDict.get PyVal.py_eq (PyDict.set PyVal.py_eq d k v) k' = Some v.
Proof. intros; apply dict_get_set_same; eauto using py_eq_sym, py_eq_trans, py_eq_refl. Qed.

Lemma vget_set_other {V} (d : list (value * V)) k k' v :
  PyVal.py_eq k k' = false ->
  PyDict.get PyVal.py_eq (PyDict.set PyVal.py_eq d k v) k' = PyDict.get PyVal.py_eq d k'.
Proof. intros; apply dict_get_set_other; eauto using py_eq_sym, py_eq_trans, py_eq_refl. Qed.

Lemma vget_del_same {V} (d : list (value * V)) k k' :
  PyVal.py_eq k k' = true ->
  PyDict.get PyVal.py_eq (PyDict.del PyVal.py_eq d k) k' = None.
Proof. intros; apply dict_get_del_same; eauto using py_eq_sym, py_eq_trans, py_eq_refl. Qed.

Lemma vget_del_other {V} (d : list (value * V)) k k' :
  PyVal.py_eq k k' = false ->
  PyDict.get PyVal.py_eq (PyDict.del PyVal.py_eq d k) k' = PyDict.get PyVal.py_eq d k'.
Proof. intros; apply dict_get_del_other; eauto using py_eq_sym, py_eq_trans, py_eq_refl. Qed.

Lemma vget_keq {V} (d : list (value * V)) k k' :
  PyVal.py_eq k k' = true -> PyDict.get PyVal.py_eq d k = PyDict.get PyVal.py_eq d k'.
Proof. intros; apply dict_get_keq; eauto using py_eq_sym, py_eq_trans, py_eq_refl. Qed.

(** ** core/index.py *)

Lemma bucket_add_in b rowid r :
  In r (Index.bucket_add b rowid) <-> r = rowid \/ In r b.
Proof.
  unfold Index.bucket_add. destruct (existsb (Nat.eqb rowid) b) eqn:E.
  - split; auto. intros [->|H]; auto.
    apply existsb_exists in E. destruct E as [x [Hx Hx']].
    apply Nat.eqb_eq in Hx'. now subst.
  - rewrite in_app_iff. simpl. split.
    + intros [H|[H|[]]]; auto.
    + intros [H|H]; auto.
Qed.

Lemma bucket_add_nodup b rowid : NoDup b -> NoDup (Index.bucket_add b rowid).
Proof.
  intros Hb. unfold Index.bucket_add. destruct (existsb (Nat.eqb rowid) b) eqn:E; auto.
  apply NoDup_app; auto.
  - repeat constructor. intros [].
  - intros x Hx [<-|[]].
    assert (F : existsb (Nat.eqb rowid) b = true).
    { apply existsb_exists. exists rowid. split; auto. apply Nat.eqb_refl. }
    congruence.
Qed.

Lemma bucket_add_nonempty b rowid : Index.bucket_add b rowid <> [].
Proof.
  intros H. assert (F : In rowid (Index.bucket_add b rowid)) by (apply bucket_add_in; auto).
  rewrite H in F. destruct F.
Qed.

Lemma bucket_discard_in b rowid r :
  In r (Index.bucket_discard b rowid) <-> In r b /\ r <> rowid.
Proof.
  unfold Index.bucket_discard. rewrite filter_In, negb_true_iff, Nat.eqb_neq. tauto.
Qed.

Lemma bucket_discard_nodup b rowid : NoDup b -> NoDup (Index.bucket_discard b rowid).
Proof. apply NoDup_filter. Qed.

Lemma index_get_add_same i v rowid w r :
  PyVal.py_eq v w = true ->
  In r (Index.get (Index.add i v rowid) w) <-> r = rowid \/ In r (Index.get i w).
Proof.
  intros E. unfold Index.add, Index.get. cbn [Index.index Index.with_index].
  rewrite (vget_set_same _ v w _ E), bucket_add_in, <- (vget_keq (Index.index i) v w E).
  unfold PyDict.mem. destruct (PyDict.get PyVal.py_eq (Index.index i) v) eqn:G.
  - rewrite G. reflexivity.
  - rewrite (vget_set_same _ v v _ (py_eq_refl v)). reflexivity.
Qed.

Lemma index_get_add_other i v rowid w :
  PyVal.py_eq v w = false -> Index.get (Index.add i v rowid) w = Index.get i w.
Proof.
  intros E. unfold Index.add, Index.get. cbn [Index.index Index.with_index].
  rewrite (vget_set_other _ v w _ E).
  unfold PyDict.mem. destruct (PyDict.get PyVal.py_eq (Index.index i) v); auto.
  now rewrite (vget_set_other _ v w _ E).
Qed.

Lemma index_get_remove_same i v rowid w r :
  PyVal.py_eq v w = true ->
  In r (Index.get (Index.remove i v rowid) w) <-> In r (Index.get i w) /\ r <> rowid.
Proof.
  intros E. unfold Index.remove, Index.get.
  rewrite <- (vget_keq (Index.index i) v w E).
  destruct (PyDict.get PyVal.py_eq (Index.index i) v) as [b|] eqn:G.
  - destruct (Index.bucket_discard b rowid) as [|x l] eqn:D; cbn [Index.index Index.with_index].
    + rewrite (vget_del_same _ v w E). rewrite <- bucket_discard_in, D. reflexivity.
    + rewrite (vget_set_same _ v w _ E). rewrite <- D. apply bucket_discard_in.
  - rewrite <- (vget_keq (Index.index i) v w E), G. simpl. tauto.
Qed.

Lemma index_get_remove_other i v rowid w :
  PyVal.py_eq v w = false -> Index.get (Index.remove i v rowid) w = Index.get i w.
Proof.
  intros E. unfold Index.remove, Index.get.
  destruct (PyDict.get PyVal.py_eq (Index.index i) v) as [b|] eqn:G; auto.
  destruct (Index.bucket_discard b rowid) as [|x l] eqn:D; cbn [Index.index Index.with_index].
  - now rewrite (vget_del_other _ v w E).
  - now rewrite (vget_set_other _ v w _ E).
Qed.

(** X1.  [Index.add]: the rowid joins the bucket of the value, under whichever
    equal key the bucket is read (as [1] and [True]), and the bucket of no
    other value changes. *)
Theorem index_add_get i v rowid w :
  if PyVal.py_eq v w
  then forall r, In r (Index.get (Index.add i v rowid) w) <-> r = rowid \/ In r (Index.get i w)
  else Index.get (Index.add i v rowid) w = Index.get i w.
Proof.
  destruct (PyVal.py_eq v w) eqn:E.
  - intros r. now apply index_get_add_same.
  - now apply index_get_add_other.
Qed.

(** X2.  [Index.remove]: the rowid leaves the bucket of the value and nothing
    else does; the bucket of no other value changes. *)
Theorem index_remove_get i v rowid w :
  if PyVal.py_eq v w
  then forall r, In r (Index.get (Index.remove i v rowid) w) <-> In r (Index.get i w) /\ r <> rowid
  else Index.get (Index.remove i v rowid) w = Index.get i w.
Proof.
  destruct (PyVal.py_eq v w) eqn:E.
  - intros r. now apply index_get_remove_same.
  - now apply index_get_remove_other.
Qed.

Lemma index_add_eq i v rowid :
  Index.add i v rowid
  = Index.with_index i (PyDict.set PyVal.py_eq (Index.index i) v
                          (Index.bucket_add (Index.get i v) rowid)).
Proof.
  unfold Index.add, Index.get, PyDict.mem.
  destruct (PyDict.get PyVal.py_eq (Index.index i) v) as [b|] eqn:G.
  - now rewrite G.
  - rewrite (vget_set_same _ v v _ (py_eq_refl v)).
    now rewrite (dict_set_set PyVal.py_eq py_eq_refl).
Qed.

Lemma index_ok_get i v : index_ok i -> NoDup (Index.get i v).
Proof.
  intros [_ Hb]. unfold Index.get.
  destruct (PyDict.get PyVal.py_eq (Index.index i) v) as [b|] eqn:G; [|constructor].
  destruct (dict_get_in _ _ _ _ G) as [k0 [H1 _]]. now apply (Hb k0).
Qed.

(** X3.  [add] and [remove] keep an index well formed: its keys stay pairwise
    different, and every bucket stays a non-empty set of rowids. *)
Theorem index_ok_preserved i v rowid :
  index_ok i ->
  index_ok (Index.add i v rowid) /\ index_ok (Index.remove i v rowid).
Proof.
  intros Hi. pose proof (index_ok_get i v Hi) as Hg. destruct Hi as [Hk Hb]. split.
  - rewrite index_add_eq. unfold index_ok. cbn [Index.index Index.with_index].
    split; [now apply distinct_keys_set|].
    intros k b Hin. apply dict_set_in in Hin. destruct Hin as [Hin| ->].
    + now apply (Hb k).
    + split; [apply bucket_add_nonempty|now apply bucket_add_nodup].
  - unfold Index.remove, Index.get in *.
    destruct (PyDict.get PyVal.py_eq (Index.index i) v) as [b0|] eqn:G; [|split; auto].
    destruct (Index.bucket_discard b0 rowid) as [|x l] eqn:D;
      unfold index_ok; cbn [Index.index Index.with_index].
    + split; [now apply distinct_keys_del|].
      intros k b Hin. apply dict_del_in in Hin. now apply (Hb k).
    + split; [now apply distinct_keys_set|].
      intros k b Hin. apply dict_set_in in Hin. destruct Hin as [Hin| ->].
      * now apply (Hb k).
      * split; [discriminate|]. rewrite <- D. now apply bucket_discard_nodup.
Qed.

Lemma index_ok_init tn cn : index_ok (Index.init tn cn).
Proof. split; simpl; auto. intros v b []. Qed.

(** Witness of [index_ok_preserved]: an index with one bucket. *)
Lemma index_ok_preserved_witness :
  let i := Index.add (Index.init "members" "id") (VInt 1) 0 in
  index_ok i /\
  index_ok (Index.add i (VBool true) 0) /\ index_ok (Index.remove i (VBool true) 0).
Proof.
  assert (H : index_ok (Index.add (Index.init "members" "id") (VInt 1) 0)).
  { split; simpl.
    - split; auto. intros kv [].
    - intros v b [H|[]]. inversion H. split; [discriminate|].
      repeat constructor. intros []. }
  split; [exact H|].
  exact (index_ok_preserved _ (VBool true) 0 H).
Defined.

(** X4.  [Index.save] then [Index.load]: a fresh index object of the same table
    and column reads back the dictionary that was saved. *)
Theorem index_save_load f i :
  Index_load (Index_save f i) (Index.init (Index.t_name i) (Index.column_name i)) = Ok i.
Proof.
  unfold Index_load, Index_save. cbn [Index.t_name Index.column_name Index.init].
  rewrite sget_sset_same. now destruct i.
Qed.

(** ** core/schema.py and the schema file *)

Lemma sget_none_keys {V} (d : sdict V) k : sget d k = None <-> ~ In k (PyDict.keys d).
Proof.
  unfold sget, PyDict.keys. induction d as [|[k0 v0] d IH]; simpl.
  - tauto.
  - destruct (String.eqb k0 k) eqn:E.
    + apply String.eqb_eq in E. subst. split; [discriminate|tauto].
    + apply String.eqb_neq in E. rewrite IH. tauto.
Qed.

Lemma sset_fresh {V} (d : sdict V) k v : sget d k = None -> sset d k v = d ++ [(k, v)].
Proof.
  unfold sget, sset. induction d as [|[k0 v0] d IH]; simpl; auto.
  destruct (String.eqb k0 k); [discriminate|]. intros H. now rewrite IH.
Qed.

Lemma of_pairs_fresh {V} (l acc : sdict V) :
  NoDup (PyDict.keys (acc ++ l)) ->
  fold_left (fun d kv => PyDict.set String.eqb d (fst kv) (snd kv)) l acc = acc ++ l.
Proof.
  revert acc. induction l as [|[k v] l IH]; intros acc H; simpl.
  - now rewrite app_nil_r.
  - change (PyDict.set String.eqb acc k v) with (sset acc k v).
    rewrite sset_fresh.
    + rewrite IH; rewrite <- app_assoc; auto.
    + apply sget_none_keys. unfold PyDict.keys in *. rewrite map_app in H. simpl in H.
      apply NoDup_remove_2 in H. intros Hin. apply H. apply in_or_app. auto.
Qed.

Lemma of_pairs_nodup {V} (l : sdict V) :
  NoDup (PyDict.keys l) -> PyDict.of_pairs String.eqb l = l.
Proof. intros H. unfold PyDict.of_pairs. now rewrite of_pairs_fresh. Qed.

Lemma schema_init_nodup n cols :
  NoDup (map Column.name cols) ->
  TableSchema.columns (TableSchema.init n cols) = map (fun c => (Column.name c, c)) cols.
Proof.
  intros H. cbn [TableSchema.init TableSchema.columns]. apply of_pairs_nodup.
  unfold PyDict.keys. rewrite map_map. simpl. exact H.
Qed.

(** X6.  [save_schema] then [load_schema]: a schema built from columns of
    pairwise different names is read back as it was. *)
Theorem schema_save_load f t n cols :
  NoDup (map Column.name cols) ->
  StorageEngine.load_schema (StorageEngine.save_schema f t (TableSchema.init n cols)) t
  = Ok (TableSchema.init n cols).
Proof.
  intros H. unfold StorageEngine.load_schema, StorageEngine.save_schema.
  rewrite sget_sset_same. rewrite (schema_init_nodup n cols H).
  unfold PyDict.vals. rewrite map_map. simpl. rewrite map_id.
  cbn [TableSchema.init TableSchema.name]. reflexivity.
Qed.

Lemma schema_save_load_witness :
  let cols := [Column.mk "id" INTEGER None true false false;
               Column.mk "name" VARCHAR (Some 50%Z) false false true] in
  NoDup (map Column.name cols) /\
  StorageEngine.load_schema (StorageEngine.save_schema [] "members" (TableSchema.init "members" cols))
                            "members"
  = Ok (TableSchema.init "members" cols).
Proof.
  assert (H : NoDup (map Column.name
                       [Column.mk "id" INTEGER None true false false;
                        Column.mk "name" VARCHAR (Some 50%Z) false false true])).
  { simpl. repeat constructor; simpl; intuition discriminate. }
  split; [exact H|].
  exact (schema_save_load [] "members" "members" _ H).
Defined.

(** With two columns of one name the round trip fails: the dictionary keeps
    the later column, the list of primary keys was taken from both. *)
Example schema_save_load_duplicate :
  let cols := [Column.mk "id" INTEGER None true false false;
               Column.mk "id" VARCHAR None false false true] in
  StorageEngine.load_schema (StorageEngine.save_schema [] "t" (TableSchema.init "t" cols)) "t"
  <> Ok (TableSchema.init "t" cols).
Proof. vm_compute. discriminate. Qed.

(** ** core/schema.py: [validate_row] *)

Lemma smem_keys {V W} (d : sdict V) (d' : sdict W) k :
  PyDict.keys d = PyDict.keys d' -> smem d k = smem d' k.
Proof.
  unfold smem, PyDict.mem, PyDict.keys. revert d'.
  induction d as [|[k0 v0] d IH]; intros [|[k1 v1] d'] H; try discriminate; auto.
  simpl in H. inversion H; subst. simpl.
  destruct (String.eqb k1 k); auto.
Qed.

(** X7.  [validate_row] looks at the keys of a row only: two rows with the same
    keys are both accepted or both rejected, so a NOT NULL column is
    satisfied by an explicit [None]. *)
Theorem validate_row_keys_only sch (row row' : sdict value) :
  PyDict.keys row = PyDict.keys row' ->
  TableSchema.validate_row sch row = TableSchema.validate_row sch row'.
Proof.
  intros H. unfold TableSchema.validate_row.
  induction (TableSchema.columns sch) as [|[k c] cols IH]; [reflexivity|].
  cbn [forallb fst snd]. now rewrite IH, (smem_keys row row' k H).
Qed.

Lemma validate_row_keys_only_witness :
  let sch := TableSchema.init "members"
               [Column.mk "id" INTEGER None true true true;
                Column.mk "name" VARCHAR (Some 50%Z) false false false] in
  PyDict.keys [("id", VInt 1%Z); ("name", VStr "Alice")]
  = PyDict.keys [("id", VInt 1%Z); ("name", VNone)]
  /\ TableSchema.validate_row sch [("id", VInt 1%Z); ("name", VStr "Alice")]
     = TableSchema.validate_row sch [("id", VInt 1%Z); ("name", VNone)].
Proof.
  split; [reflexivity|].
  exact (validate_row_keys_only _ [("id", VInt 1%Z); ("name", VStr "Alice")]
           [("id", VInt 1%Z); ("name", VNone)] eq_refl).
Defined.

(** ** The fields of the row file *)

Lemma all_chars_impl (p q : ascii -> bool) s :
  (forall c, p c = true -> q c = true) -> all_chars p s = true -> all_chars q s = true.
Proof.
  intros H. induction s as [|c r IH]; simpl; auto.
  rewrite !andb_true_iff. intros [Hc Hr]. auto.
Qed.

Lemma startswith_one c r a :
  PyStr.startswith (String c r) (String a EmptyString) = Ascii.eqb a c.
Proof.
  cbn [PyStr.startswith]. rewrite startswith_empty. apply andb_true_r.
Qed.

(** Escaping, character by character. *)
Lemma escape_cons c r :
  PyStr.replace (String c r) "," "\,"
  = if Ascii.eqb "," c then String "\" (String "," (PyStr.replace r "," "\,"))
    else String c (PyStr.replace r "," "\,").
Proof.
  unfold PyStr.replace. cbn [PyStr.replace_from]. rewrite startswith_one.
  destruct (Ascii.eqb "," c); reflexivity.
Qed.

Lemma escape_no_comma s :
  all_chars (fun c => negb (Ascii.eqb "," c)) s = true -> PyStr.replace s "," "\," = s.
Proof.
  induction s as [|c r IH]; [reflexivity|].
  cbn [all_chars]. rewrite andb_true_iff, negb_true_iff. intros [Hc Hr].
  rewrite escape_cons, Hc, IH; auto.
Qed.

(** An escaped text never starts with a comma. *)
Lemma escape_head s a :
  PyStr.startswith (PyStr.replace s "," "\,") (String "," a) = false.
Proof.
  destruct s as [|c r]; [reflexivity|].
  rewrite escape_cons. destruct (Ascii.eqb "," c) eqn:E.
  - reflexivity.
  - cbn [PyStr.startswith]. now rewrite E.
Qed.

(** Unescaping undoes escaping, for every text. *)
Lemma unescape_escape s :
  PyStr.replace (PyStr.replace s "," "\,") "\," "," = s.
Proof.
  induction s as [|c r IH]; [reflexivity|].
  rewrite escape_cons. destruct (Ascii.eqb "," c) eqn:E.
  - apply Ascii.eqb_eq in E. subst c.
    unfold PyStr.replace at 1. cbn [PyStr.replace_from PyStr.startswith].
    rewrite startswith_empty. cbn [Ascii.eqb Bool.eqb andb String.length Nat.sub append].
    fold (PyStr.replace (PyStr.replace r "," "\,") "\," ","). now rewrite IH.
  - unfold PyStr.replace at 1. cbn [PyStr.replace_from].
    assert (F : PyStr.startswith (String c (PyStr.replace r "," "\,")) "\," = false).
    { cbn [PyStr.startswith]. rewrite escape_head. apply andb_false_r. }
    rewrite F. fold (PyStr.replace (PyStr.replace r "," "\,") "\," ","). now rewrite IH.
Qed.

(** An escaped text is [NULL] only when the text is. *)
Lemma escape_null s : PyStr.replace s "," "\," = "NULL" -> s = "NULL".
Proof.
  assert (step : forall c r t, c <> ","%char ->
            PyStr.replace (String c r) "," "\," = String c t -> PyStr.replace r "," "\," = t).
  { intros c r t Hc. rewrite escape_cons. destruct (Ascii.eqb "," c) eqn:E.
    - apply Ascii.eqb_eq in E. congruence.
    - intros H. now inversion H. }
  assert (head : forall c r d t,
            PyStr.replace (String c r) "," "\," = String d t -> d <> "\"%char -> c = d).
  { intros c r d t. rewrite escape_cons. destruct (Ascii.eqb "," c); intros H; inversion H; congruence. }
  intros H.
  destruct s as [|c1 s]; [discriminate|].
  pose proof (head _ _ _ _ H ltac:(discriminate)) as ->. apply step in H; [|discriminate].
  destruct s as [|c2 s]; [discriminate|].
  pose proof (head _ _ _ _ H ltac:(discriminate)) as ->. apply step in H; [|discriminate].
  destruct s as [|c3 s]; [discriminate|].
  pose proof (head _ _ _ _ H ltac:(discriminate)) as ->. apply step in H; [|discriminate].
  destruct s as [|c4 s]; [discriminate|].
  pose proof (head _ _ _ _ H ltac:(discriminate)) as ->. apply step in H; [|discriminate].
  destruct s as [|c5 s]; [reflexivity|].
  rewrite escape_cons in H. destruct (Ascii.eqb "," c5); discriminate.
Qed.

(** *** [str] and [int] on integers *)

Lemma uint_val_of_uint_acc u p : Z.pos (Pos.of_uint_acc u p) = uint_val (Z.pos p) u.
Proof.
  revert p. induction u; intros p; cbn [Pos.of_uint_acc uint_val]; auto;
    rewrite IHu; f_equal; lia.
Qed.

Lemma uint_val_of_uint u : uint_val 0 u = Z.of_N (Pos.of_uint u).
Proof.
  induction u; simpl; auto; now rewrite <- uint_val_of_uint_acc.
Qed.

Lemma int_digits_uint acc u :
  PyStr.int_digits acc true (NilEmpty.string_of_uint u) = Some (uint_val acc u).
Proof.
  revert acc. induction u; intros acc; cbn [NilEmpty.string_of_uint uint_val];
    [reflexivity| | | | | | | | | |];
    cbn [PyStr.int_digits]; (replace (PyStr.isdigit _) with true by reflexivity);
    rewrite IHu; reflexivity.
Qed.

Lemma int_digits_uint_first u :
  u <> Decimal.Nil ->
  PyStr.int_digits 0 false (NilEmpty.string_of_uint u) = Some (uint_val 0 u).
Proof.
  destruct u; [congruence| | | | | | | | | |]; intros _;
    cbn [NilEmpty.string_of_uint uint_val];
    cbn [PyStr.int_digits]; (replace (PyStr.isdigit _) with true by reflexivity);
    rewrite int_digits_uint; reflexivity.
Qed.

Lemma digits_of_uint u : all_chars PyStr.isdigit (NilEmpty.string_of_uint u) = true.
Proof. induction u; simpl; auto. Qed.

Lemma to_uint_not_nil p : Pos.to_uint p <> Decimal.Nil.
Proof.
  intros H. pose proof (DecimalPos.Unsigned.of_to p) as E. rewrite H in E. discriminate.
Qed.

Lemma str_of_pos p : PyStr.str_of_Z (Z.pos p) = NilEmpty.string_of_uint (Pos.to_uint p).
Proof.
  unfold PyStr.str_of_Z. cbn [Z.to_int NilZero.string_of_int].
  unfold NilZero.string_of_uint. pose proof (to_uint_not_nil p).
  destruct (Pos.to_uint p); congruence.
Qed.

Lemma str_of_neg p :
  PyStr.str_of_Z (Z.neg p) = String "-" (NilEmpty.string_of_uint (Pos.to_uint p)).
Proof.
  unfold PyStr.str_of_Z. cbn [Z.to_int NilZero.string_of_int].
  unfold NilZero.string_of_uint. pose proof (to_uint_not_nil p).
  destruct (Pos.to_uint p); congruence.
Qed.

Lemma int_digits_pos p :
  PyStr.int_digits 0 false (NilEmpty.string_of_uint (Pos.to_uint p)) = Some (Z.pos p).
Proof.
  rewrite int_digits_uint_first by apply to_uint_not_nil.
  now rewrite uint_val_of_uint, DecimalPos.Unsigned.of_to.
Qed.

Lemma lstrip_head c r : PyStr.isspace c = false -> PyStr.lstrip (String c r) = String c r.
Proof. intros H. cbn [PyStr.lstrip]. now rewrite H. Qed.

Lemma rstrip_no_space s :
  all_chars (fun c => negb (PyStr.isspace c)) s = true -> PyStr.rstrip s = s.
Proof.
  induction s as [|c r IH]; [reflexivity|].
  cbn [all_chars]. rewrite andb_true_iff, negb_true_iff. intros [Hc Hr].
  cbn [PyStr.rstrip]. rewrite (IH Hr). destruct r; [now rewrite Hc|reflexivity].
Qed.

Lemma strip_no_space s :
  all_chars (fun c => negb (PyStr.isspace c)) s = true -> PyStr.strip s = s.
Proof.
  intros H. unfold PyStr.strip. destruct s as [|c r]; [reflexivity|].
  assert (Hc : PyStr.isspace c = false).
  { cbn [all_chars] in H. apply andb_true_iff in H. now apply negb_true_iff. }
  rewrite (lstrip_head c r Hc). now apply rstrip_no_space.
Qed.

Lemma isdigit_cases c :
  PyStr.isdigit c = true ->
  PyStr.isspace c = false /\ Ascii.eqb "," c = false
  /\ c <> "-"%char /\ c <> "+"%char /\ c <> "N"%char.
Proof.
  destruct c as [[] [] [] [] [] [] [] []]; vm_compute; intros H;
    try discriminate H; repeat split; congruence.
Qed.

Lemma int_of_digits s :
  all_chars PyStr.isdigit s = true -> PyStr.int_of_str s = PyStr.int_digits 0 false s.
Proof.
  intros H. unfold PyStr.int_of_str. rewrite strip_no_space.
  - destruct s as [|c r]; [reflexivity|].
    cbn [all_chars] in H. apply andb_true_iff in H. destruct H as [Hc _].
    destruct (isdigit_cases c Hc) as [_ [_ [Hm [Hp _]]]].
    destruct c as [[] [] [] [] [] [] [] []]; try reflexivity; congruence.
  - apply (all_chars_impl PyStr.isdigit); auto.
    intros c Hc. apply negb_true_iff. now apply isdigit_cases.
Qed.

(** [int(str(z))] is [z]. *)
Lemma int_of_str_of_Z z : PyStr.int_of_str (PyStr.str_of_Z z) = Some z.
Proof.
  destruct z as [|p|p].
  - reflexivity.
  - rewrite str_of_pos, int_of_digits by apply digits_of_uint. apply int_digits_pos.
  - rewrite str_of_neg. unfold PyStr.int_of_str.
    rewrite strip_no_space.
    + now rewrite int_digits_pos.
    + cbn [all_chars]. replace (negb (PyStr.isspace "-")) with true by reflexivity.
      apply (all_chars_impl PyStr.isdigit); [|apply digits_of_uint].
      intros c Hc. apply negb_true_iff. now apply isdigit_cases.
Qed.

(** [str(z)] holds no comma and is not the text [NULL]. *)
Lemma str_of_Z_plain z :
  all_chars (fun c => negb (Ascii.eqb "," c)) (PyStr.str_of_Z z) = true
  /\ String.eqb (PyStr.str_of_Z z) "NULL" = false.
Proof.
  assert (D : forall u, all_chars (fun c => negb (Ascii.eqb "," c)) (NilEmpty.string_of_uint u) = true).
  { intros u. apply (all_chars_impl PyStr.isdigit); [|apply digits_of_uint].
    intros c Hc. apply negb_true_iff. now apply isdigit_cases. }
  assert (N : forall u, String.eqb (NilEmpty.string_of_uint u) "NULL" = false).
  { intros u. pose proof (digits_of_uint u) as H.
    destruct (NilEmpty.string_of_uint u) as [|c r]; [reflexivity|].
    cbn [all_chars] in H. apply andb_true_iff in H. destruct H as [Hc _].
    destruct (isdigit_cases c Hc) as [_ [_ [_ [_ Hn]]]].
    cbn [String.eqb]. destruct (Ascii.eqb c "N") eqn:E; auto.
    apply Ascii.eqb_eq in E. congruence. }
  destruct z as [|p|p].
  - split; reflexivity.
  - rewrite str_of_pos. auto.
  - rewrite str_of_neg. split; [|reflexivity]. cbn [all_chars]. now rewrite D.
Qed.

Lemma field_round_trip_ok col v :
  storable col v = true ->
  StorageEngine.decode_field col (StorageEngine.encode_field v) = Ok v.
Proof.
  unfold storable, StorageEngine.decode_field.
  destruct v as [|b|z|s].
  - intros _. reflexivity.
  - destruct (Column.dtype col); try discriminate. intros _. now destruct b.
  - destruct (Column.dtype col); try discriminate. intros _.
    cbn [StorageEngine.encode_field PyVal.str].
    destruct (str_of_Z_plain z) as [Hc Hn].
    rewrite (escape_no_comma _ Hc), Hn. now rewrite int_of_str_of_Z.
  - cbn [StorageEngine.encode_field PyVal.str].
    assert (Hn : negb (String.eqb s "NULL") = true ->
                 String.eqb (PyStr.replace s "," "\,") "NULL" = false).
    { rewrite negb_true_iff. intros H.
      destruct (String.eqb (PyStr.replace s "," "\,") "NULL") eqn:E; auto.
      apply String.eqb_eq, escape_null in E. subst. discriminate. }
    destruct (Column.dtype col); try discriminate; intros H;
      rewrite (Hn H), unescape_escape; reflexivity.
Qed.



(** ** The lines of the row file *)

Lemma all_chars_app p a b : all_chars p (a ++ b) = all_chars p a && all_chars p b.
Proof. induction a as [|c a IH]; simpl; auto. now rewrite IH, andb_assoc. Qed.

Lemma all_chars_last p s c : all_chars p s = true -> last_char s = Some c -> p c = true.
Proof.
  induction s as [|d s IH]; simpl; [discriminate|].
  rewrite andb_true_iff. intros [Hd Hs]. destruct (last_char s) as [x|] eqn:E.
  - intros H. inversion H. subst. now apply IH.
  - intros H. now inversion H; subst.
Qed.

Lemma last_char_none s : last_char s = None -> s = EmptyString.
Proof. destruct s as [|c s]; auto. simpl. destruct (last_char s); discriminate. Qed.

Lemma plain_char_no_comma c : plain_char c = true -> negb (Ascii.eqb "," c) = true.
Proof. unfold plain_char. rewrite !andb_true_iff. tauto. Qed.

Lemma plain_char_no_cr c : plain_char c = true -> Ascii.eqb c CR = false.
Proof. unfold plain_char. rewrite !andb_true_iff, !negb_true_iff. tauto. Qed.

Lemma plain_char_no_lf c : plain_char c = true -> Ascii.eqb c LF = false.
Proof. unfold plain_char. rewrite !andb_true_iff, !negb_true_iff. tauto. Qed.

(** A text of characters that are plain and not white space is clean,
    unless it is empty. *)
Lemma clean_text_all s :
  all_chars (fun c => plain_char c && negb (PyStr.isspace c)) s = true ->
  s <> EmptyString -> clean_text s = true.
Proof.
  intros H Hs. unfold clean_text. rewrite !andb_true_iff. repeat split.
  - apply (all_chars_impl _ _ _ (fun c Hc => proj1 (proj1 (andb_true_iff _ _) Hc)) H).
  - destruct s as [|c r]; [contradiction|]. simpl in *.
    apply andb_true_iff in H. destruct H as [H _]. apply andb_true_iff in H. tauto.
  - destruct (last_char s) as [c|] eqn:E.
    + simpl. pose proof (all_chars_last _ _ _ H E) as Hc. apply andb_true_iff in Hc. tauto.
    + apply last_char_none in E. contradiction.
Qed.

Lemma isdigit_plain c :
  PyStr.isdigit c = true -> plain_char c && negb (PyStr.isspace c) = true.
Proof.
  destruct c as [[] [] [] [] [] [] [] []]; vm_compute; intros H;
    try discriminate H; reflexivity.
Qed.

Lemma string_of_uint_nonempty u :
  u <> Decimal.Nil -> NilEmpty.string_of_uint u <> EmptyString.
Proof. destruct u; simpl; congruence. Qed.

Lemma clean_text_str_of_Z z : clean_text (PyStr.str_of_Z z) = true.
Proof.
  assert (D : forall u, all_chars (fun c => plain_char c && negb (PyStr.isspace c))
                          (NilEmpty.string_of_uint u) = true).
  { intros u. apply (all_chars_impl PyStr.isdigit); [apply isdigit_plain|apply digits_of_uint]. }
  destruct z as [|p|p].
  - reflexivity.
  - rewrite str_of_pos. apply clean_text_all; auto.
    apply string_of_uint_nonempty, to_uint_not_nil.
  - rewrite str_of_neg. apply clean_text_all; [|discriminate].
    cbn [all_chars]. now rewrite D.
Qed.

(** The field of a clean value is a clean text. *)
Lemma clean_field col v :
  clean col v = true -> clean_text (StorageEngine.encode_field v) = true.
Proof.
  unfold clean. rewrite andb_true_iff. intros [_ H].
  destruct v as [|b|z|s].
  - reflexivity.
  - now destruct b.
  - cbn [StorageEngine.encode_field PyVal.str].
    rewrite escape_no_comma; [apply clean_text_str_of_Z|].
    apply str_of_Z_plain.
  - cbn [StorageEngine.encode_field PyVal.str].
    rewrite escape_no_comma; auto.
    unfold clean_text in H. rewrite !andb_true_iff in H. destruct H as [[H _] _].
    apply (all_chars_impl plain_char); auto. apply plain_char_no_comma.
Qed.

Lemma clean_text_nonempty s : clean_text s = true -> s <> EmptyString.
Proof. intros H ->. discriminate. Qed.

(** *** [split] undoes [join] *)

Lemma split_plain s :
  all_chars plain_char s = true -> PyStr.split "," s = [s].
Proof.
  induction s as [|c r IH]; [reflexivity|].
  cbn [all_chars]. rewrite andb_true_iff. intros [Hc Hr].
  apply plain_char_no_comma, negb_true_iff in Hc. rewrite Ascii.eqb_sym in Hc.
  cbn [PyStr.split]. now rewrite Hc, (IH Hr).
Qed.

Lemma split_app_sep s rest :
  all_chars plain_char s = true ->
  PyStr.split "," (s ++ String "," rest) = s :: PyStr.split "," rest.
Proof.
  induction s as [|c r IH].
  - intros _. reflexivity.
  - cbn [all_chars]. rewrite andb_true_iff. intros [Hc Hr].
    apply plain_char_no_comma, negb_true_iff in Hc. rewrite Ascii.eqb_sym in Hc.
    cbn [append PyStr.split]. now rewrite Hc, (IH Hr).
Qed.

Lemma split_join fields :
  fields <> [] -> Forall (fun s => clean_text s = true) fields ->
  PyStr.split "," (PyStr.join "," fields) = fields.
Proof.
  assert (P : forall s, clean_text s = true -> all_chars plain_char s = true).
  { intros s H. unfold clean_text in H. rewrite !andb_true_iff in H. tauto. }
  induction fields as [|x r IH]; [congruence|]. intros _ H.
  inversion H as [|? ? Hx Hr]; subst.
  destruct r as [|y r].
  - cbn [PyStr.join]. apply split_plain. auto.
  - change (PyStr.join "," (x :: y :: r)) with (x ++ String "," (PyStr.join "," (y :: r)))%string.
    rewrite split_app_sep by auto. f_equal. apply IH; [discriminate|auto].
Qed.

(** *** The line of a row *)

Lemma first_char_app a b : a <> EmptyString -> first_char (a ++ b) = first_char a.
Proof. destruct a; [congruence|reflexivity]. Qed.

Lemma join_clean fields :
  fields <> [] -> Forall (fun s => clean_text s = true) fields ->
  all_chars (fun c => negb (Ascii.eqb c CR) && negb (Ascii.eqb c LF)) (PyStr.join "," fields) = true
  /\ not_blank (first_char (PyStr.join "," fields)) = true
  /\ not_blank (last_char (PyStr.join "," fields)) = true.
Proof.
  assert (P : forall s, clean_text s = true ->
                all_chars (fun c => negb (Ascii.eqb c CR) && negb (Ascii.eqb c LF)) s = true).
  { intros s H. unfold clean_text in H. rewrite !andb_true_iff in H.
    destruct H as [[H _] _]. apply (all_chars_impl plain_char); auto.
    intros c Hc. now rewrite (plain_char_no_cr c Hc), (plain_char_no_lf c Hc). }
  induction fields as [|x r IH]; [congruence|]. intros _ H.
  inversion H as [|? ? Hx Hr]; subst.
  destruct r as [|y r].
  - cbn [PyStr.join]. pose proof (P x Hx) as Px.
    unfold clean_text in Hx. rewrite !andb_true_iff in Hx.
    repeat split; tauto.
  - change (PyStr.join "," (x :: y :: r)) with (x ++ String "," (PyStr.join "," (y :: r)))%string.
    destruct (IH ltac:(discriminate) Hr) as [IH1 [IH2 IH3]].
    repeat split.
    + rewrite all_chars_app. cbn [all_chars]. rewrite (P x Hx), IH1. reflexivity.
    + rewrite first_char_app by now apply clean_text_nonempty.
      unfold clean_text in Hx. rewrite !andb_true_iff in Hx. tauto.
    + rewrite last_char_app by discriminate.
      assert (E : last_char (String "," (PyStr.join "," (y :: r)))
                  = last_char (PyStr.join "," (y :: r))).
      { cbn [last_char]. destruct (last_char (PyStr.join "," (y :: r))); [reflexivity|discriminate]. }
      now rewrite E.
Qed.

Lemma rstrip_spaces w : all_chars PyStr.isspace w = true -> PyStr.rstrip w = EmptyString.
Proof.
  induction w as [|c w IH]; [reflexivity|].
  cbn [all_chars]. rewrite andb_true_iff. intros [Hc Hw].
  cbn [PyStr.rstrip]. now rewrite (IH Hw), Hc.
Qed.

Lemma rstrip_app_spaces s w :
  all_chars PyStr.isspace w = true -> PyStr.rstrip (s ++ w) = PyStr.rstrip s.
Proof.
  intros Hw. induction s as [|c s IH].
  - simpl. now apply rstrip_spaces.
  - cbn [append PyStr.rstrip]. now rewrite IH.
Qed.

Lemma rstrip_last s : not_blank (last_char s) = true -> PyStr.rstrip s = s.
Proof.
  induction s as [|c s IH]; [discriminate|].
  cbn [last_char PyStr.rstrip]. destruct (last_char s) as [x|] eqn:E.
  - intros H. rewrite (IH H). destruct s; [discriminate|reflexivity].
  - apply last_char_none in E. subst. simpl. intros H.
    apply negb_true_iff in H. now rewrite H.
Qed.

(** Stripping the line of a row gives the line without its line feed. *)
Lemma strip_line line :
  not_blank (first_char line) = true -> not_blank (last_char line) = true ->
  PyStr.strip (line ++ NL) = line.
Proof.
  intros Hf Hl. unfold PyStr.strip. destruct line as [|c r]; [discriminate|].
  simpl in Hf. apply negb_true_iff in Hf.
  change ((String c r ++ NL)%string) with (String c (r ++ NL)).
  rewrite (lstrip_head c (r ++ NL) Hf).
  change (String c (r ++ NL)) with ((String c r ++ NL)%string).
  rewrite rstrip_app_spaces by reflexivity. now apply rstrip_last.
Qed.

(** *** Reading lines *)

Lemma universal_newlines_plain s :
  all_chars (fun c => negb (Ascii.eqb c CR)) s = true ->
  StorageEngine.universal_newlines false s = s.
Proof.
  induction s as [|c r IH]; [reflexivity|].
  cbn [all_chars]. rewrite andb_true_iff, negb_true_iff. intros [Hc Hr].
  cbn [StorageEngine.universal_newlines]. rewrite Hc, (IH Hr).
  destruct (Ascii.eqb c LF) eqn:E; [apply Ascii.eqb_eq in E; subst|]; reflexivity.
Qed.

Lemma split_lines_line line rest :
  all_chars (fun c => negb (Ascii.eqb c LF)) line = true ->
  StorageEngine.split_lines (line ++ NL ++ rest)
  = (line ++ NL)%string :: StorageEngine.split_lines rest.
Proof.
  induction line as [|c r IH].
  - intros _. reflexivity.
  - cbn [all_chars]. rewrite andb_true_iff, negb_true_iff. intros [Hc Hr].
    cbn [append StorageEngine.split_lines]. rewrite Hc.
    change (r ++ String LF rest)%string with (r ++ NL ++ rest)%string.
    now rewrite (IH Hr).
Qed.

Lemma terminated_cons c r :
  r <> EmptyString -> terminated (String c r) = terminated r.
Proof.
  intros Hr. unfold terminated. cbn [last_char].
  destruct (last_char r) eqn:E; auto. apply last_char_none in E. contradiction.
Qed.

Lemma terminated_single c : terminated (String c EmptyString) = Ascii.eqb c LF.
Proof. reflexivity. Qed.

Lemma universal_newlines_terminated a :
  a <> EmptyString -> terminated a = true ->
  (StorageEngine.universal_newlines false a <> EmptyString
   /\ terminated (StorageEngine.universal_newlines false a) = true)
  /\ terminated (StorageEngine.universal_newlines true a) = true.
Proof.
  induction a as [|c r IH]; [congruence|]. intros _ H.
  destruct r as [|d r].
  - rewrite terminated_single in H.
    cbn [StorageEngine.universal_newlines]. rewrite H.
    destruct (Ascii.eqb c CR); repeat split; try discriminate; auto.
  - rewrite terminated_cons in H by discriminate.
    destruct (IH ltac:(discriminate) H) as [[IH1 IH2] IH3].
    assert (T : forall s, terminated s = true -> terminated (String LF s) = true).
    { intros s Hs. destruct s; [reflexivity|]. now rewrite terminated_cons by discriminate. }
    cbn [StorageEngine.universal_newlines].
    cbn [StorageEngine.universal_newlines] in IH1, IH2, IH3.
    destruct (Ascii.eqb c CR).
    + repeat split; try discriminate; auto.
    + destruct (Ascii.eqb c LF).
      * repeat split; try discriminate; auto.
      * repeat split; try discriminate; rewrite terminated_cons; auto.
Qed.

Lemma universal_newlines_app_gen a b st :
  a <> EmptyString -> terminated a = true ->
  StorageEngine.universal_newlines st (a ++ b)
  = (StorageEngine.universal_newlines st a ++ StorageEngine.universal_newlines false b)%string.
Proof.
  revert st. induction a as [|c r IH]; [congruence|]. intros st _ H.
  destruct r as [|d r].
  - rewrite terminated_single in H.
    cbn [append StorageEngine.universal_newlines]. rewrite H.
    assert (E : Ascii.eqb c CR = false).
    { apply Ascii.eqb_eq in H. subst. reflexivity. }
    rewrite E. now destruct st.
  - rewrite terminated_cons in H by discriminate.
    change ((String c (String d r) ++ b)%string) with (String c (String d r ++ b)).
    cbn [StorageEngine.universal_newlines].
    destruct (Ascii.eqb c CR).
    + now rewrite (IH true ltac:(discriminate) H).
    + destruct (Ascii.eqb c LF).
      * destruct st; now rewrite (IH false ltac:(discriminate) H).
      * now rewrite (IH false ltac:(discriminate) H).
Qed.

Lemma split_lines_nonempty s : s <> EmptyString -> StorageEngine.split_lines s <> [].
Proof.
  destruct s as [|c r]; [congruence|]. intros _. cbn [StorageEngine.split_lines].
  destruct (Ascii.eqb c LF); [discriminate|].
  destruct (StorageEngine.split_lines r); discriminate.
Qed.

Lemma split_lines_app x y :
  terminated x = true ->
  StorageEngine.split_lines (x ++ y)
  = StorageEngine.split_lines x ++ StorageEngine.split_lines y.
Proof.
  induction x as [|c r IH]; [reflexivity|]. intros H.
  cbn [append StorageEngine.split_lines].
  destruct r as [|d r].
  - rewrite terminated_single in H. rewrite H. reflexivity.
  - rewrite terminated_cons in H by discriminate.
    rewrite (IH H). destruct (Ascii.eqb c LF); [reflexivity|].
    pose proof (split_lines_nonempty (String d r) ltac:(discriminate)) as N.
    destruct (StorageEngine.split_lines (String d r)); [congruence|reflexivity].
Qed.

(** Appending to a text whose last line is complete appends its lines. *)
Lemma readlines_app a b :
  terminated a = true ->
  StorageEngine.readlines (a ++ b) = StorageEngine.readlines a ++ StorageEngine.readlines b.
Proof.
  intros H. unfold StorageEngine.readlines.
  destruct a as [|c r]; [reflexivity|].
  rewrite universal_newlines_app_gen by (auto; discriminate).
  apply split_lines_app.
  now apply universal_newlines_terminated.
Qed.

Lemma readlines_line line :
  all_chars (fun c => negb (Ascii.eqb c CR) && negb (Ascii.eqb c LF)) line = true ->
  StorageEngine.readlines (line ++ NL) = [(line ++ NL)%string].
Proof.
  intros H. unfold StorageEngine.readlines.
  rewrite universal_newlines_plain.
  - replace (line ++ NL)%string with (line ++ NL ++ EmptyString)%string by reflexivity.
    rewrite split_lines_line; [reflexivity|].
    apply (all_chars_impl _ _ _ (fun c Hc => proj2 (proj1 (andb_true_iff _ _) Hc)) H).
  - rewrite all_chars_app, andb_true_iff. split; [|reflexivity].
    apply (all_chars_impl _ _ _ (fun c Hc => proj1 (proj1 (andb_true_iff _ _) Hc)) H).
Qed.

Lemma read_lines_app sch k l1 l2 r1 r2 :
  StorageEngine.read_lines sch k l1 = Ok r1 ->
  StorageEngine.read_lines sch (k + List.length l1) l2 = Ok r2 ->
  StorageEngine.read_lines sch k (l1 ++ l2) = Ok (r1 ++ r2).
Proof.
  revert k r1. induction l1 as [|line l1 IH]; intros k r1 H1 H2.
  - simpl in *. inversion H1. now rewrite Nat.add_0_r in H2.
  - cbn [app StorageEngine.read_lines List.length] in *.
    rewrite Nat.add_succ_r, <- Nat.add_succ_l in H2.
    destruct (PyStr.strip line) as [|c s].
    + now apply IH.
    + destruct (StorageEngine.decode_fields (TableSchema.columns sch)
                  (PyStr.split "," (String c s)) []) as [row|e]; [|discriminate].
      cbn [rbind] in *.
      destruct (StorageEngine.read_lines sch (S k) l1) as [rows|e] eqn:E; [|discriminate].
      cbn [rbind] in H1. inversion H1; subst.
      rewrite (IH (S k) rows E H2). reflexivity.
Qed.

(** *** Decoding the fields of a row *)

Lemma sset_keys_nodup {V} (d : sdict V) k v :
  NoDup (PyDict.keys d) -> NoDup (PyDict.keys (sset d k v)).
Proof.
  intros H. destruct (sget d k) as [x|] eqn:E.
  - assert (K : PyDict.keys (sset d k v) = PyDict.keys d); [|now rewrite K].
    clear H. unfold sget, sset, PyDict.keys in *.
    induction d as [|[k0 v0] d IH]; [discriminate|]. simpl in *.
    destruct (String.eqb k0 k); simpl; auto. now rewrite IH.
  - rewrite sset_fresh by auto. unfold PyDict.keys in *. rewrite map_app. simpl.
    apply NoDup_app; auto.
    + repeat constructor. intros [].
    + intros x Hx [<-|[]]. apply sget_none_keys in E. now apply E.
Qed.

Lemma of_pairs_keys_nodup {V} (l : sdict V) : NoDup (PyDict.keys (PyDict.of_pairs String.eqb l)).
Proof.
  unfold PyDict.of_pairs.
  assert (G : forall acc : sdict V, NoDup (PyDict.keys acc) ->
            NoDup (PyDict.keys (fold_left (fun d kv => PyDict.set String.eqb d (fst kv) (snd kv))
                                          l acc))).
  { induction l as [|[k v] l IH]; intros acc H; simpl; auto.
    apply IH. now apply (sset_keys_nodup acc k v). }
  apply G. constructor.
Qed.

Lemma load_schema_keys_nodup f t sch :
  StorageEngine.load_schema f t = Ok sch -> NoDup (PyDict.keys (TableSchema.columns sch)).
Proof.
  unfold StorageEngine.load_schema. destruct (sget f (StorageEngine.schema_path t)) as [[| |]|];
    try discriminate.
  intros H. inversion H. apply of_pairs_keys_nodup.
Qed.

Lemma decode_fields_encode (cols : sdict Column.t) row acc :
  forallb (fun kc => storable (snd kc) (row_get row (fst kc))) cols = true ->
  StorageEngine.decode_fields cols
    (map (fun col_name => StorageEngine.encode_field (row_get row col_name)) (PyDict.keys cols)) acc
  = Ok (fold_left (fun d kc => sset d (fst kc) (row_get row (fst kc))) cols acc).
Proof.
  revert acc. induction cols as [|[k c] cols IH]; intros acc H; [reflexivity|].
  cbn [forallb fst snd] in H. apply andb_true_iff in H. destruct H as [Hc Hr].
  cbn [PyDict.keys map fst StorageEngine.decode_fields fold_left snd].
  rewrite (field_round_trip_ok c _ Hc). cbn [rbind]. apply IH, Hr.
Qed.

Lemma fold_sset_fresh (cols : sdict Column.t) (row acc : sdict value) :
  NoDup (PyDict.keys acc ++ PyDict.keys cols) ->
  fold_left (fun d kc => sset d (fst kc) (row_get row (fst kc))) cols acc
  = acc ++ map (fun kc => (fst kc, row_get row (fst kc))) cols.
Proof.
  revert acc. induction cols as [|[k c] cols IH]; intros acc H; simpl.
  - now rewrite app_nil_r.
  - rewrite sset_fresh.
    + rewrite IH; [now rewrite <- app_assoc|].
      unfold PyDict.keys in *. rewrite map_app. simpl in *. now rewrite <- app_assoc.
    + apply sget_none_keys. simpl in H. apply NoDup_remove_2 in H.
      intros Hin. apply H. apply in_or_app. auto.
Qed.

Lemma clean_row_storable sch row :
  clean_row sch row = true ->
  forallb (fun kc => storable (snd kc) (row_get row (fst kc))) (TableSchema.columns sch) = true.
Proof.
  unfold clean_row. rewrite !forallb_forall. intros H kc Hin.
  specialize (H kc Hin). unfold clean in H. apply andb_true_iff in H. tauto.
Qed.

Lemma clean_row_fields sch row :
  clean_row sch row = true ->
  Forall (fun s => clean_text s = true) (StorageEngine.encode_fields sch row).
Proof.
  unfold clean_row, StorageEngine.encode_fields, PyDict.keys. rewrite forallb_forall.
  intros H. rewrite map_map. apply Forall_forall. intros s Hs.
  apply in_map_iff in Hs. destruct Hs as [kc [<- Hin]].
  apply (clean_field (snd kc)). now apply H.
Qed.

Lemma encode_fields_nonempty sch row :
  TableSchema.columns sch <> [] -> StorageEngine.encode_fields sch row <> [].
Proof.
  unfold StorageEngine.encode_fields, PyDict.keys.
  destruct (TableSchema.columns sch); [congruence|discriminate].
Qed.

(** The one line of a clean row reads back as the stored row. *)
Lemma read_line_of_row sch row k :
  NoDup (PyDict.keys (TableSchema.columns sch)) ->
  TableSchema.columns sch <> [] ->
  clean_row sch row = true ->
  StorageEngine.read_lines sch k [StorageEngine.encode_line sch row]
  = Ok [Row.mk (stored_row sch row) k].
Proof.
  intros Hnd Hne Hclean.
  pose proof (clean_row_fields sch row Hclean) as Hf.
  pose proof (encode_fields_nonempty sch row Hne) as Hn.
  destruct (join_clean _ Hn Hf) as [_ [J1 J2]].
  unfold StorageEngine.encode_line. cbn [StorageEngine.read_lines].
  rewrite (strip_line _ J1 J2).
  destruct (PyStr.join "," (StorageEngine.encode_fields sch row)) as [|c s] eqn:E;
    [discriminate|].
  rewrite <- E, (split_join _ Hn Hf).
  unfold StorageEngine.encode_fields at 1.
  rewrite (decode_fields_encode _ row [] (clean_row_storable sch row Hclean)).
  cbn [rbind]. rewrite (fold_sset_fresh _ row [] Hnd). reflexivity.
Qed.

(** X9.  The row file gives a clean row back: the line written for the row is
    read as one row, which holds the value of the row for every column of
    the schema ([None] for a column the row has no key for) and nothing
    else. *)
Theorem row_round_trip n cols row k :
  TableSchema.columns (TableSchema.init n cols) <> [] ->
  clean_row (TableSchema.init n cols) row = true ->
  StorageEngine.read_lines (TableSchema.init n cols) k
    (StorageEngine.readlines (StorageEngine.encode_line (TableSchema.init n cols) row))
  = Ok [Row.mk (stored_row (TableSchema.init n cols) row) k].
Proof.
  intros Hne Hclean. set (sch := TableSchema.init n cols) in *.
  assert (Hnd : NoDup (PyDict.keys (TableSchema.columns sch))) by apply of_pairs_keys_nodup.
  pose proof (clean_row_fields sch row Hclean) as Hf.
  pose proof (encode_fields_nonempty sch row Hne) as Hn.
  destruct (join_clean _ Hn Hf) as [J _].
  unfold StorageEngine.encode_line at 1. rewrite (readlines_line _ J).
  now apply read_line_of_row.
Qed.

Lemma row_round_trip_witness :
  let cols := [Column.mk "id" INTEGER None true false false;
               Column.mk "name" VARCHAR (Some 50%Z) false false true] in
  let row := [("name", VStr "Ada Lovelace"); ("id", VInt (-7)%Z); ("age", VInt 36%Z)] in
  TableSchema.columns (TableSchema.init "members" cols) <> []
  /\ clean_row (TableSchema.init "members" cols) row = true
  /\ StorageEngine.read_lines (TableSchema.init "members" cols) 3
       (StorageEngine.readlines (StorageEngine.encode_line (TableSchema.init "members" cols) row))
     = Ok [Row.mk (stored_row (TableSchema.init "members" cols) row) 3].
Proof.
  assert (H1 : TableSchema.columns
                 (TableSchema.init "members"
                    [Column.mk "id" INTEGER None true false false;
                     Column.mk "name" VARCHAR (Some 50%Z) false false true]) <> [])
    by (vm_compute; discriminate).
  split; [exact H1|]. split; [vm_compute; reflexivity|].
  exact (row_round_trip "members" _
           [("name", VStr "Ada Lovelace"); ("id", VInt (-7)%Z); ("age", VInt 36%Z)] 3
           H1 eq_refl).
Defined.

(** *** [insert_row] and [read_rows] *)

Lemma load_schema_sset_table f t t' x :
  StorageEngine.load_schema (sset f (StorageEngine.table_path t') x) t
  = StorageEngine.load_schema f t.
Proof.
  unfold StorageEngine.load_schema. rewrite sget_sset_other; auto.
  intros H. pose proof (last_char_table_path t') as L. rewrite H in L.
  unfold StorageEngine.schema_path in L. rewrite last_char_app in L by discriminate.
  discriminate.
Qed.

Lemma read_rows_text f t sch c :
  StorageEngine.load_schema f t = Ok sch ->
  sget f (StorageEngine.table_path t) = Some (TextFile c) ->
  StorageEngine.read_rows f t = StorageEngine.read_lines sch 1 (StorageEngine.readlines c).
Proof.
  intros Hs Hc. unfold StorageEngine.read_rows, StorageEngine.exists_, smem, PyDict.mem.
  unfold sget in Hc. rewrite Hc. cbn [negb]. rewrite Hs. cbn [rbind].
  unfold StorageEngine.read_text, sget. rewrite Hc. reflexivity.
Qed.

Lemma read_rows_absent f t :
  sget f (StorageEngine.table_path t) = None -> StorageEngine.read_rows f t = Ok [].
Proof.
  intros Hc. unfold StorageEngine.read_rows, StorageEngine.exists_, smem, PyDict.mem.
  unfold sget in Hc. now rewrite Hc.
Qed.

Lemma terminated_line a line : terminated (a ++ line ++ NL) = true.
Proof.
  unfold terminated. rewrite !last_char_app by (try discriminate; destruct line; discriminate).
  reflexivity.
Qed.

(** The text of the row file of a table on a file system. *)
Lemma insert_row_appends f t sch row rows :
  StorageEngine.load_schema f t = Ok sch ->
  TableSchema.columns sch <> [] ->
  clean_row sch row = true ->
  table_terminated f t = true ->
  StorageEngine.read_rows f t = Ok rows ->
  exists rowid c,
    StorageEngine.insert_row f t row
    = (Ok rowid, sset (if StorageEngine.exists_ f (StorageEngine.table_path t) then f
                       else sset f (StorageEngine.table_path t) (TextFile EmptyString))
                      (StorageEngine.table_path t) (TextFile c))
    /\ terminated c = true
    /\ StorageEngine.read_lines sch 1 (StorageEngine.readlines c)
       = Ok (rows ++ [Row.mk (stored_row sch row) rowid]).
Proof.
  intros Hs Hne Hclean Hterm Hrows.
  pose proof (load_schema_keys_nodup f t sch Hs) as Hnd.
  pose proof (clean_row_fields sch row Hclean) as Hf.
  pose proof (encode_fields_nonempty sch row Hne) as Hn.
  destruct (join_clean _ Hn Hf) as [J _].
  assert (Hline : StorageEngine.readlines (StorageEngine.encode_line sch row)
                  = [StorageEngine.encode_line sch row]).
  { unfold StorageEngine.encode_line. now apply readlines_line. }
  unfold StorageEngine.insert_row.
  assert (Hs1 : StorageEngine.load_schema
                  (if StorageEngine.exists_ f (StorageEngine.table_path t) then f
                   else sset f (StorageEngine.table_path t) (TextFile EmptyString)) t = Ok sch).
  { destruct (StorageEngine.exists_ f (StorageEngine.table_path t)); auto.
    now rewrite load_schema_sset_table. }
  rewrite Hs1.
  unfold table_terminated in Hterm.
  destruct (sget f (StorageEngine.table_path t)) as [[c| |]|] eqn:Hfile; try discriminate.
  - exists (List.length (StorageEngine.readlines (c ++ StorageEngine.encode_line sch row))).
    exists (c ++ StorageEngine.encode_line sch row)%string.
    split; [reflexivity|]. split; [apply terminated_line|].
    rewrite (read_rows_text f t sch c Hs Hfile) in Hrows.
    rewrite (readlines_app _ _ Hterm), Hline.
    apply read_lines_app; auto.
    rewrite length_app. cbn [List.length]. rewrite (Nat.add_comm _ 1).
    now apply read_line_of_row.
  - exists (List.length (StorageEngine.readlines (EmptyString ++ StorageEngine.encode_line sch row))).
    exists (EmptyString ++ StorageEngine.encode_line sch row)%string.
    split; [reflexivity|]. split; [apply (terminated_line EmptyString)|].
    rewrite (read_rows_absent f t Hfile) in Hrows. inversion Hrows; subst.
    cbn [append app]. rewrite Hline. cbn [List.length].
    now apply read_line_of_row.
Qed.

Lemma insert_row_read_rows_ok f t sch row rows :
  StorageEngine.load_schema f t = Ok sch ->
  TableSchema.columns sch <> [] ->
  clean_row sch row = true ->
  table_terminated f t = true ->
  StorageEngine.read_rows f t = Ok rows ->
  exists rowid f',
    StorageEngine.insert_row f t row = (Ok rowid, f')
    /\ StorageEngine.read_rows f' t = Ok (rows ++ [Row.mk (stored_row sch row) rowid])
    /\ table_terminated f' t = true
    /\ StorageEngine.load_schema f' t = Ok sch
    /\ forall q, q <> StorageEngine.table_path t -> sget f' q = sget f q.
Proof.
  intros Hs Hne Hclean Hterm Hrows.
  destruct (insert_row_appends f t sch row rows Hs Hne Hclean Hterm Hrows)
    as [rowid [c [Hins [Hc Hread]]]].
  exists rowid. eexists. split; [exact Hins|].
  assert (Hs1 : StorageEngine.load_schema
                  (if StorageEngine.exists_ f (StorageEngine.table_path t) then f
                   else sset f (StorageEngine.table_path t) (TextFile EmptyString)) t = Ok sch).
  { destruct (StorageEngine.exists_ f (StorageEngine.table_path t)); auto.
    now rewrite load_schema_sset_table. }
  repeat split.
  - rewrite (read_rows_text _ t sch c); auto.
    + now rewrite load_schema_sset_table.
    + apply sget_sset_same.
  - unfold table_terminated. now rewrite sget_sset_same.
  - now rewrite load_schema_sset_table.
  - intros q Hq. rewrite sget_sset_other by congruence.
    destruct (StorageEngine.exists_ f (StorageEngine.table_path t)); auto.
    now rewrite sget_sset_other by congruence.
Qed.



(** ** The rowids of the rows read *)

Lemma read_lines_rowids sch k lines rows :
  StorageEngine.read_lines sch k lines = Ok rows ->
  StronglySorted Nat.lt (map Row.rowid rows)
  /\ Forall (fun r => k <= Row.rowid r < k + List.length lines) rows.
Proof.
  revert k rows. induction lines as [|line lines IH]; intros k rows H.
  - inversion H. split; constructor.
  - cbn [StorageEngine.read_lines] in H.
    assert (W : forall rs, Forall (fun r => S k <= Row.rowid r < S k + List.length lines) rs ->
                Forall (fun r => k <= Row.rowid r < k + List.length (line :: lines)) rs).
    { intros rs. apply Forall_impl. intros r Hr. cbn [List.length]. lia. }
    destruct (PyStr.strip line) as [|c s].
    + destruct (IH (S k) rows H) as [H1 H2]. auto.
    + destruct (StorageEngine.decode_fields _ _ _) as [row|e]; [|discriminate].
      cbn [rbind] in H.
      destruct (StorageEngine.read_lines sch (S k) lines) as [rs|e] eqn:E; [|discriminate].
      cbn [rbind] in H. inversion H. subst rows.
      destruct (IH (S k) rs E) as [H1 H2]. split.
      * cbn [map Row.rowid]. constructor; auto.
        apply Forall_map. revert H2. apply Forall_impl. intros r Hr. unfold Nat.lt. lia.
      * constructor; [cbn [Row.rowid List.length]; lia|auto].
Qed.

(** X11.  The rowid of a row read is the number of its line: the rows that
    [read_rows] returns have rowids that are at least 1 and strictly
    increasing, so no two rows share a rowid. *)
Theorem read_rows_rowids f t rows :
  StorageEngine.read_rows f t = Ok rows ->
  StronglySorted Nat.lt (map Row.rowid rows) /\ Forall (fun r => 1 <= Row.rowid r) rows.
Proof.
  unfold StorageEngine.read_rows.
  destruct (negb (StorageEngine.exists_ f (StorageEngine.table_path t))).
  - intros H. inversion H. split; constructor.
  - destruct (StorageEngine.load_schema f t) as [sch|e]; [|discriminate]. cbn [rbind].
    destruct (StorageEngine.read_text f (StorageEngine.table_path t)) as [c|e];
      [|discriminate].
    cbn [rbind]. intros H. destruct (read_lines_rowids _ _ _ _ H) as [H1 H2].
    split; auto. revert H2. apply Forall_impl. intros r Hr. lia.
Qed.

Lemma read_rows_rowids_witness :
  let rows := [Row.mk [("id", VInt 10%Z)] 1; Row.mk [("id", VInt 20%Z)] 2] in
  StorageEngine.read_rows (fs (snd (Database.run Database.init two_rows))) "t" = Ok rows
  /\ StronglySorted Nat.lt (map Row.rowid rows)
  /\ Forall (fun r => 1 <= Row.rowid r) rows.
Proof.
  assert (H : StorageEngine.read_rows (fs (snd (Database.run Database.init two_rows))) "t"
              = Ok [Row.mk [("id", VInt 10%Z)] 1; Row.mk [("id", VInt 20%Z)] 2])
    by (vm_compute; reflexivity).
  split; [exact H|].
  exact (read_rows_rowids (fs (snd (Database.run Database.init two_rows))) "t" _ H).
Defined.

(** ** core/executor.py: indexes and CREATE TABLE *)

Lemma sset_sset {V} (d : sdict V) k a b : sset (sset d k a) k b = sset d k b.
Proof. apply (dict_set_set String.eqb String.eqb_refl). Qed.

Lemma built_index_get column_name rows i v r :
  In r (Index.get
          (fold_left (fun i row =>
                        match sget (Row.values row) column_name with
                        | Some w => Index.add i w (Row.rowid row)
                        | None => i
                        end) rows i) v)
  <-> In r (Index.get i v)
      \/ exists row w, In row rows /\ Row.rowid row = r
                       /\ sget (Row.values row) column_name = Some w
                       /\ PyVal.py_eq w v = true.
Proof.
  revert i. induction rows as [|row rows IH]; intros i; simpl.
  - split; auto. intros [H|[row [w [[] _]]]]. exact H.
  - rewrite IH. clear IH. split.
    + intros [H|[row' [w [Hin H]]]].
      * destruct (sget (Row.values row) column_name) as [w|] eqn:E; auto.
        destruct (PyVal.py_eq w v) eqn:P.
        -- apply (index_get_add_same i w (Row.rowid row) v r P) in H.
           destruct H as [->|H]; auto. right. exists row, w. auto.
        -- rewrite (index_get_add_other i w (Row.rowid row) v P) in H. auto.
      * right. exists row', w. tauto.
    + intros [H|[row' [w [[<-|Hin] [Hr [Hw P]]]]]].
      * left. destruct (sget (Row.values row) column_name) as [w|] eqn:E; auto.
        destruct (PyVal.py_eq w v) eqn:P.
        -- apply (index_get_add_same i w (Row.rowid row) v r P). auto.
        -- now rewrite (index_get_add_other i w (Row.rowid row) v P).
      * left. rewrite Hw. apply (index_get_add_same i w (Row.rowid row) v r P). auto.
      * right. exists row', w. auto.
Qed.

Lemma table_indexes_set st t d :
  QueryExecutor.table_indexes (QueryExecutor.with_indexes st (sset (indexes st) t d)) t = d.
Proof.
  unfold QueryExecutor.table_indexes. cbn [QueryExecutor.with_indexes indexes].
  now rewrite sget_sset_same.
Qed.

(** What [_create_index] returns, once the rows of the table are read. *)
Lemma create_index_spec st t c rows :
  StorageEngine.read_rows (fs st) t = Ok rows ->
  QueryExecutor._create_index st t c
  = (Ok tt,
     mk_state (Index_save (fs st) (built_index t c rows))
              (sset (indexes st) t
                    (sset (QueryExecutor.table_indexes st t) c (built_index t c rows)))).
Proof.
  intros Hrows. unfold QueryExecutor._create_index.
  unfold QueryExecutor.with_indexes, QueryExecutor.with_fs, QueryExecutor.table_indexes.
  cbn [fs indexes]. rewrite Hrows. cbn [fs indexes].
  rewrite sget_sset_same, !sset_sset. fold (built_index t c rows).
  f_equal. f_equal.
  assert (D : match sget (if smem (indexes st) t then indexes st
                          else sset (indexes st) t []) t with
              | Some d => d
              | None => []
              end
              = match sget (indexes st) t with Some d => d | None => [] end).
  { unfold smem, PyDict.mem. fold (sget (indexes st) t).
    destruct (sget (indexes st) t) eqn:E; [now rewrite E|now rewrite sget_sset_same]. }
  rewrite D.
  destruct (smem (indexes st) t); [reflexivity|apply sset_sset].
Qed.

(** X5.  [_create_index] on a table whose rows can be read builds the index of
    the column from the rows, caches it and saves it: the bucket of a
    value holds exactly the rowids of the rows whose value for the column
    is equal to it. *)
Theorem create_index_agrees st t c rows :
  StorageEngine.read_rows (fs st) t = Ok rows ->
  exists st' idx,
    QueryExecutor._create_index st t c = (Ok tt, st')
    /\ sget (QueryExecutor.table_indexes st' t) c = Some idx
    /\ sget (fs st') (StorageEngine.index_path t c) = Some (IndexFile (Index.index idx))
    /\ forall v r,
         In r (Index.get idx v)
         <-> exists row w, In row rows /\ Row.rowid row = r
                           /\ sget (Row.values row) c = Some w
                           /\ PyVal.py_eq w v = true.
Proof.
  intros Hrows. rewrite (create_index_spec st t c rows Hrows).
  do 2 eexists. split; [reflexivity|]. split; [|split].
  - unfold QueryExecutor.table_indexes. cbn [indexes]. rewrite sget_sset_same.
    apply sget_sset_same.
  - cbn [fs]. unfold Index_save.
    assert (N : forall rs i, Index.t_name (fold_left (fun i row =>
                  match sget (Row.values row) c with
                  | Some w => Index.add i w (Row.rowid row)
                  | None => i
                  end) rs i) = Index.t_name i
                /\ Index.column_name (fold_left (fun i row =>
                  match sget (Row.values row) c with
                  | Some w => Index.add i w (Row.rowid row)
                  | None => i
                  end) rs i) = Index.column_name i).
    { induction rs as [|row rs IH]; intros i; simpl; auto.
      destruct (IH (match sget (Row.values row) c with
                    | Some w => Index.add i w (Row.rowid row)
                    | None => i
                    end)) as [H1 H2].
      rewrite H1, H2. destruct (sget (Row.values row) c); auto. }
    destruct (N rows (Index.init t c)) as [N1 N2].
    unfold built_index. rewrite N1, N2. cbn [Index.init Index.t_name Index.column_name].
    apply sget_sset_same.
  - intros v r. unfold built_index. rewrite built_index_get.
    split; [intros [[]|H]; exact H|auto].
Qed.

Lemma create_index_agrees_witness :
  StorageEngine.read_rows (fs members_db) "members"
  = Ok [Row.mk [("id", VInt 1%Z); ("name", VStr "Alice")] 1]
  /\ exists st' idx,
       QueryExecutor._create_index members_db "members" "name" = (Ok tt, st')
       /\ sget (QueryExecutor.table_indexes st' "members") "name" = Some idx
       /\ sget (fs st') (StorageEngine.index_path "members" "name")
          = Some (IndexFile (Index.index idx))
       /\ forall v r,
            In r (Index.get idx v)
            <-> exists row w,
                  In row [Row.mk [("id", VInt 1%Z); ("name", VStr "Alice")] 1]
                  /\ Row.rowid row = r
                  /\ sget (Row.values row) "name" = Some w
                  /\ PyVal.py_eq w v = true.
Proof.
  assert (H : StorageEngine.read_rows (fs members_db) "members"
              = Ok [Row.mk [("id", VInt 1%Z); ("name", VStr "Alice")] 1])
    by (vm_compute; reflexivity).
  split; [exact H|].
  exact (create_index_agrees members_db "members" "name" _ H).
Defined.

Lemma readlines_empty : StorageEngine.readlines EmptyString = [].
Proof. reflexivity. Qed.

Lemma read_rows_empty f t sch :
  StorageEngine.load_schema f t = Ok sch ->
  sget f (StorageEngine.table_path t) = Some (TextFile EmptyString) ->
  StorageEngine.read_rows f t = Ok [].
Proof.
  intros Hs Hc. now rewrite (read_rows_text f t sch EmptyString Hs Hc).
Qed.

Lemma index_path_not_table_path t c t' :
  StorageEngine.index_path t c <> StorageEngine.table_path t'.
Proof.
  intros E. pose proof (last_char_index_path t c) as L. rewrite E, last_char_table_path in L.
  discriminate.
Qed.

Lemma last_char_schema_path t : last_char (StorageEngine.schema_path t) = Some "a"%char.
Proof. unfold StorageEngine.schema_path. now rewrite last_char_app. Qed.

Lemma index_path_not_schema_path t c t' :
  StorageEngine.index_path t c <> StorageEngine.schema_path t'.
Proof.
  intros E. pose proof (last_char_index_path t c) as L. rewrite E, last_char_schema_path in L.
  discriminate.
Qed.

Lemma load_schema_index_save f i t :
  StorageEngine.load_schema (Index_save f i) t = StorageEngine.load_schema f t.
Proof.
  unfold StorageEngine.load_schema, Index_save.
  now rewrite sget_sset_other by apply index_path_not_schema_path.
Qed.

(** The loop of CREATE TABLE over the columns, on an empty table. *)
Lemma create_indexes_empty t sch cols st :
  StorageEngine.load_schema (fs st) t = Ok sch ->
  sget (fs st) (StorageEngine.table_path t) = Some (TextFile EmptyString) ->
  exists st',
    QueryExecutor.create_indexes st t cols = (Ok tt, st')
    /\ StorageEngine.load_schema (fs st') t = Ok sch
    /\ sget (fs st') (StorageEngine.table_path t) = Some (TextFile EmptyString)
    /\ QueryExecutor.table_indexes st' t
       = fold_left (fun d col => if indexed col
                                 then sset d (Column.name col) (Index.init t (Column.name col))
                                 else d)
                   cols (QueryExecutor.table_indexes st t).
Proof.
  revert st. induction cols as [|col cols IH]; intros st Hs Hc.
  - exists st. cbn [QueryExecutor.create_indexes fold_left]. auto.
  - cbn [QueryExecutor.create_indexes fold_left]. fold (indexed col).
    destruct (indexed col).
    + rewrite (create_index_spec st t (Column.name col) [] (read_rows_empty _ t sch Hs Hc)).
      match goal with |- context [QueryExecutor.create_indexes ?s t cols] =>
        destruct (IH s) as [st' [H1 [H2 [H3 H4]]]]
      end.
      * cbn [fs]. now rewrite load_schema_index_save.
      * cbn [fs]. unfold Index_save.
        now rewrite sget_sset_other by apply index_path_not_table_path.
      * exists st'. rewrite H1. repeat split; auto.
        rewrite H4. f_equal. unfold QueryExecutor.table_indexes at 1. cbn [indexes].
        now rewrite sget_sset_same.
    + apply IH; auto.
Qed.

Lemma fold_indexed_get t cols (d : sdict Index.t) col :
  In col cols -> indexed col = true ->
  sget (fold_left (fun d col => if indexed col
                                then sset d (Column.name col) (Index.init t (Column.name col))
                                else d) cols d) (Column.name col)
  = Some (Index.init t (Column.name col)).
Proof.
  assert (K : forall cols d name,
            sget d name = Some (Index.init t name) ->
            sget (fold_left (fun d col => if indexed col
                                          then sset d (Column.name col)
                                                    (Index.init t (Column.name col))
                                          else d) cols d) name
            = Some (Index.init t name)).
  { clear. induction cols as [|c cols IH]; intros d name H; simpl; auto.
    apply IH. destruct (indexed c); auto.
    destruct (String.eqb (Column.name c) name) eqn:E.
    - apply String.eqb_eq in E. subst. apply sget_sset_same.
    - apply String.eqb_neq in E. now rewrite sget_sset_other. }
  revert d. induction cols as [|c cols IH]; intros d Hin Hi; [contradiction|].
  simpl. destruct Hin as [->|Hin].
  - rewrite Hi. apply K. apply sget_sset_same.
  - now apply IH.
Qed.

Lemma sset_in {V} (d : sdict V) k v k1 v1 :
  In (k1, v1) (sset d k v) -> In (k1, v1) d \/ (k1 = k /\ v1 = v).
Proof.
  unfold sset. induction d as [|[k0 v0] d IH]; simpl.
  - intros [H|[]]. inversion H. auto.
  - destruct (String.eqb k0 k) eqn:E; simpl.
    + apply String.eqb_eq in E. subst. intros [H|H]; [inversion H; auto|auto].
    + intros [H|H]; auto. destruct (IH H); auto.
Qed.

Lemma of_pairs_in {V} (l : sdict V) k v :
  In (k, v) (PyDict.of_pairs String.eqb l) -> In (k, v) l.
Proof.
  unfold PyDict.of_pairs.
  assert (G : forall acc : sdict V,
            In (k, v) (fold_left (fun d kv => PyDict.set String.eqb d (fst kv) (snd kv)) l acc)
            -> In (k, v) acc \/ In (k, v) l).
  { induction l as [|[k0 v0] l IH]; intros acc H; simpl in *; auto.
    destruct (IH _ H) as [H1|H1]; auto.
    apply sset_in in H1. destruct H1 as [H1|[-> ->]]; auto. }
  intros H. destruct (G [] H) as [[]|H1]. exact H1.
Qed.

(** The columns of a schema are read back from the schema file as they
    were, whatever the columns it was built from. *)
Lemma schema_columns_reload n cols :
  TableSchema.columns
    (TableSchema.init n (PyDict.vals (TableSchema.columns (TableSchema.init n cols))))
  = TableSchema.columns (TableSchema.init n cols).
Proof.
  cbn [TableSchema.init TableSchema.columns].
  set (D := PyDict.of_pairs String.eqb (map (fun c => (Column.name c, c)) cols)).
  assert (E : map (fun c => (Column.name c, c)) (PyDict.vals D) = D).
  { unfold PyDict.vals. rewrite map_map.
    rewrite <- (map_id D) at 2. apply map_ext_in. intros [k c] Hin. simpl.
    apply of_pairs_in, in_map_iff in Hin. destruct Hin as [c' [H _]]. now inversion H. }
  rewrite E. apply of_pairs_nodup. apply of_pairs_keys_nodup.
Qed.

Lemma create_table_ok_gen st t cols :
  exists st' sch,
    QueryExecutor._execute_create_table st t cols = (Ok (QueryResult.init None 0), st')
    /\ StorageEngine.load_schema (fs st') t = Ok sch
    /\ TableSchema.columns sch = TableSchema.columns (TableSchema.init t cols)
    /\ StorageEngine.read_rows (fs st') t = Ok []
    /\ table_terminated (fs st') t = true
    /\ forall col, In col cols -> indexed col = true ->
                   sget (QueryExecutor.table_indexes st' t) (Column.name col)
                   = Some (Index.init t (Column.name col)).
Proof.
  unfold QueryExecutor._execute_create_table.
  set (sch := TableSchema.init t (PyDict.vals (TableSchema.columns (TableSchema.init t cols)))).
  match goal with |- context [QueryExecutor.create_indexes ?s t cols] =>
    destruct (create_indexes_empty t sch cols s) as [st' [H1 [H2 [H3 H4]]]]
  end.
  - cbn [QueryExecutor.with_indexes QueryExecutor.with_fs fs].
    rewrite load_schema_sset_table. unfold StorageEngine.load_schema, StorageEngine.save_schema.
    now rewrite sget_sset_same.
  - cbn [QueryExecutor.with_indexes QueryExecutor.with_fs fs]. apply sget_sset_same.
  - exists st', sch. rewrite H1. repeat split; auto.
    + apply schema_columns_reload.
    + now apply (read_rows_empty _ t sch).
    + unfold table_terminated. now rewrite H3.
    + intros col Hin Hi. rewrite H4. now apply fold_indexed_get.
Qed.

(** X13.  CREATE TABLE never fails.  It leaves a table with the columns given
    (a later column of the same name replacing an earlier one) and with no
    rows, also when a table of that name and its rows existed before, and
    an empty cached index for every primary-key or unique column. *)
Theorem create_table_ok st t cols :
  exists st' sch,
    QueryExecutor.execute st (CREATE_TABLE t cols) = (Ok (QueryResult.init None 0), st')
    /\ StorageEngine.load_schema (fs st') t = Ok sch
    /\ TableSchema.columns sch = TableSchema.columns (TableSchema.init t cols)
    /\ StorageEngine.read_rows (fs st') t = Ok []
    /\ forall col, In col cols -> indexed col = true ->
                   sget (QueryExecutor.table_indexes st' t) (Column.name col)
                   = Some (Index.init t (Column.name col)).
Proof.
  destruct (create_table_ok_gen st t cols) as [st' [sch [H1 [H2 [H3 [H4 [_ H5]]]]]]].
  exists st', sch. cbn [QueryExecutor.execute]. auto.
Qed.

(** ** Statements on a table that does not exist *)

(** X14.  On a table that does not exist (no schema file, no row file) INSERT
    and SELECT raise [FileNotFoundError], whereas UPDATE and DELETE succeed
    with rowcount 0; none of them changes the state. *)
Theorem missing_table st t :
  sget (fs st) (StorageEngine.schema_path t) = None ->
  sget (fs st) (StorageEngine.table_path t) = None ->
  (forall columns values,
      QueryExecutor.execute st (INSERT t columns values) = (Raise (no_such_table t), st))
  /\ (forall columns where_ order_by,
         QueryExecutor.execute st (SELECT columns (FromSimple t) where_ order_by)
         = (Raise (no_such_table t), st))
  /\ (forall updates where_,
         QueryExecutor.execute st (UPDATE t updates where_) = (Ok (QueryResult.init None 0), st))
  /\ (forall where_,
         QueryExecutor.execute st (DELETE t where_) = (Ok (QueryResult.init None 0), st)).
Proof.
  intros Hs Ht.
  assert (L : StorageEngine.load_schema (fs st) t = Raise (no_such_table t)).
  { unfold StorageEngine.load_schema. now rewrite Hs. }
  pose proof (read_rows_absent (fs st) t Ht) as R.
  repeat split; intros; cbn [QueryExecutor.execute].
  - unfold QueryExecutor._execute_insert. now rewrite L.
  - cbn [QueryExecutor._execute_select]. unfold QueryExecutor._execute_simple_select.
    now rewrite L.
  - unfold QueryExecutor._execute_update. now rewrite R.
  - unfold QueryExecutor._execute_delete. now rewrite R.
Qed.

Lemma missing_table_witness :
  sget (fs members_db) (StorageEngine.schema_path "orders") = None
  /\ sget (fs members_db) (StorageEngine.table_path "orders") = None
  /\ QueryExecutor.execute members_db (DELETE "orders" None)
     = (Ok (QueryResult.init None 0), members_db).
Proof.
  split; [reflexivity|]. split; [reflexivity|].
  exact (proj2 (proj2 (proj2 (missing_table members_db "orders" eq_refl eq_refl))) None).
Defined.

(** ** INSERT, DELETE and UPDATE, read back *)

Lemma read_rows_ext f1 f2 t :
  sget f1 (StorageEngine.table_path t) = sget f2 (StorageEngine.table_path t) ->
  sget f1 (StorageEngine.schema_path t) = sget f2 (StorageEngine.schema_path t) ->
  StorageEngine.read_rows f1 t = StorageEngine.read_rows f2 t.
Proof.
  intros Ht Hs.
  unfold StorageEngine.read_rows, StorageEngine.exists_, smem, PyDict.mem,
    StorageEngine.load_schema, StorageEngine.read_text.
  fold (sget f1 (StorageEngine.table_path t)). fold (sget f2 (StorageEngine.table_path t)).
  now rewrite Ht, Hs.
Qed.

Lemma load_schema_ext f1 f2 t :
  sget f1 (StorageEngine.schema_path t) = sget f2 (StorageEngine.schema_path t) ->
  StorageEngine.load_schema f1 t = StorageEngine.load_schema f2 t.
Proof. intros Hs. unfold StorageEngine.load_schema. now rewrite Hs. Qed.

Lemma save_indexes_table st t t' :
  sget (fs (QueryExecutor.save_indexes st t')) (StorageEngine.table_path t)
  = sget (fs st) (StorageEngine.table_path t).
Proof.
  unfold QueryExecutor.save_indexes. cbn [QueryExecutor.with_fs fs].
  apply sget_save_indexes. rewrite last_char_table_path. discriminate.
Qed.

Lemma save_indexes_schema st t t' :
  sget (fs (QueryExecutor.save_indexes st t')) (StorageEngine.schema_path t)
  = sget (fs st) (StorageEngine.schema_path t).
Proof.
  unfold QueryExecutor.save_indexes. cbn [QueryExecutor.with_fs fs].
  apply sget_save_indexes. rewrite last_char_schema_path. discriminate.
Qed.

Lemma sget_stored_row sch row col :
  In col (PyDict.keys (TableSchema.columns sch)) ->
  sget (stored_row sch row) col = Some (row_get row col).
Proof.
  unfold stored_row, PyDict.keys, sget.
  induction (TableSchema.columns sch) as [|[k c] cols IH]; simpl; [contradiction|].
  destruct (String.eqb k col) eqn:E.
  - apply String.eqb_eq in E. now subst.
  - apply String.eqb_neq in E. intros [H|H]; [contradiction|auto].
Qed.

Lemma fold_project_fresh (g : string -> value) ks (acc : sdict value) :
  NoDup (PyDict.keys acc ++ ks) ->
  fold_left (fun d k => sset d k (g k)) ks acc = acc ++ map (fun k => (k, g k)) ks.
Proof.
  revert acc. induction ks as [|k ks IH]; intros acc H; simpl.
  - now rewrite app_nil_r.
  - rewrite sset_fresh.
    + rewrite IH; [now rewrite <- app_assoc|].
      unfold PyDict.keys in *. rewrite map_app. simpl. now rewrite <- app_assoc.
    + apply sget_none_keys. apply NoDup_remove_2 in H.
      intros Hin. apply H. apply in_or_app. auto.
Qed.

(** [SELECT *] gives a stored row as it is. *)
Lemma project_stored_row sch row k :
  NoDup (PyDict.keys (TableSchema.columns sch)) ->
  QueryExecutor.project (PyDict.keys (TableSchema.columns sch)) (Row.mk (stored_row sch row) k)
  = stored_row sch row.
Proof.
  intros Hnd. unfold QueryExecutor.project. cbn [Row.values].
  rewrite fold_project_fresh by exact Hnd. cbn [app].
  unfold stored_row at 2. unfold PyDict.keys. rewrite map_map.
  apply map_ext_in. intros [k0 c] Hin. cbn [fst]. f_equal.
  unfold row_get at 1. rewrite sget_stored_row; [reflexivity|].
  unfold PyDict.keys. apply in_map_iff. exists (k0, c). auto.
Qed.

Lemma select_all_rows st t sch rows :
  StorageEngine.load_schema (fs st) t = Ok sch ->
  StorageEngine.read_rows (fs st) t = Ok rows ->
  QueryExecutor.execute st (select_all t)
  = (Ok (QueryResult.init
           (Some (map (QueryExecutor.project (PyDict.keys (TableSchema.columns sch))) rows))
           (List.length rows)), st).
Proof.
  intros Hs Hr. unfold select_all.
  cbn [QueryExecutor.execute QueryExecutor._execute_select].
  unfold QueryExecutor._execute_simple_select. rewrite Hs, Hr. cbn [rbind].
  cbn [QueryExecutor._apply_where_clause rbind QueryExecutor.order_rows].
  replace (QueryExecutor.is_star ["*"]) with true by reflexivity.
  now rewrite length_map.
Qed.

(** X15.  INSERT then SELECT: after a successful INSERT of a clean row into a
    table with at least one column, [SELECT *] returns the rows it
    returned before followed by the new row, which has the value of the
    INSERT for each column of the schema and [None] for the columns the
    INSERT gave no value for. *)
Theorem insert_then_select st t columns values sch row q r st' :
  StorageEngine.load_schema (fs st) t = Ok sch ->
  TableSchema.columns sch <> [] ->
  QueryExecutor.build_row sch columns values = Ok row ->
  clean_row sch row = true ->
  table_terminated (fs st) t = true ->
  QueryExecutor.execute st (select_all t) = (Ok q, st) ->
  QueryExecutor.execute st (INSERT t columns values) = (Ok r, st') ->
  QueryExecutor.execute st' (select_all t)
  = (Ok (QueryResult.init
           (Some (QueryExecutor.or_empty (QueryResult.rows q) ++ [stored_row sch row]))
           (S (QueryResult.rowcount q))), st').
Proof.
  intros Hs Hne Hrow Hclean Hterm Hsel Hins.
  pose proof (load_schema_keys_nodup _ _ _ Hs) as Hnd.
  (* the rows of the table before *)
  assert (Hrows : exists rows, StorageEngine.read_rows (fs st) t = Ok rows).
  { unfold select_all in Hsel.
    cbn [QueryExecutor.execute QueryExecutor._execute_select] in Hsel.
    unfold QueryExecutor._execute_simple_select in Hsel. rewrite Hs in Hsel.
    cbn [rbind] in Hsel.
    destruct (StorageEngine.read_rows (fs st) t) as [rows|e]; [eauto|discriminate]. }
  destruct Hrows as [rows Hrows].
  rewrite (select_all_rows st t sch rows Hs Hrows) in Hsel.
  inversion Hsel as [Hq]. clear Hsel.
  cbn [QueryResult.init QueryResult.rows QueryResult.rowcount QueryExecutor.or_empty].
  (* the INSERT *)
  cbn [QueryExecutor.execute] in Hins. unfold QueryExecutor._execute_insert in Hins.
  rewrite Hs, Hrow in Hins.
  destruct (negb (TableSchema.validate_row sch row)); [discriminate|].
  destruct (QueryExecutor.duplicate_key st t row (TableSchema.primary_key sch));
    [discriminate|].
  destruct (insert_row_read_rows_ok (fs st) t sch row rows Hs Hne Hclean Hterm Hrows)
    as [rowid [f' [Hi [Hread [_ [Hs' _]]]]]].
  rewrite Hi in Hins. inversion Hins as [[Hr Hst]]. clear Hins.
  (* the SELECT after *)
  assert (Hs2 : StorageEngine.load_schema
                  (fs (QueryExecutor.save_indexes
                         (QueryExecutor.update_indexes
                            (fun col_name index =>
                               match sget row col_name with
                               | Some v => Index.add index v rowid
                               | None => index
                               end) (QueryExecutor.with_fs st f') t) t)) t = Ok sch).
  { rewrite <- Hs'. apply load_schema_ext.
    now rewrite save_indexes_schema, fs_update_indexes. }
  assert (Hr2 : StorageEngine.read_rows
                  (fs (QueryExecutor.save_indexes
                         (QueryExecutor.update_indexes
                            (fun col_name index =>
                               match sget row col_name with
                               | Some v => Index.add index v rowid
                               | None => index
                               end) (QueryExecutor.with_fs st f') t) t)) t
                = Ok (rows ++ [Row.mk (stored_row sch row) rowid])).
  { rewrite <- Hread. apply read_rows_ext.
    - now rewrite save_indexes_table, fs_update_indexes.
    - now rewrite save_indexes_schema, fs_update_indexes. }
  rewrite (select_all_rows _ t sch _ Hs2 Hr2).
  rewrite map_app, length_app. cbn [map List.length].
  rewrite (project_stored_row sch row rowid Hnd), Nat.add_1_r. reflexivity.
Qed.

Lemma insert_then_select_witness :
  let sch := TableSchema.init "members"
               [Column.mk "id" INTEGER None true true true;
                Column.mk "name" VARCHAR (Some 50%Z) false false false] in
  let row := [("id", VInt 2%Z); ("name", VStr "Bob")] in
  let q := QueryResult.init (Some [[("id", VInt 1%Z); ("name", VStr "Alice")]]) 1 in
  let insert := INSERT "members" None [VInt 2%Z; VStr "Bob"] in
  let st' := snd (QueryExecutor.execute members_db insert) in
  StorageEngine.load_schema (fs members_db) "members" = Ok sch
  /\ TableSchema.columns sch <> []
  /\ QueryExecutor.build_row sch None [VInt 2%Z; VStr "Bob"] = Ok row
  /\ clean_row sch row = true
  /\ table_terminated (fs members_db) "members" = true
  /\ QueryExecutor.execute members_db (select_all "members") = (Ok q, members_db)
  /\ QueryExecutor.execute members_db insert = (Ok (QueryResult.init None 1), st')
  /\ QueryExecutor.execute st' (select_all "members")
     = (Ok (QueryResult.init
              (Some (QueryExecutor.or_empty (QueryResult.rows q) ++ [stored_row sch row]))
              (S (QueryResult.rowcount q))), st').
Proof.
  cbv zeta.
  assert (H1 : StorageEngine.load_schema (fs members_db) "members"
               = Ok (TableSchema.init "members"
                       [Column.mk "id" INTEGER None true true true;
                        Column.mk "name" VARCHAR (Some 50%Z) false false false]))
    by (vm_compute; reflexivity).
  assert (H2 : TableSchema.columns
                 (TableSchema.init "members"
                    [Column.mk "id" INTEGER None true true true;
                     Column.mk "name" VARCHAR (Some 50%Z) false false false]) <> [])
    by (vm_compute; discriminate).
  assert (H3 : QueryExecutor.build_row
                 (TableSchema.init "members"
                    [Column.mk "id" INTEGER None true true true;
                     Column.mk "name" VARCHAR (Some 50%Z) false false false])
                 None [VInt 2%Z; VStr "Bob"]
               = Ok [("id", VInt 2%Z); ("name", VStr "Bob")])
    by (vm_compute; reflexivity).
  assert (H4 : clean_row (TableSchema.init "members"
                            [Column.mk "id" INTEGER None true true true;
                             Column.mk "name" VARCHAR (Some 50%Z) false false false])
                         [("id", VInt 2%Z); ("name", VStr "Bob")] = true)
    by (vm_compute; reflexivity).
  assert (H5 : table_terminated (fs members_db) "members" = true) by (vm_compute; reflexivity).
  assert (H6 : QueryExecutor.execute members_db (select_all "members")
               = (Ok (QueryResult.init (Some [[("id", VInt 1%Z); ("name", VStr "Alice")]]) 1),
                  members_db))
    by (vm_compute; reflexivity).
  assert (H7 : QueryExecutor.execute members_db (INSERT "members" None [VInt 2%Z; VStr "Bob"])
               = (Ok (QueryResult.init None 1),
                  snd (QueryExecutor.execute members_db
                         (INSERT "members" None [VInt 2%Z; VStr "Bob"]))))
    by (vm_compute; reflexivity).
  split; [exact H1|]. split; [exact H2|]. split; [exact H3|]. split; [exact H4|].
  split; [exact H5|]. split; [exact H6|]. split; [exact H7|].
  exact (insert_then_select members_db "members" None [VInt 2%Z; VStr "Bob"] _ _ _ _ _
           H1 H2 H3 H4 H5 H6 H7).
Defined.

(** *** The row file after a rewrite *)

Lemma concat_cons x xs :
  String.concat EmptyString (x :: xs) = (x ++ String.concat EmptyString xs)%string.
Proof.
  destruct xs; cbn [String.concat]; [|reflexivity].
  induction x as [|c x IH]; [reflexivity|]. cbn [append]. now rewrite <- IH.
Qed.

Lemma terminated_encode_line sch row : terminated (StorageEngine.encode_line sch row) = true.
Proof.
  unfold StorageEngine.encode_line.
  apply (terminated_line EmptyString (PyStr.join "," (StorageEngine.encode_fields sch row))).
Qed.

Lemma clean_rows_cons sch r rows :
  clean_rows sch (r :: rows) = clean_row sch (Row.values r) && clean_rows sch rows.
Proof. reflexivity. Qed.

(** The text that [_rewrite_table] writes for clean rows is read back as
    the stored rows, numbered by their lines. *)
Lemma rewrite_read sch rows k :
  NoDup (PyDict.keys (TableSchema.columns sch)) ->
  TableSchema.columns sch <> [] ->
  clean_rows sch rows = true ->
  StorageEngine.read_lines sch k
    (StorageEngine.readlines
       (String.concat EmptyString
          (map (fun row => StorageEngine.encode_line sch (Row.values row)) rows)))
  = Ok (renumber k (stored_rows sch rows)).
Proof.
  intros Hnd Hne. revert k. induction rows as [|r rows IH]; intros k Hclean.
  - reflexivity.
  - rewrite clean_rows_cons in Hclean. apply andb_true_iff in Hclean.
    destruct Hclean as [Hr Hrows].
    cbn [map]. rewrite concat_cons, readlines_app by apply terminated_encode_line.
    pose proof (clean_row_fields sch _ Hr) as Hf.
    pose proof (encode_fields_nonempty sch (Row.values r) Hne) as Hn.
    destruct (join_clean _ Hn Hf) as [J _].
    assert (Hline : StorageEngine.readlines (StorageEngine.encode_line sch (Row.values r))
                    = [StorageEngine.encode_line sch (Row.values r)]).
    { unfold StorageEngine.encode_line. now apply readlines_line. }
    rewrite Hline.
    change (renumber k (stored_rows sch (r :: rows)))
      with ([Row.mk (stored_row sch (Row.values r)) k] ++ renumber (S k) (stored_rows sch rows)).
    apply read_lines_app.
    + now apply read_line_of_row.
    + cbn [List.length]. rewrite Nat.add_1_r. now apply IH.
Qed.

Lemma delete_loop_spec t w rows st :
  exists st1,
    QueryExecutor.delete_loop t w rows st
    = (filter (fun r => negb (QueryExecutor.where_matches w r)) rows,
       List.length (filter (QueryExecutor.where_matches w) rows), st1)
    /\ fs st1 = fs st.
Proof.
  revert st. induction rows as [|row rows IH]; intros st.
  - exists st. auto.
  - cbn [QueryExecutor.delete_loop filter].
    destruct (QueryExecutor.where_matches w row); cbn [negb].
    + destruct (IH (QueryExecutor.remove_from_indexes st t row)) as [st1 [H1 H2]].
      exists st1. rewrite H1. split; [reflexivity|].
      rewrite H2. apply fs_update_indexes.
    + destruct (IH st) as [st1 [H1 H2]]. exists st1. rewrite H1. auto.
Qed.

Lemma update_loop_spec t ups w rows st :
  exists st1,
    QueryExecutor.update_loop t ups w rows st
    = (map (fun r => if QueryExecutor.where_matches w r
                     then QueryExecutor.apply_updates ups r else r) rows,
       List.length (filter (QueryExecutor.where_matches w) rows), st1)
    /\ fs st1 = fs st.
Proof.
  revert st. induction rows as [|row rows IH]; intros st.
  - exists st. auto.
  - cbn [QueryExecutor.update_loop filter map].
    destruct (QueryExecutor.where_matches w row).
    + destruct (IH (QueryExecutor.add_to_indexes
                      (QueryExecutor.remove_from_indexes st t row) t
                      (QueryExecutor.apply_updates ups row))) as [st1 [H1 H2]].
      exists st1. rewrite H1. split; [reflexivity|].
      rewrite H2. unfold QueryExecutor.add_to_indexes, QueryExecutor.remove_from_indexes.
      now rewrite !fs_update_indexes.
    + destruct (IH st) as [st1 [H1 H2]]. exists st1. rewrite H1. auto.
Qed.

(** Reading the table after [_rewrite_table] and the saving of the
    indexes. *)
Lemma read_after_rewrite st1 t sch rows' :
  StorageEngine.load_schema (fs st1) t = Ok sch ->
  TableSchema.columns sch <> [] ->
  clean_rows sch rows' = true ->
  exists f,
    QueryExecutor._rewrite_table (fs st1) t rows' = Ok f
    /\ StorageEngine.read_rows (fs (QueryExecutor.save_indexes (QueryExecutor.with_fs st1 f) t)) t
       = Ok (renumber 1 (stored_rows sch rows')).
Proof.
  intros Hs Hne Hclean.
  pose proof (load_schema_keys_nodup _ _ _ Hs) as Hnd.
  unfold QueryExecutor._rewrite_table. rewrite Hs. cbn [rbind].
  eexists. split; [reflexivity|].
  match goal with |- StorageEngine.read_rows (fs (QueryExecutor.save_indexes
                                                    (QueryExecutor.with_fs st1 ?f) t)) t = _ =>
    rewrite (read_rows_ext _ f t)
  end.
  - erewrite (read_rows_text _ t sch); [now apply rewrite_read| |apply sget_sset_same].
    now rewrite load_schema_sset_table.
  - now rewrite save_indexes_table.
  - now rewrite save_indexes_schema.
Qed.

(** X17.  DELETE, read back: when at least one row matches, the table afterwards
    holds the rows that did not match, as they are stored, and numbers
    them again from 1: a row that stood behind a deleted one gets a new
    rowid. *)
Theorem delete_then_read st t w sch rows :
  StorageEngine.load_schema (fs st) t = Ok sch ->
  TableSchema.columns sch <> [] ->
  StorageEngine.read_rows (fs st) t = Ok rows ->
  clean_rows sch rows = true ->
  existsb (QueryExecutor.where_matches w) rows = true ->
  exists st',
    QueryExecutor.execute st (DELETE t w)
    = (Ok (QueryResult.init None (List.length (filter (QueryExecutor.where_matches w) rows))),
       st')
    /\ StorageEngine.read_rows (fs st') t
       = Ok (renumber 1 (stored_rows sch
                           (filter (fun r => negb (QueryExecutor.where_matches w r)) rows))).
Proof.
  intros Hs Hne Hrows Hclean Hsome.
  cbn [QueryExecutor.execute]. unfold QueryExecutor._execute_delete. rewrite Hrows.
  destruct (delete_loop_spec t w rows st) as [st1 [Hloop Hfs]]. rewrite Hloop.
  destruct (filter (QueryExecutor.where_matches w) rows) as [|m ms] eqn:F.
  - exfalso. apply existsb_exists in Hsome. destruct Hsome as [x [Hin Hx]].
    assert (I : In x (filter (QueryExecutor.where_matches w) rows))
      by (apply filter_In; auto).
    rewrite F in I. destruct I.
  - cbn [List.length].
    assert (Hc : clean_rows sch (filter (fun r => negb (QueryExecutor.where_matches w r)) rows)
                 = true).
    { unfold clean_rows in *. rewrite forallb_forall in *. intros x Hx.
      apply Hclean. apply filter_In in Hx. tauto. }
    rewrite <- Hfs in Hs.
    destruct (read_after_rewrite st1 t sch _ Hs Hne Hc) as [f [Hw Hread]].
    rewrite Hw. eexists. split; [reflexivity|exact Hread].
Qed.

Lemma delete_then_read_witness :
  let st := snd (Database.run Database.init two_rows) in
  let sch := TableSchema.init "t" [Column.mk "id" INTEGER None true true true] in
  let rows := [Row.mk [("id", VInt 10%Z)] 1; Row.mk [("id", VInt 20%Z)] 2] in
  let w := Some (mk_where "id" "=" (VInt 10%Z)) in
  StorageEngine.load_schema (fs st) "t" = Ok sch
  /\ TableSchema.columns sch <> []
  /\ StorageEngine.read_rows (fs st) "t" = Ok rows
  /\ clean_rows sch rows = true
  /\ existsb (QueryExecutor.where_matches w) rows = true
  /\ exists st',
       QueryExecutor.execute st (DELETE "t" w)
       = (Ok (QueryResult.init None
                (List.length (filter (QueryExecutor.where_matches w) rows))), st')
       /\ StorageEngine.read_rows (fs st') "t"
          = Ok (renumber 1 (stored_rows sch
                              (filter (fun r => negb (QueryExecutor.where_matches w r)) rows))).
Proof.
  cbv zeta.
  assert (H1 : StorageEngine.load_schema (fs (snd (Database.run Database.init two_rows))) "t"
               = Ok (TableSchema.init "t" [Column.mk "id" INTEGER None true true true]))
    by (vm_compute; reflexivity).
  assert (H2 : TableSchema.columns
                 (TableSchema.init "t" [Column.mk "id" INTEGER None true true true]) <> [])
    by (vm_compute; discriminate).
  assert (H3 : StorageEngine.read_rows (fs (snd (Database.run Database.init two_rows))) "t"
               = Ok [Row.mk [("id", VInt 10%Z)] 1; Row.mk [("id", VInt 20%Z)] 2])
    by (vm_compute; reflexivity).
  assert (H4 : clean_rows (TableSchema.init "t" [Column.mk "id" INTEGER None true true true])
                          [Row.mk [("id", VInt 10%Z)] 1; Row.mk [("id", VInt 20%Z)] 2] = true)
    by (vm_compute; reflexivity).
  assert (H5 : existsb (QueryExecutor.where_matches (Some (mk_where "id" "=" (VInt 10%Z))))
                       [Row.mk [("id", VInt 10%Z)] 1; Row.mk [("id", VInt 20%Z)] 2] = true)
    by (vm_compute; reflexivity).
  split; [exact H1|]. split; [exact H2|]. split; [exact H3|]. split; [exact H4|].
  split; [exact H5|].
  exact (delete_then_read (snd (Database.run Database.init two_rows)) "t"
           (Some (mk_where "id" "=" (VInt 10%Z))) _ _ H1 H2 H3 H4 H5).
Defined.

(** X18.  UPDATE, read back: when at least one row matches, the table afterwards
    holds every row in its place, the matching ones with the new values
    assigned, all as they are stored and numbered again from 1. *)
Theorem update_then_read st t ups w sch rows :
  StorageEngine.load_schema (fs st) t = Ok sch ->
  TableSchema.columns sch <> [] ->
  StorageEngine.read_rows (fs st) t = Ok rows ->
  clean_rows sch (map (fun r => if QueryExecutor.where_matches w r
                                then QueryExecutor.apply_updates ups r else r) rows) = true ->
  existsb (QueryExecutor.where_matches w) rows = true ->
  exists st',
    QueryExecutor.execute st (UPDATE t ups w)
    = (Ok (QueryResult.init None (List.length (filter (QueryExecutor.where_matches w) rows))),
       st')
    /\ StorageEngine.read_rows (fs st') t
       = Ok (renumber 1
               (stored_rows sch
                  (map (fun r => if QueryExecutor.where_matches w r
                                 then QueryExecutor.apply_updates ups r else r) rows))).
Proof.
  intros Hs Hne Hrows Hclean Hsome.
  cbn [QueryExecutor.execute]. unfold QueryExecutor._execute_update. rewrite Hrows.
  destruct (update_loop_spec t ups w rows st) as [st1 [Hloop Hfs]]. rewrite Hloop.
  destruct (filter (QueryExecutor.where_matches w) rows) as [|m ms] eqn:F.
  - exfalso. apply existsb_exists in Hsome. destruct Hsome as [x [Hin Hx]].
    assert (I : In x (filter (QueryExecutor.where_matches w) rows))
      by (apply filter_In; auto).
    rewrite F in I. destruct I.
  - cbn [List.length]. rewrite <- Hfs in Hs.
    destruct (read_after_rewrite st1 t sch _ Hs Hne Hclean) as [f [Hw Hread]].
    rewrite Hw. eexists. split; [reflexivity|exact Hread].
Qed.

Lemma update_then_read_witness :
  let st := snd (Database.run Database.init two_rows) in
  let sch := TableSchema.init "t" [Column.mk "id" INTEGER None true true true] in
  let rows := [Row.mk [("id", VInt 10%Z)] 1; Row.mk [("id", VInt 20%Z)] 2] in
  let w := Some (mk_where "id" "=" (VInt 10%Z)) in
  let ups := [("id", VInt 30%Z)] in
  let rows' := map (fun r => if QueryExecutor.where_matches w r
                             then QueryExecutor.apply_updates ups r else r) rows in
  StorageEngine.load_schema (fs st) "t" = Ok sch
  /\ TableSchema.columns sch <> []
  /\ StorageEngine.read_rows (fs st) "t" = Ok rows
  /\ clean_rows sch rows' = true
  /\ existsb (QueryExecutor.where_matches w) rows = true
  /\ exists st',
       QueryExecutor.execute st (UPDATE "t" ups w)
       = (Ok (QueryResult.init None
                (List.length (filter (QueryExecutor.where_matches w) rows))), st')
       /\ StorageEngine.read_rows (fs st') "t" = Ok (renumber 1 (stored_rows sch rows')).
Proof.
  cbv zeta.
  assert (H1 : StorageEngine.load_schema (fs (snd (Database.run Database.init two_rows))) "t"
               = Ok (TableSchema.init "t" [Column.mk "id" INTEGER None true true true]))
    by (vm_compute; reflexivity).
  assert (H2 : TableSchema.columns
                 (TableSchema.init "t" [Column.mk "id" INTEGER None true true true]) <> [])
    by (vm_compute; discriminate).
  assert (H3 : StorageEngine.read_rows (fs (snd (Database.run Database.init two_rows))) "t"
               = Ok [Row.mk [("id", VInt 10%Z)] 1; Row.mk [("id", VInt 20%Z)] 2])
    by (vm_compute; reflexivity).
  assert (H4 : clean_rows (TableSchema.init "t" [Column.mk "id" INTEGER None true true true])
                 (map (fun r => if QueryExecutor.where_matches
                                     (Some (mk_where "id" "=" (VInt 10%Z))) r
                                then QueryExecutor.apply_updates [("id", VInt 30%Z)] r else r)
                      [Row.mk [("id", VInt 10%Z)] 1; Row.mk [("id", VInt 20%Z)] 2]) = true)
    by (vm_compute; reflexivity).
  assert (H5 : existsb (QueryExecutor.where_matches (Some (mk_where "id" "=" (VInt 10%Z))))
                       [Row.mk [("id", VInt 10%Z)] 1; Row.mk [("id", VInt 20%Z)] 2] = true)
    by (vm_compute; reflexivity).
  split; [exact H1|]. split; [exact H2|]. split; [exact H3|]. split; [exact H4|].
  split; [exact H5|].
  exact (update_then_read (snd (Database.run Database.init two_rows)) "t"
           [("id", VInt 30%Z)] (Some (mk_where "id" "=" (VInt 10%Z))) _ _ H1 H2 H3 H4 H5).
Defined.

(** ** [delete_row] of the storage engine *)

Lemma drop_nth_in {A} n (l : list A) x : In x (StorageEngine.drop_nth n l) -> In x l.
Proof.
  revert n. induction l as [|y l IH]; intros n; [now destruct n|].
  destruct n as [|n]; cbn [StorageEngine.drop_nth].
  - intros H. now right.
  - intros [H|H]; [now left|right; eauto].
Qed.

(** X12.  [delete_row] removes the row that stands at position [rowid] among the
    rows read (which is the row of that rowid only when no blank line
    comes before it), writes the other rows again and so numbers them
    again from 1; for a [rowid] outside the positions it returns [False]
    and changes nothing. *)
Theorem delete_row_spec f t sch rows rowid :
  StorageEngine.load_schema f t = Ok sch ->
  TableSchema.columns sch <> [] ->
  StorageEngine.read_rows f t = Ok rows ->
  clean_rows sch rows = true ->
  if Nat.leb 1 rowid && Nat.leb rowid (List.length rows)
  then exists f',
         StorageEngine.delete_row f t rowid = (Ok true, f')
         /\ StorageEngine.read_rows f' t
            = Ok (renumber 1 (stored_rows sch (StorageEngine.drop_nth (rowid - 1) rows)))
  else StorageEngine.delete_row f t rowid = (Ok false, f).
Proof.
  intros Hs Hne Hrows Hclean. unfold StorageEngine.delete_row. rewrite Hrows.
  destruct (Nat.leb 1 rowid && Nat.leb rowid (List.length rows)); [|reflexivity].
  pose proof (load_schema_keys_nodup _ _ _ Hs) as Hnd.
  assert (Hc : clean_rows sch (StorageEngine.drop_nth (rowid - 1) rows) = true).
  { unfold clean_rows in *. rewrite forallb_forall in *. intros x Hx.
    apply Hclean. now apply drop_nth_in in Hx. }
  rewrite load_schema_sset_table, Hs.
  destruct (StorageEngine.drop_nth (rowid - 1) rows) as [|r rs] eqn:D.
  - eexists. split; [reflexivity|].
    rewrite (read_rows_text _ t sch EmptyString); [reflexivity| |apply sget_sset_same].
    now rewrite load_schema_sset_table.
  - eexists. split; [reflexivity|].
    erewrite (read_rows_text _ t sch); [|now rewrite load_schema_sset_table|apply sget_sset_same].
    now apply rewrite_read.
Qed.

Lemma delete_row_spec_witness :
  let f := fs (snd (Database.run Database.init two_rows)) in
  let sch := TableSchema.init "t" [Column.mk "id" INTEGER None true true true] in
  let rows := [Row.mk [("id", VInt 10%Z)] 1; Row.mk [("id", VInt 20%Z)] 2] in
  StorageEngine.load_schema f "t" = Ok sch
  /\ TableSchema.columns sch <> []
  /\ StorageEngine.read_rows f "t" = Ok rows
  /\ clean_rows sch rows = true
  /\ if Nat.leb 1 1 && Nat.leb 1 (List.length rows)
     then exists f',
            StorageEngine.delete_row f "t" 1 = (Ok true, f')
            /\ StorageEngine.read_rows f' "t"
               = Ok (renumber 1 (stored_rows sch (StorageEngine.drop_nth (1 - 1) rows)))
     else StorageEngine.delete_row f "t" 1 = (Ok false, f).
Proof.
  cbv zeta.
  assert (H1 : StorageEngine.load_schema (fs (snd (Database.run Database.init two_rows))) "t"
               = Ok (TableSchema.init "t" [Column.mk "id" INTEGER None true true true]))
    by (vm_compute; reflexivity).
  assert (H2 : TableSchema.columns
                 (TableSchema.init "t" [Column.mk "id" INTEGER None true true true]) <> [])
    by (vm_compute; discriminate).
  assert (H3 : StorageEngine.read_rows (fs (snd (Database.run Database.init two_rows))) "t"
               = Ok [Row.mk [("id", VInt 10%Z)] 1; Row.mk [("id", VInt 20%Z)] 2])
    by (vm_compute; reflexivity).
  assert (H4 : clean_rows (TableSchema.init "t" [Column.mk "id" INTEGER None true true true])
                          [Row.mk [("id", VInt 10%Z)] 1; Row.mk [("id", VInt 20%Z)] 2] = true)
    by (vm_compute; reflexivity).
  split; [exact H1|]. split; [exact H2|]. split; [exact H3|]. split; [exact H4|].
  exact (delete_row_spec (fs (snd (Database.run Database.init two_rows))) "t" _ _ 1
           H1 H2 H3 H4).
Defined.

(** ** INSERT and the cached indexes *)

Lemma index_get_add_mono i v rowid w x :
  In x (Index.get i w) -> In x (Index.get (Index.add i v rowid) w).
Proof.
  intros H. destruct (PyVal.py_eq v w) eqn:E.
  - apply (index_get_add_same i v rowid w x E). auto.
  - now rewrite (index_get_add_other i v rowid w E).
Qed.

Lemma index_add_entries i v rowid k b x :
  In (k, b) (Index.index (Index.add i v rowid)) -> In x b ->
  x = rowid \/ exists k' b', In (k', b') (Index.index i) /\ In x b'.
Proof.
  rewrite index_add_eq. cbn [Index.index Index.with_index]. intros Hin Hx.
  apply dict_set_in in Hin. destruct Hin as [Hin| ->].
  - right. eauto.
  - apply bucket_add_in in Hx. destruct Hx as [->|Hx]; auto.
    right. unfold Index.get in Hx.
    destruct (PyDict.get PyVal.py_eq (Index.index i) v) as [b'|] eqn:G; [|destruct Hx].
    destruct (dict_get_in _ _ _ _ G) as [k0 [H0 _]]. eauto.
Qed.

Lemma sget_map_values {V} (g : string -> V -> V) (d : sdict V) c :
  sget (map (fun ci => (fst ci, g (fst ci) (snd ci))) d) c
  = match sget d c with Some x => Some (g c x) | None => None end.
Proof.
  unfold sget. induction d as [|[k x] d IH]; simpl; auto.
  destruct (String.eqb k c) eqn:E; auto. apply String.eqb_eq in E. now subst.
Qed.

Lemma table_indexes_update g st t c idx :
  sget (QueryExecutor.table_indexes st t) c = Some idx ->
  sget (QueryExecutor.table_indexes (QueryExecutor.update_indexes g st t) t) c
  = Some (g c idx).
Proof.
  unfold QueryExecutor.table_indexes, QueryExecutor.update_indexes.
  destruct (sget (indexes st) t) as [d|] eqn:E; [|discriminate].
  intros H. cbn [QueryExecutor.with_indexes indexes]. rewrite sget_sset_same.
  now rewrite sget_map_values, H.
Qed.

Lemma table_indexes_save st t t' :
  QueryExecutor.table_indexes (QueryExecutor.save_indexes st t') t
  = QueryExecutor.table_indexes st t.
Proof. reflexivity. Qed.

Lemma index_agrees_insert rows c idx sch row rowid :
  index_agrees rows c idx ->
  index_agrees (rows ++ [Row.mk (stored_row sch row) rowid]) c
    (match sget row c with
     | Some v => Index.add idx v rowid
     | None => idx
     end).
Proof.
  intros [A1 A2]. split.
  - intros row' v Hin Hv Hnone. apply in_app_or in Hin. destruct Hin as [Hin|[<-|[]]].
    + specialize (A1 row' v Hin Hv Hnone).
      destruct (sget row c); auto. now apply index_get_add_mono.
    + cbn [Row.values Row.rowid] in *.
      assert (K : sget row c = Some v).
      { destruct (sget_none_keys (TableSchema.columns sch) c) as [_ N].
        destruct (in_dec string_dec c (PyDict.keys (TableSchema.columns sch))) as [I|I].
        - rewrite (sget_stored_row sch row c I) in Hv. inversion Hv as [Hv'].
          unfold row_get in *. destruct (sget row c); congruence.
        - exfalso.
          assert (X : sget (stored_row sch row) c = None).
          { apply sget_none_keys. unfold stored_row, PyDict.keys. rewrite map_map. exact I. }
          congruence. }
      rewrite K. apply (index_get_add_same idx v rowid v rowid (py_eq_refl v)). auto.
  - intros v bucket x Hin Hx.
    assert (Old : forall k b, In (k, b) (Index.index idx) -> In x b ->
                  exists row0, In row0 (rows ++ [Row.mk (stored_row sch row) rowid])
                               /\ Row.rowid row0 = x).
    { intros k b Hk Hb. destruct (A2 k b x Hk Hb) as [row0 [H1 H2]].
      exists row0. split; auto. apply in_or_app. auto. }
    destruct (sget row c) as [w|]; [|eauto].
    destruct (index_add_entries idx w rowid v bucket x Hin Hx) as [->|[k' [b' [H1 H2]]]].
    + exists (Row.mk (stored_row sch row) rowid). split; [|reflexivity].
      apply in_or_app. right. left. reflexivity.
    + eauto.
Qed.

(** X16.  INSERT keeps a cached index in agreement with its table: when the
    index of a column agreed with the rows before a successful INSERT of a
    clean row, the updated index agrees with the rows after it. *)
Theorem insert_keeps_index_agreement st t columns values sch row rows c idx r st' :
  StorageEngine.load_schema (fs st) t = Ok sch ->
  TableSchema.columns sch <> [] ->
  QueryExecutor.build_row sch columns values = Ok row ->
  clean_row sch row = true ->
  table_terminated (fs st) t = true ->
  StorageEngine.read_rows (fs st) t = Ok rows ->
  sget (QueryExecutor.table_indexes st t) c = Some idx ->
  index_agrees rows c idx ->
  QueryExecutor.execute st (INSERT t columns values) = (Ok r, st') ->
  exists rows' idx',
    StorageEngine.read_rows (fs st') t = Ok rows'
    /\ sget (QueryExecutor.table_indexes st' t) c = Some idx'
    /\ index_agrees rows' c idx'.
Proof.
  intros Hs Hne Hrow Hclean Hterm Hrows Hidx Hagree Hins.
  cbn [QueryExecutor.execute] in Hins. unfold QueryExecutor._execute_insert in Hins.
  rewrite Hs, Hrow in Hins.
  destruct (negb (TableSchema.validate_row sch row)); [discriminate|].
  destruct (QueryExecutor.duplicate_key st t row (TableSchema.primary_key sch));
    [discriminate|].
  destruct (insert_row_read_rows_ok (fs st) t sch row rows Hs Hne Hclean Hterm Hrows)
    as [rowid [f' [Hi [Hread _]]]].
  rewrite Hi in Hins. inversion Hins as [[Hr Hst]]. clear Hins.
  exists (rows ++ [Row.mk (stored_row sch row) rowid]).
  exists (match sget row c with
          | Some v => Index.add idx v rowid
          | None => idx
          end).
  split; [|split].
  - rewrite <- Hread. apply read_rows_ext.
    + now rewrite save_indexes_table, fs_update_indexes.
    + now rewrite save_indexes_schema, fs_update_indexes.
  - rewrite table_indexes_save.
    apply (table_indexes_update
             (fun col_name index =>
                match sget row col_name with
                | Some v => Index.add index v rowid
                | None => index
                end) (QueryExecutor.with_fs st f') t c idx).
    exact Hidx.
  - now apply index_agrees_insert.
Qed.

Lemma insert_keeps_index_agreement_witness :
  let st := snd (Database.run Database.init two_rows) in
  let sch := TableSchema.init "t" [Column.mk "id" INTEGER None true true true] in
  let rows := [Row.mk [("id", VInt 10%Z)] 1; Row.mk [("id", VInt 20%Z)] 2] in
  let idx := Index.mk "t" "id" [(VInt 10%Z, [1]); (VInt 20%Z, [2])] in
  let insert := INSERT "t" None [VInt 30%Z] in
  StorageEngine.load_schema (fs st) "t" = Ok sch
  /\ TableSchema.columns sch <> []
  /\ QueryExecutor.build_row sch None [VInt 30%Z] = Ok [("id", VInt 30%Z)]
  /\ clean_row sch [("id", VInt 30%Z)] = true
  /\ table_terminated (fs st) "t" = true
  /\ StorageEngine.read_rows (fs st) "t" = Ok rows
  /\ sget (QueryExecutor.table_indexes st "t") "id" = Some idx
  /\ index_agrees rows "id" idx
  /\ QueryExecutor.execute st insert
     = (Ok (QueryResult.init None 1), snd (QueryExecutor.execute st insert))
  /\ exists rows' idx',
       StorageEngine.read_rows (fs (snd (QueryExecutor.execute st insert))) "t" = Ok rows'
       /\ sget (QueryExecutor.table_indexes (snd (QueryExecutor.execute st insert)) "t") "id"
          = Some idx'
       /\ index_agrees rows' "id" idx'.
Proof.
  cbv zeta.
  assert (H1 : StorageEngine.load_schema (fs (snd (Database.run Database.init two_rows))) "t"
               = Ok (TableSchema.init "t" [Column.mk "id" INTEGER None true true true]))
    by (vm_compute; reflexivity).
  assert (H2 : TableSchema.columns
                 (TableSchema.init "t" [Column.mk "id" INTEGER None true true true]) <> [])
    by (vm_compute; discriminate).
  assert (H3 : QueryExecutor.build_row
                 (TableSchema.init "t" [Column.mk "id" INTEGER None true true true])
                 None [VInt 30%Z] = Ok [("id", VInt 30%Z)])
    by (vm_compute; reflexivity).
  assert (H4 : clean_row (TableSchema.init "t" [Column.mk "id" INTEGER None true true true])
                         [("id", VInt 30%Z)] = true)
    by (vm_compute; reflexivity).
  assert (H5 : table_terminated (fs (snd (Database.run Database.init two_rows))) "t" = true)
    by (vm_compute; reflexivity).
  assert (H6 : StorageEngine.read_rows (fs (snd (Database.run Database.init two_rows))) "t"
               = Ok [Row.mk [("id", VInt 10%Z)] 1; Row.mk [("id", VInt 20%Z)] 2])
    by (vm_compute; reflexivity).
  assert (H7 : sget (QueryExecutor.table_indexes (snd (Database.run Database.init two_rows)) "t")
                    "id"
               = Some (Index.mk "t" "id" [(VInt 10%Z, [1]); (VInt 20%Z, [2])]))
    by (vm_compute; reflexivity).
  assert (H8 : index_agrees [Row.mk [("id", VInt 10%Z)] 1; Row.mk [("id", VInt 20%Z)] 2] "id"
                            (Index.mk "t" "id" [(VInt 10%Z, [1]); (VInt 20%Z, [2])])).
  { split.
    - intros row v [<-|[<-|[]]] Hv _; vm_compute in Hv; inversion Hv; subst v;
        vm_compute; auto.
    - intros v bucket rowid Hin Hrow. vm_compute in Hin.
      destruct Hin as [Hin|[Hin|[]]]; inversion Hin; subst; destruct Hrow as [<-|[]].
      + exists (Row.mk [("id", VInt 10%Z)] 1). split; [left; reflexivity|reflexivity].
      + exists (Row.mk [("id", VInt 20%Z)] 2). split; [right; left; reflexivity|reflexivity]. }
  assert (H9 : QueryExecutor.execute (snd (Database.run Database.init two_rows))
                 (INSERT "t" None [VInt 30%Z])
               = (Ok (QueryResult.init None 1),
                  snd (QueryExecutor.execute (snd (Database.run Database.init two_rows))
                         (INSERT "t" None [VInt 30%Z]))))
    by (vm_compute; reflexivity).
  split; [exact H1|]. split; [exact H2|]. split; [exact H3|]. split; [exact H4|].
  split; [exact H5|]. split; [exact H6|]. split; [exact H7|]. split; [exact H8|].
  split; [exact H9|].
  exact (insert_keeps_index_agreement (snd (Database.run Database.init two_rows)) "t"
           None [VInt 30%Z] _ _ _ "id" _ _ _ H1 H2 H3 H4 H5 H6 H7 H8 H9).
Defined.

(** ** SELECT: filter, projection and order *)



Lemma fold_project_get (g : string -> value) cols (acc : sdict value) c :
  sget (fold_left (fun d col => sset d col (g col)) cols acc) c
  = if existsb (String.eqb c) cols then Some (g c) else sget acc c.
Proof.
  revert acc. induction cols as [|k cols IH]; intros acc; [reflexivity|].
  cbn [fold_left existsb]. rewrite IH.
  destruct (existsb (String.eqb c) cols); [now rewrite orb_true_r|].
  rewrite orb_false_r. destruct (String.eqb c k) eqn:E.
  - apply String.eqb_eq in E. subst. now rewrite sget_sset_same.
  - apply String.eqb_neq in E. rewrite sget_sset_other; auto.
Qed.

(** X21.  The projection of a SELECT: a result row has the selected columns as
    its keys, each with the value of the row, and [None] for a selected
    column that the row does not have; no column name is an error. *)
Theorem project_get selected_columns row c :
  sget (QueryExecutor.project selected_columns row) c
  = if existsb (String.eqb c) selected_columns
    then Some (row_get (Row.values row) c)
    else None.
Proof.
  unfold QueryExecutor.project.
  apply (fold_project_get (fun col => row_get (Row.values row) col) selected_columns [] c).
Qed.

(** X22.  Given the names of the columns, [_apply_order_by] is a stable sort: the
    result is a rearrangement of the rows, ascending in the keys that put
    a missing or [None] value last and compare the other values as
    lower-cased strings, and rows of equal key keep their order. *)
Theorem order_by_sorts rows cols :
  cols <> [] ->
  Permutation rows (QueryExecutor._apply_order_by rows cols)
  /\ ascending (QueryExecutor.sort_key cols) (QueryExecutor._apply_order_by rows cols)
  /\ stable (QueryExecutor.sort_key cols) rows (QueryExecutor._apply_order_by rows cols).
Proof.
  intros Hcols. unfold QueryExecutor._apply_order_by.
  destruct cols as [|c cs]; [contradiction|].
  destruct rows as [|r rs].
  - repeat split; auto. constructor.
  - apply sorted_spec.
Qed.

Lemma order_by_sorts_witness :
  let rows := [[("id", VInt 2%Z)]; [("id", VNone)]; [("id", VInt 1%Z)]] in
  [KeyStr "id"] <> []
  /\ Permutation rows (QueryExecutor._apply_order_by rows [KeyStr "id"])
  /\ ascending (QueryExecutor.sort_key [KeyStr "id"])
               (QueryExecutor._apply_order_by rows [KeyStr "id"])
  /\ stable (QueryExecutor.sort_key [KeyStr "id"]) rows
            (QueryExecutor._apply_order_by rows [KeyStr "id"]).
Proof.
  assert (H : [KeyStr "id"] <> []) by discriminate.
  split; [exact H|].
  exact (order_by_sorts [[("id", VInt 2%Z)]; [("id", VNone)]; [("id", VInt 1%Z)]]
           [KeyStr "id"] H).
Defined.

(** X23.  The ORDER BY clause of a parsed SELECT has no effect: the parser
    stores a bound method for each column, no row has such a key, and the
    statement returns what it returns without the clause. *)
Theorem order_by_clause_has_no_effect st sql columns from_ where_ keys :
  SQLParser._parse_select sql = Ok (SELECT columns from_ where_ (Some keys)) ->
  QueryExecutor.execute st (SELECT columns from_ where_ (Some keys))
  = QueryExecutor.execute st (SELECT columns from_ where_ None).
Proof.
  intros H. apply parse_select_order_by in H.
  cbn [QueryExecutor.execute]. f_equal.
  destruct from_ as [table|jt lt rt lc rc]; cbn [QueryExecutor._execute_select].
  - unfold QueryExecutor._execute_simple_select.
    destruct (StorageEngine.load_schema (fs st) table); [|reflexivity]. cbn [rbind].
    destruct (StorageEngine.read_rows (fs st) table); [|reflexivity]. cbn [rbind].
    destruct (QueryExecutor._apply_where_clause _ where_); [|reflexivity]. cbn [rbind].
    now rewrite order_rows_bound_methods.
  - unfold QueryExecutor._execute_join_select.
    destruct (StorageEngine.load_schema (fs st) lt); [|reflexivity]. cbn [rbind].
    destruct (StorageEngine.load_schema (fs st) rt); [|reflexivity]. cbn [rbind].
    destruct (StorageEngine.read_rows (fs st) lt); [|reflexivity]. cbn [rbind].
    destruct (StorageEngine.read_rows (fs st) rt); [|reflexivity]. cbn [rbind].
    match goal with |- rbind ?m _ = _ => destruct m; [|reflexivity] end. cbn [rbind].
    match goal with |- rbind ?m _ = _ => destruct m; [|reflexivity] end. cbn [rbind].
    match goal with |- rbind ?m _ = _ => destruct m; [|reflexivity] end. cbn [rbind].
    now rewrite order_rows_bound_methods.
Qed.

Lemma order_by_clause_has_no_effect_witness :
  SQLParser._parse_select "SELECT id FROM t ORDER BY id"
  = Ok (SELECT ["id"] (FromSimple "t") None (Some [KeyBoundLower "id"]))
  /\ QueryExecutor.execute (snd (Database.run Database.init descending))
       (SELECT ["id"] (FromSimple "t") None (Some [KeyBoundLower "id"]))
     = QueryExecutor.execute (snd (Database.run Database.init descending))
         (SELECT ["id"] (FromSimple "t") None None).
Proof.
  assert (H : SQLParser._parse_select "SELECT id FROM t ORDER BY id"
              = Ok (SELECT ["id"] (FromSimple "t") None (Some [KeyBoundLower "id"])))
    by (vm_compute; reflexivity).
  split; [exact H|].
  exact (order_by_clause_has_no_effect (snd (Database.run Database.init descending))
           "SELECT id FROM t ORDER BY id" ["id"] (FromSimple "t") None [KeyBoundLower "id"] H).
Defined.

(** ** The WHERE record of UPDATE and DELETE *)

Lemma delete_loop_ext t w1 w2 rows st :
  (forall r, QueryExecutor.where_matches w1 r = QueryExecutor.where_matches w2 r) ->
  QueryExecutor.delete_loop t w1 rows st = QueryExecutor.delete_loop t w2 rows st.
Proof.
  intros H. revert st. induction rows as [|row rows IH]; intros st; [reflexivity|].
  cbn [QueryExecutor.delete_loop]. rewrite (H row).
  destruct (QueryExecutor.where_matches w2 row); now rewrite IH.
Qed.

Lemma update_loop_ext t ups w1 w2 rows st :
  (forall r, QueryExecutor.where_matches w1 r = QueryExecutor.where_matches w2 r) ->
  QueryExecutor.update_loop t ups w1 rows st = QueryExecutor.update_loop t ups w2 rows st.
Proof.
  intros H. revert st. induction rows as [|row rows IH]; intros st; [reflexivity|].
  cbn [QueryExecutor.update_loop]. rewrite (H row).
  destruct (QueryExecutor.where_matches w2 row); now rewrite IH.
Qed.

(** X19.  UPDATE and DELETE never look at the operator of their WHERE record:
    whatever the operator written, the rows taken are those whose column
    is equal to the value. *)
Theorem where_operator_ignored st t ups column op op' v :
  QueryExecutor.execute st (DELETE t (Some (mk_where column op v)))
  = QueryExecutor.execute st (DELETE t (Some (mk_where column op' v)))
  /\ QueryExecutor.execute st (UPDATE t ups (Some (mk_where column op v)))
     = QueryExecutor.execute st (UPDATE t ups (Some (mk_where column op' v))).
Proof.
  split; cbn [QueryExecutor.execute].
  - unfold QueryExecutor._execute_delete.
    destruct (StorageEngine.read_rows (fs st) t) as [rows|e]; [|reflexivity].
    now rewrite (delete_loop_ext t (Some (mk_where column op v))
                   (Some (mk_where column op' v)) rows st (fun r => eq_refl)).
  - unfold QueryExecutor._execute_update.
    destruct (StorageEngine.read_rows (fs st) t) as [rows|e]; [|reflexivity].
    now rewrite (update_loop_ext t ups (Some (mk_where column op v))
                   (Some (mk_where column op' v)) rows st (fun r => eq_refl)).
Qed.

(** ** The joins as nested loops *)

Lemma hash_append_get (m : list (value * list Row.t)) kv row v :
  rows_under
    (PyDict.set PyVal.py_eq
       (if PyDict.mem PyVal.py_eq m kv then m else PyDict.set PyVal.py_eq m kv [])
       kv
       (match PyDict.get PyVal.py_eq
                (if PyDict.mem PyVal.py_eq m kv then m else PyDict.set PyVal.py_eq m kv [])
                kv with
        | Some l => l
        | None => []
        end ++ [row])) v
  = rows_under m v ++ (if PyVal.py_eq kv v then [row] else []).
Proof.
  unfold rows_under, PyDict.mem.
  destruct (PyVal.py_eq kv v) eqn:E.
  - rewrite (vget_set_same _ kv v _ E), <- (vget_keq m kv v E).
    destruct (PyDict.get PyVal.py_eq m kv) as [l|] eqn:G.
    + now rewrite G.
    + now rewrite (vget_set_same _ kv kv _ (py_eq_refl kv)).
  - rewrite (vget_set_other _ kv v _ E), app_nil_r.
    destruct (PyDict.get PyVal.py_eq m kv); auto.
    now rewrite (vget_set_other _ kv v _ E).
Qed.

Lemma right_map_add_get right_key m row v :
  rows_under (QueryExecutor.right_map_add right_key m row) v
  = rows_under m v ++ (if filed_under right_key v row then [row] else []).
Proof.
  unfold QueryExecutor.right_map_add, filed_under.
  destruct (row_get (Row.values row) right_key) as [|b|z|s].
  - now rewrite app_nil_r.
  - apply hash_append_get.
  - apply hash_append_get.
  - apply hash_append_get.
Qed.

Lemma right_map_get right_key right_rows m v :
  rows_under (fold_left (QueryExecutor.right_map_add right_key) right_rows m) v
  = rows_under m v ++ filter (filed_under right_key v) right_rows.
Proof.
  revert m. induction right_rows as [|r rs IH]; intros m; simpl.
  - now rewrite app_nil_r.
  - rewrite IH, right_map_add_get, <- app_assoc.
    now destruct (filed_under right_key v r).
Qed.

Lemma hash_append_nonempty (m : list (value * list Row.t)) kv row :
  (forall k l, In (k, l) m -> l <> []) ->
  forall k l,
    In (k, l)
       (PyDict.set PyVal.py_eq
          (if PyDict.mem PyVal.py_eq m kv then m else PyDict.set PyVal.py_eq m kv [])
          kv
          (match PyDict.get PyVal.py_eq
                   (if PyDict.mem PyVal.py_eq m kv then m else PyDict.set PyVal.py_eq m kv [])
                   kv with
           | Some l => l
           | None => []
           end ++ [row])) -> l <> [].
Proof.
  intros H k l Hin.
  assert (E : forall x, PyDict.set PyVal.py_eq
                (if PyDict.mem PyVal.py_eq m kv then m else PyDict.set PyVal.py_eq m kv []) kv x
              = PyDict.set PyVal.py_eq m kv x).
  { intros x. destruct (PyDict.mem PyVal.py_eq m kv); auto.
    apply (dict_set_set PyVal.py_eq py_eq_refl). }
  rewrite E in Hin. apply dict_set_in in Hin. destruct Hin as [Hin| ->].
  - now apply (H k).
  - intros F. apply app_eq_nil in F. destruct F as [_ F]. discriminate.
Qed.

Lemma right_map_nonempty right_key right_rows m :
  (forall k l, In (k, l) m -> l <> []) ->
  forall k l, In (k, l) (fold_left (QueryExecutor.right_map_add right_key) right_rows m) ->
              l <> [].
Proof.
  revert m. induction right_rows as [|r rs IH]; intros m H; simpl; auto.
  apply IH. unfold QueryExecutor.right_map_add.
  destruct (row_get (Row.values r) right_key); auto; now apply hash_append_nonempty.
Qed.

Lemma join_match_none left_key right_key l right_rows :
  row_get (Row.values l) left_key = VNone ->
  filter (join_match left_key right_key l) right_rows = [].
Proof.
  intros K. induction right_rows as [|r rs IH]; [reflexivity|].
  cbn [filter]. unfold join_match at 1. now rewrite K.
Qed.

(** What a left row finds in the hash map of the right rows. *)
Lemma matches_spec left_key right_key right_rows l :
  QueryExecutor.matches (fold_left (QueryExecutor.right_map_add right_key) right_rows [])
                        left_key l
  = match filter (join_match left_key right_key l) right_rows with
    | [] => None
    | ms => Some ms
    end.
Proof.
  assert (F : forall v,
            v <> VNone -> row_get (Row.values l) left_key = v ->
            PyDict.get PyVal.py_eq
              (fold_left (QueryExecutor.right_map_add right_key) right_rows []) v
            = match filter (join_match left_key right_key l) right_rows with
              | [] => None
              | ms => Some ms
              end).
  { intros v Hv Hl.
    assert (X : filter (join_match left_key right_key l) right_rows
                = filter (filed_under right_key v) right_rows).
    { apply filter_ext. intros r. unfold join_match, filed_under. rewrite Hl.
      destruct v as [|b|z|s]; [congruence| | |];
        destruct (row_get (Row.values r) right_key); auto using py_eq_sym. }
    rewrite X.
    pose proof (right_map_get right_key right_rows [] v) as G.
    pose proof (right_map_nonempty right_key right_rows [] ltac:(intros k l0 []))
      as N.
    unfold rows_under in G. cbn [PyDict.get app] in G.
    destruct (PyDict.get PyVal.py_eq
                (fold_left (QueryExecutor.right_map_add right_key) right_rows []) v)
      as [rs|] eqn:E.
    - rewrite <- G. destruct (dict_get_in _ _ _ _ E) as [k0 [Hin _]].
      specialize (N k0 rs Hin). destruct rs; congruence.
    - now rewrite <- G. }
  unfold QueryExecutor.matches.
  destruct (row_get (Row.values l) left_key) as [|b|z|s] eqn:K.
  - assert (X : filter (join_match left_key right_key l) right_rows = []).
    { now apply join_match_none. }
    now rewrite X.
  - apply F; congruence.
  - apply F; congruence.
  - apply F; congruence.
Qed.

(** X24.  The hash join of [_perform_inner_join] is the nested-loop join: it
    returns, for every left row in order, its pairs with the right rows, in
    order, whose key is equal to the key of the left row, a key [None]
    matching nothing. *)
Theorem inner_join_nested_loop left_rows right_rows left_key right_key :
  QueryExecutor._perform_inner_join left_rows right_rows left_key right_key
  = nested_loop_inner left_rows right_rows left_key right_key.
Proof.
  unfold QueryExecutor._perform_inner_join, nested_loop_inner.
  apply flat_map_ext. intros l. rewrite (matches_spec left_key right_key).
  now destruct (filter (join_match left_key right_key l) right_rows).
Qed.

Lemma build_right_map_some right_key right_rows m :
  QueryExecutor.build_right_map right_key (map Some right_rows) m
  = Ok (fold_left (QueryExecutor.right_map_add right_key) right_rows m).
Proof.
  revert m. induction right_rows as [|r rs IH]; intros m; simpl; auto.
Qed.

Lemma left_join_records_some right_key left_key left_rows right_rows :
  left_join_records (fold_left (QueryExecutor.right_map_add right_key) right_rows [])
                    left_key (map Some left_rows)
  = nested_loop_left left_rows right_rows left_key right_key.
Proof.
  unfold left_join_records, nested_loop_left.
  rewrite flat_map_concat_map, map_map, <- flat_map_concat_map.
  apply flat_map_ext. intros l. rewrite (matches_spec left_key right_key).
  now destruct (filter (join_match left_key right_key l) right_rows).
Qed.

(** X25.  The LEFT join of two lists of rows is the nested-loop left join: every
    left row, in order, paired with each right row of equal key, or kept
    once with no right row when no right row matches (in particular when
    its key is [None]). *)
Theorem left_join_nested_loop left_rows right_rows left_key right_key :
  joined_records
    (QueryExecutor._perform_left_join [] (Some (map Some left_rows)) (Some (map Some right_rows))
                                      left_key right_key)
  = Ok (nested_loop_left left_rows right_rows left_key right_key).
Proof.
  unfold QueryExecutor._perform_left_join, joined_records. cbn [QueryExecutor.or_empty].
  rewrite build_right_map_some. cbn [rbind].
  rewrite left_join_loop_spec. cbn [fst snd app List.length].
  match goal with
  | |- Ok (QueryExecutor.view ?rs _) = _ =>
      pose proof (view_fresh [] rs) as V; cbn [app List.length] in V; rewrite V
  end.
  now rewrite left_join_records_some.
Qed.

(** ** core/parser.py *)

Lemma strip_edges s :
  not_blank (first_char s) = true -> not_blank (last_char s) = true -> PyStr.strip s = s.
Proof.
  intros Hf Hl. unfold PyStr.strip. destruct s as [|c r]; [reflexivity|].
  simpl in Hf. apply negb_true_iff in Hf. rewrite (lstrip_head c r Hf).
  now apply rstrip_last.
Qed.

Lemma string_length_app a b : String.length (a ++ b) = String.length a + String.length b.
Proof. induction a as [|c a IH]; simpl; auto. Qed.

Lemma substring_full b : substring 0 (String.length b) b = b.
Proof. induction b as [|c b IH]; simpl; auto. now rewrite IH. Qed.

Lemma substring_prefix a b : substring 0 (String.length a) (a ++ b) = a.
Proof.
  induction a as [|c a IH]; simpl.
  - now destruct b.
  - now rewrite IH.
Qed.

Lemma substring_suffix a b : substring (String.length a) (String.length b) (a ++ b) = b.
Proof.
  induction a as [|c a IH]; simpl; auto. apply substring_full.
Qed.

Lemma quoted_literal q s :
  SQLParser.quoted q (String q (s ++ String q EmptyString)) = true
  /\ PyStr.strip_ends (String q (s ++ String q EmptyString)) = s.
Proof.
  split.
  - unfold SQLParser.quoted. rewrite startswith_one, Ascii.eqb_refl. cbn [andb].
    unfold PyStr.endswith.
    change (String q (s ++ String q EmptyString))
      with ((String q s ++ String q EmptyString)%string).
    rewrite string_length_app. cbn [String.length].
    replace (S (String.length s) + 1 - 1) with (S (String.length s)) by lia.
    pose proof (substring_suffix (String q s) (String q EmptyString)) as E.
    cbn [String.length] in E. rewrite E, String.eqb_refl, andb_true_r.
    apply Nat.leb_le. lia.
  - unfold PyStr.strip_ends. cbn [String.length]. rewrite string_length_app.
    cbn [String.length].
    replace (S (String.length s + 1) - 2) with (String.length s) by lia.
    cbn [substring]. apply substring_prefix.
Qed.

Lemma strip_quoted q s :
  PyStr.isspace q = false ->
  PyStr.strip (String q (s ++ String q EmptyString)) = String q (s ++ String q EmptyString).
Proof.
  intros Hq. apply strip_edges.
  - simpl. now rewrite Hq.
  - change (String q (s ++ String q EmptyString))
      with ((String q s ++ String q EmptyString)%string).
    rewrite last_char_app by discriminate. simpl. now rewrite Hq.
Qed.

(** X26.  A literal between single or between double quotes is the text between
    the quotes, as it stands: nothing in it is unescaped or trimmed, and
    it is a string also when it reads [NULL] or as a number. *)
Theorem parse_value_quoted s :
  SQLParser._parse_value (String "'" (s ++ "'")) = Ok (VStr s)
  /\ SQLParser._parse_value (String DQUOTE (s ++ String DQUOTE EmptyString)) = Ok (VStr s).
Proof.
  split.
  - unfold SQLParser._parse_value. cbv zeta.
    rewrite (strip_quoted "'" s eq_refl).
    destruct (quoted_literal "'" s) as [Q E].
    change (PyStr.upper (String "'" (s ++ "'")))
      with (String "'" (PyStr.upper (s ++ "'"))).
    cbn [String.eqb Ascii.eqb Bool.eqb].
    change (String "'" EmptyString) with "'"%string in Q.
    rewrite Q. cbn [orb]. now rewrite E.
  - unfold SQLParser._parse_value. cbv zeta.
    rewrite (strip_quoted DQUOTE s eq_refl).
    destruct (quoted_literal DQUOTE s) as [Q E].
    change (PyStr.upper (String DQUOTE (s ++ String DQUOTE EmptyString)))
      with (String DQUOTE (PyStr.upper (s ++ String DQUOTE EmptyString))).
    cbn [String.eqb Ascii.eqb Bool.eqb DQUOTE].
    fold DQUOTE. rewrite Q, orb_true_r. now rewrite E.
Qed.

(** *** Integer literals *)

Lemma rep_all {R} f cl s min pos caps (k : @Re.cont R) x :
  all_chars (Re.class_matches f cl) s = true ->
  min <= String.length s ->
  k (pos + String.length s) EmptyString caps = Some x ->
  Re.rep f cl min true pos s caps k = Some x.
Proof.
  revert min pos. induction s as [|c s IH]; intros min pos Hall Hmin Hk.
  - cbn [String.length] in *. rewrite Nat.add_0_r in Hk.
    destruct min; [exact Hk|lia].
  - cbn [all_chars] in Hall. apply andb_true_iff in Hall. destruct Hall as [Hc Hs].
    cbn [Re.rep]. rewrite Hc.
    rewrite (IH (Nat.pred min) (S pos) Hs).
    + reflexivity.
    + cbn [String.length] in Hmin. lia.
    + cbn [String.length] in Hk. now rewrite Nat.add_succ_r in Hk.
Qed.

Lemma digit_facts c :
  PyStr.isdigit c = true ->
  PyStr.upper_char c = c
  /\ Ascii.eqb c "N" = false /\ Ascii.eqb c "T" = false /\ Ascii.eqb c "F" = false
  /\ Ascii.eqb "'" c = false /\ Ascii.eqb DQUOTE c = false /\ Ascii.eqb "-" c = false.
Proof.
  destruct c as [[] [] [] [] [] [] [] []]; vm_compute; intros H;
    try discriminate H; repeat split; reflexivity.
Qed.

Lemma upper_digits d : all_chars PyStr.isdigit d = true -> PyStr.upper d = d.
Proof.
  unfold PyStr.upper. induction d as [|c d IH]; [reflexivity|].
  cbn [all_chars PyStr.map_str]. rewrite andb_true_iff. intros [Hc Hd].
  destruct (digit_facts c Hc) as [U _]. now rewrite U, (IH Hd).
Qed.

Lemma strip_digits d : all_chars PyStr.isdigit d = true -> PyStr.strip d = d.
Proof.
  intros H. apply strip_no_space. apply (all_chars_impl PyStr.isdigit); auto.
  intros c Hc. apply negb_true_iff. now apply isdigit_cases.
Qed.

Lemma strip_minus_digits d :
  all_chars PyStr.isdigit d = true -> PyStr.strip (String "-" d) = String "-" d.
Proof.
  intros H. apply strip_no_space. cbn [all_chars].
  replace (negb (PyStr.isspace "-")) with true by reflexivity.
  apply (all_chars_impl PyStr.isdigit); auto.
  intros c Hc. apply negb_true_iff. now apply isdigit_cases.
Qed.

Lemma match_int_digits d :
  all_chars PyStr.isdigit d = true -> d <> EmptyString ->
  Re.match_ SQLParser.no_flags SQLParser.int_pattern d = Some []
  /\ Re.match_ SQLParser.no_flags SQLParser.int_pattern (String "-" d) = Some [].
Proof.
  intros Hd Hne.
  assert (K : forall pos, Re.rep SQLParser.no_flags Re.CDigit 1 true pos d []
                (fun pos' s' caps' =>
                   Re.run SQLParser.no_flags Re.Eol pos' s' caps'
                          (fun _ _ caps => Some caps)) = Some []).
  { intros pos. apply rep_all; auto.
    destruct d; [congruence|]. cbn [String.length]. lia. }
  unfold Re.match_, SQLParser.int_pattern, Re.plus.
  cbn [Re.seq Re.run]. split.
  - destruct d as [|c d']; [congruence|].
    cbn [all_chars] in Hd. apply andb_true_iff in Hd. destruct Hd as [Hc _].
    destruct (digit_facts c Hc) as [_ [_ [_ [_ [_ [_ M]]]]]].
    cbn [Re.class_matches Re.char_eq SQLParser.no_flags Re.ignorecase].
    rewrite M. apply K.
  - cbn [Re.class_matches Re.char_eq SQLParser.no_flags Re.ignorecase].
    replace (Ascii.eqb "-" "-") with true by reflexivity.
    pose proof (K 1) as K1. cbn [Re.run] in K1. now rewrite K1.
Qed.

Lemma parse_value_digits d :
  all_chars PyStr.isdigit d = true -> d <> EmptyString ->
  (forall z, PyStr.int_of_str d = Some z -> SQLParser._parse_value d = Ok (VInt z))
  /\ (forall z, PyStr.int_of_str (String "-" d) = Some z ->
                SQLParser._parse_value (String "-" d) = Ok (VInt z)).
Proof.
  intros Hd Hne. destruct (match_int_digits d Hd Hne) as [M1 M2].
  pose proof (upper_digits d Hd) as U.
  destruct d as [|c d']; [congruence|].
  assert (Hc : PyStr.isdigit c = true).
  { cbn [all_chars] in Hd. apply andb_true_iff in Hd. tauto. }
  destruct (digit_facts c Hc) as [_ [N [T [F [Q [D _]]]]]].
  split; intros z Hz; unfold SQLParser._parse_value; cbv zeta.
  - rewrite (strip_digits _ Hd), U.
    unfold SQLParser.quoted. cbn [String.eqb PyStr.startswith].
    rewrite N, T, F, Q, D. cbn [andb orb]. now rewrite M1, Hz.
  - rewrite (strip_minus_digits _ Hd).
    change (PyStr.upper (String "-" (String c d')))
      with (String "-" (PyStr.upper (String c d'))).
    rewrite U. unfold SQLParser.quoted. cbn [String.eqb PyStr.startswith].
    replace (Ascii.eqb "-" "N") with false by reflexivity.
    replace (Ascii.eqb "-" "T") with false by reflexivity.
    replace (Ascii.eqb "-" "F") with false by reflexivity.
    replace (Ascii.eqb "'" "-") with false by reflexivity.
    replace (Ascii.eqb DQUOTE "-") with false by reflexivity.
    cbn [andb orb]. now rewrite M2, Hz.
Qed.

(** X27.  An integer literal is parsed as the integer it denotes: the text that
    [str] prints for an [int] is read back as that [int]. *)
Theorem parse_value_int z : SQLParser._parse_value (PyStr.str_of_Z z) = Ok (VInt z).
Proof.
  pose proof (int_of_str_of_Z z) as H.
  destruct z as [|p|p].
  - reflexivity.
  - rewrite str_of_pos in *.
    apply (proj1 (parse_value_digits _ (digits_of_uint _)
                    (string_of_uint_nonempty _ (to_uint_not_nil p)))); auto.
  - rewrite str_of_neg in *.
    apply (proj2 (parse_value_digits _ (digits_of_uint _)
                    (string_of_uint_nonempty _ (to_uint_not_nil p)))); auto.
Qed.

(** *** The shape of parsed commands *)

Lemma mapM_forall {A B} (g : A -> result B) (P : B -> Prop) l bs :
  (forall a b, g a = Ok b -> P b) -> SQLParser.mapM g l = Ok bs -> Forall P bs.
Proof.
  intros HP. revert bs. induction l as [|a l IH]; intros bs H; simpl in H.
  - inversion H. constructor.
  - destruct (g a) as [b|e] eqn:E; [|discriminate]. cbn [rbind] in H.
    destruct (SQLParser.mapM g l) as [bs'|e]; [|discriminate]. cbn [rbind] in H.
    inversion H. constructor; eauto.
Qed.

Lemma parse_simple_condition_comparison s c :
  SQLParser._parse_simple_condition s = Ok c -> is_comparison c = true.
Proof.
  unfold SQLParser._parse_simple_condition.
  destruct (match Re.match_ SQLParser.I SQLParser.condition_pattern s with
            | Some caps => Some caps
            | None => Re.match_ SQLParser.I SQLParser.qualified_condition_pattern s
            end) as [caps|]; [|discriminate].
  destruct (SQLParser._parse_value _) as [v|e]; [|discriminate].
  cbn [rbind]. intros H. now inversion H.
Qed.

(** X28.  A parsed WHERE clause of SELECT is never nested: it is one comparison,
    or the AND of comparisons, or the OR of comparisons. *)
Theorem where_clause_flat s c :
  SQLParser._parse_where_clause s = Ok c -> flat c = true.
Proof.
  unfold SQLParser._parse_where_clause. cbv zeta.
  destruct (PyStr.contains (PyStr.upper (PyStr.strip s)) " AND ").
  - destruct (SQLParser.mapM _ _) as [cs|e] eqn:E; [|discriminate].
    cbn [rbind]. intros H. inversion H. cbn [flat]. apply forallb_forall.
    apply Forall_forall.
    apply (mapM_forall _ (fun c => is_comparison c = true) _ _
             (fun a b => parse_simple_condition_comparison _ b) E).
  - destruct (PyStr.contains (PyStr.upper (PyStr.strip s)) " OR ").
    + destruct (SQLParser.mapM _ _) as [cs|e] eqn:E; [|discriminate].
      cbn [rbind]. intros H. inversion H. cbn [flat]. apply forallb_forall.
      apply Forall_forall.
      apply (mapM_forall _ (fun c => is_comparison c = true) _ _
               (fun a b => parse_simple_condition_comparison _ b) E).
    + intros H. apply parse_simple_condition_comparison in H.
      destruct c; try discriminate. reflexivity.
Qed.

Lemma where_clause_flat_witness :
  SQLParser._parse_where_clause "id = 1 OR name = 'x'"
  = Ok (CondOr [Condition "id" "=" (VInt 1%Z); Condition "name" "=" (VStr "x")])
  /\ flat (CondOr [Condition "id" "=" (VInt 1%Z); Condition "name" "=" (VStr "x")]) = true.
Proof.
  assert (H : SQLParser._parse_where_clause "id = 1 OR name = 'x'"
              = Ok (CondOr [Condition "id" "=" (VInt 1%Z); Condition "name" "=" (VStr "x")]))
    by (vm_compute; reflexivity).
  split; [exact H|].
  exact (where_clause_flat "id = 1 OR name = 'x'" _ H).
Defined.

Lemma parse_create_table_kind sql c :
  SQLParser._parse_create_table sql = Ok c -> exists t cols, c = CREATE_TABLE t cols.
Proof.
  unfold SQLParser._parse_create_table.
  destruct (Re.match_ _ _ sql); [|discriminate]. cbv zeta.
  destruct (SQLParser.mapM _ _); [|discriminate]. cbn [rbind].
  intros H. inversion H. eauto.
Qed.

Lemma parse_insert_kind sql c :
  SQLParser._parse_insert sql = Ok c -> exists t cols vals, c = INSERT t cols vals.
Proof.
  unfold SQLParser._parse_insert.
  destruct (Re.match_ _ SQLParser.insert_columns_pattern sql).
  - cbv zeta. destruct (SQLParser._parse_values _); [|discriminate]. cbn [rbind].
    destruct (negb _); [discriminate|]. intros H. inversion H. eauto.
  - destruct (Re.match_ _ SQLParser.insert_values_pattern sql); [|discriminate].
    cbv zeta. destruct (SQLParser._parse_values _); [|discriminate]. cbn [rbind].
    intros H. inversion H. eauto.
Qed.

Lemma parse_select_kind sql c :
  SQLParser._parse_select sql = Ok c -> exists cols f w o, c = SELECT cols f w o.
Proof.
  unfold SQLParser._parse_select.
  destruct (Re.match_ _ _ sql); [|discriminate]. cbv zeta.
  destruct (SQLParser._parse_from_clause _); [|discriminate]. cbn [rbind].
  match goal with |- rbind ?m _ = _ -> _ => destruct m; [|discriminate] end.
  cbn [rbind]. intros H. inversion H. eauto.
Qed.

Lemma parse_update_kind sql c :
  SQLParser._parse_update sql = Ok c -> exists t ups w, c = UPDATE t ups (Some w).
Proof.
  unfold SQLParser._parse_update.
  destruct (Re.match_ _ _ sql); [|discriminate]. cbv zeta.
  destruct (SQLParser.parse_assignments _ _); [|discriminate]. cbn [rbind].
  destruct (SQLParser.parse_simple_where _) as [[w|e]|]; try discriminate.
  cbn [rbind]. intros H. inversion H. eauto.
Qed.

Lemma parse_delete_kind sql c :
  SQLParser._parse_delete sql = Ok c -> exists t w, c = DELETE t w.
Proof.
  unfold SQLParser._parse_delete.
  destruct (Re.match_ _ _ sql); [|discriminate]. cbv zeta.
  destruct (SQLParser.nonempty _).
  - destruct (SQLParser.parse_simple_where _) as [[w|e]|]; try discriminate;
      cbn [rbind]; intros H; inversion H; eauto.
  - intros H. inversion H. eauto.
Qed.

Lemma parse_drop_table_kind sql c :
  SQLParser._parse_drop_table sql = Ok c -> exists t, c = DROP_TABLE t.
Proof.
  unfold SQLParser._parse_drop_table.
  destruct (Re.match_ _ _ sql); [|discriminate].
  intros H. inversion H. eauto.
Qed.

(** X29.  The keyword decides the command: [parse] returns a command only for a
    statement that starts, after stripping and in any case of letters,
    with the keyword of that command; and a parsed UPDATE always has a
    WHERE record (an UPDATE without WHERE is a syntax error). *)
Theorem parse_keyword sql parsed :
  SQLParser.parse sql = Ok parsed ->
  PyStr.startswith (PyStr.upper (PyStr.strip sql)) (statement_keyword parsed) = true
  /\ update_has_where parsed = true.
Proof.
  unfold SQLParser.parse. cbv zeta.
  destruct (PyStr.startswith _ "CREATE TABLE") eqn:E1.
  { intros H. apply parse_create_table_kind in H. destruct H as [t [cols ->]]. auto. }
  destruct (PyStr.startswith _ "INSERT INTO") eqn:E2.
  { intros H. apply parse_insert_kind in H. destruct H as [t [cols [vals ->]]]. auto. }
  destruct (PyStr.startswith _ "SELECT") eqn:E3.
  { intros H. apply parse_select_kind in H. destruct H as [cols [f [w [o ->]]]]. auto. }
  destruct (PyStr.startswith _ "UPDATE") eqn:E4.
  { intros H. apply parse_update_kind in H. destruct H as [t [ups [w ->]]]. auto. }
  destruct (PyStr.startswith _ "DELETE FROM") eqn:E5.
  { intros H. apply parse_delete_kind in H. destruct H as [t [w ->]]. auto. }
  destruct (PyStr.startswith _ "DROP TABLE") eqn:E6.
  { intros H. apply parse_drop_table_kind in H. destruct H as [t ->]. auto. }
  discriminate.
Qed.

Lemma parse_keyword_witness :
  SQLParser.parse "  update t SET id = 1 WHERE id = 2"
  = Ok (UPDATE "t" [("id", VInt 1%Z)] (Some (mk_where "id" "=" (VInt 2%Z))))
  /\ PyStr.startswith (PyStr.upper (PyStr.strip "  update t SET id = 1 WHERE id = 2"))
       (statement_keyword
          (UPDATE "t" [("id", VInt 1%Z)] (Some (mk_where "id" "=" (VInt 2%Z))))) = true
  /\ update_has_where
       (UPDATE "t" [("id", VInt 1%Z)] (Some (mk_where "id" "=" (VInt 2%Z)))) = true.
Proof.
  assert (H : SQLParser.parse "  update t SET id = 1 WHERE id = 2"
              = Ok (UPDATE "t" [("id", VInt 1%Z)] (Some (mk_where "id" "=" (VInt 2%Z)))))
    by (vm_compute; reflexivity).
  split; [exact H|].
  exact (parse_keyword "  update t SET id = 1 WHERE id = 2" _ H).
Defined.
